(** * mreg-cli: command handlers and the operation history

    A shallow embedding of [commands.py] (classes [History], [Host], [Zone],
    [Subnet]) and of [mreg_cli/permission.py] ([network_list], [network_add],
    [network_remove]).  Handlers are programs of a small state-and-exception
    monad; everything a handler does that is visible from outside (calls of the
    history object, HTTP requests, warnings, prompts, printed rows) is appended
    to a trace, in program order. *)

From Stdlib Require Import String Ascii List ZArith Bool Lia.
From Stdlib Require Import Permutation Sorted DecimalString.
Import ListNotations.
Open Scope string_scope.
Open Scope Z_scope.
Open Scope list_scope.

Set Implicit Arguments.

(** ** Python values *)

(** [ipaddress.IPv4Network] / [IPv6Network]: the three attributes the code and
    the comparison operators of the [ipaddress] module read. *)
Record network := mk_network {
  version : Z;
  network_address : Z;
  netmask : Z
}.

#[warnings="-register-all"]
Inductive value :=
| VNone
| VBool (b : bool)
| VInt (z : Z)
| VStr (s : string)
| VNet (n : network)
| VList (l : list value)
| VDict (d : list (string * value)).

(** A [dict] with string keys, in insertion order. *)
Definition dict := list (string * value).

Inductive exn :=
| CliWarning (msg : string)
| HostNotFoundWarning (msg : string)
| ValueError (msg : string)
| IndexError
| KeyError (key : string)
| TypeError
| AssertionError (msg : string)
| EOFError
| UnboundLocalError (var : string)
| TransportError (msg : string)
| InvalidArgument
| NotUndoable
| NotRedoable
| AlreadyApplied
| UpstreamFailure (cause : exn).

Inductive result (A : Type) :=
| Ok (a : A)
| Err (e : exn).
Arguments Ok {A} a.
Arguments Err {A} e.

(** ["...{}...".format(...)] with the pieces already converted to strings. *)
Definition format (parts : list string) : string := String.concat "" parts.

(** The double-quote character, for messages that quote a value. *)
Definition dquote : string := String (ascii_of_nat 34) EmptyString.

Definition str_of_int (z : Z) : string := NilZero.string_of_int (Z.to_int z).

(** ** Dictionaries and the dynamic operations the handlers use *)

Fixpoint dict_find (d : dict) (k : string) : option value :=
  match d with
  | [] => None
  | (k', v) :: d' => if String.eqb k' k then Some v else dict_find d' k
  end.

(** [d[k]] *)
Definition dict_get (d : dict) (k : string) : result value :=
  match dict_find d k with
  | Some v => Ok v
  | None => Err (KeyError k)
  end.

(** [d[k] = v]: an existing key keeps its position, a new key goes last. *)
Fixpoint dict_set (d : dict) (k : string) (v : value) : dict :=
  match d with
  | [] => [(k, v)]
  | (k', v') :: d' =>
      if String.eqb k' k then (k', v) :: d' else (k', v') :: dict_set d' k v
  end.

Definition keys (d : dict) : list string := map fst d.

(** [x[k]] for a string [k] on an arbitrary value. *)
Definition py_getitem (x : value) (k : string) : result value :=
  match x with
  | VDict d => dict_get d k
  | _ => Err TypeError
  end.

(** [x[0]] *)
Definition py_first (x : value) : result value :=
  match x with
  | VList (v :: _) => Ok v
  | VList [] => Err IndexError
  | VStr (String c _) => Ok (VStr (String c EmptyString))
  | VStr EmptyString => Err IndexError
  | VDict _ => Err (KeyError "0")
  | _ => Err TypeError
  end.

(** [len(x)] *)
Definition py_len (x : value) : result Z :=
  match x with
  | VList l => Ok (Z.of_nat (List.length l))
  | VStr s => Ok (Z.of_nat (String.length s))
  | VDict d => Ok (Z.of_nat (List.length d))
  | _ => Err TypeError
  end.

(** Truth value of [x], as [if x], [x or y] and [not x] take it. *)
Definition truthy (x : value) : bool :=
  match x with
  | VNone => false
  | VBool b => b
  | VInt z => negb (z =? 0)
  | VStr s => negb (String.eqb s "")
  | VNet _ => true
  | VList l => match l with [] => false | _ => true end
  | VDict d => match d with [] => false | _ => true end
  end.

(** [x or y] *)
Definition py_or (x y : value) : value := if truthy x then x else y.

Fixpoint chars (s : string) : list value :=
  match s with
  | EmptyString => []
  | String c s' => VStr (String c EmptyString) :: chars s'
  end.

(** The items a [for] loop over [x] visits. *)
Definition py_iter (x : value) : result (list value) :=
  match x with
  | VList l => Ok l
  | VStr s => Ok (chars s)
  | VDict d => Ok (map (fun kv => VStr (fst kv)) d)
  | _ => Err TypeError
  end.

(** [x == s] for a string [s]. *)
Definition eq_str (x : value) (s : string) : bool :=
  match x with
  | VStr s' => String.eqb s' s
  | _ => false
  end.

(** [s in args] *)
Definition member (s : string) (args : list string) : bool :=
  existsb (String.eqb s) args.

(** [args.index(s)] *)
Fixpoint index_of (s : string) (args : list string) : option nat :=
  match args with
  | [] => None
  | a :: args' =>
      if String.eqb a s then Some O
      else match index_of s args' with Some i => Some (S i) | None => None end
  end.

(** [args[i]] *)
Definition arg (args : list string) (i : nat) : result string :=
  match nth_error args i with
  | Some a => Ok a
  | None => Err IndexError
  end.

Fixpoint has_newline (s : string) : bool :=
  match s with
  | EmptyString => false
  | String c s' => Ascii.eqb c "010"%char || has_newline s'
  end.

Fixpoint ends_with (suffix s : string) : bool :=
  String.eqb s suffix ||
  match s with
  | EmptyString => false
  | String _ s' => ends_with suffix s'
  end.

Definition strip_last_newline (s : string) : string :=
  if ends_with (String "010"%char EmptyString) s
  then String.substring 0 (String.length s - 1) s
  else s.

(** [re.match(r"^.*([.:]0|::)/$", s)], as a truth value: no newline before the
    suffix, and [$] also matches in front of one final newline. *)
Definition looks_like_subnet (s : string) : bool :=
  let s' := strip_last_newline s in
  negb (has_newline s') &&
  (ends_with ".0/" s' || ends_with ":0/" s' || ends_with "::/" s').

(** ** What a handler does that is visible from outside *)

Inductive http_method := GET | POST | PATCH | DELETE.

(** A call of the history object as the handler writes it: a keyword argument
    that the call leaves out is [None]. *)
Inductive history_call :=
| call_record_get (url : string) (surplus : list value)
| call_record_post (url resource_name : string) (new_data : dict)
    (undoable redoable : option bool)
| call_record_patch (url : string) (new_data old_data : dict)
    (undoable redoable : option bool)
| call_record_delete (url : string) (old_data : dict)
    (undoable redoable : option bool).

Inductive event :=
| Recorded (c : history_call)
| Http (m : http_method) (url : string) (payload : dict)
| Warned (msg : string) (print_msg : bool)
| Informed (msg : string) (print_msg : bool)
| Printed (fn : string) (args : list value)
| Prompted (prompt : string).

Definition trace := list event.

(** Modelled from the spec: the HistoryEntry of section 3 (history.py is not
    among the sources). *)
Record HistoryEntry := mk_entry {
  seqno : Z;
  method : http_method;
  url : string;
  resource_name : string;
  old_data : dict;
  new_data : dict;
  undoable : bool;
  redoable : bool;
  undone : bool
}.

(** ** The monad of handlers *)

Record state := mk_state {
  stdin : list string;          (* lines not yet read by [input] *)
  hist : list HistoryEntry;     (* the history object's log *)
  events : trace                (* what has happened so far *)
}.

Definition M (A : Type) : Type := state -> result A * state.

Definition ret {A} (a : A) : M A := fun st => (Ok a, st).

Definition raise {A} (e : exn) : M A := fun st => (Err e, st).

Definition bind {A B} (m : M A) (k : A -> M B) : M B :=
  fun st =>
    match m st with
    | (Ok a, st') => k a st'
    | (Err e, st') => (Err e, st')
    end.

Notation "x <- m ;; k" := (bind m (fun x => k))
  (at level 61, m at next level, right associativity).
Notation "m ;;; k" := (bind m (fun _ => k))
  (at level 61, right associativity).

(** The body of a [try]: its outcome as a value, its effects kept. *)
Definition attempt {A} (m : M A) : M (result A) :=
  fun st => let (r, st') := m st in (Ok r, st').

Definition lift {A} (r : result A) : M A := fun st => (r, st).

Definition emit (e : event) : M unit :=
  fun st => (Ok tt, mk_state (stdin st) (hist st) (events st ++ [e])).

(** A question to a collaborator, whose answer may depend on all that has
    happened so far. *)
Definition ask {A} (f : trace -> result A) : M A :=
  fun st => (f (events st), st).

Definition get_hist : M (list HistoryEntry) := fun st => (Ok (hist st), st).

Definition set_hist (h : list HistoryEntry) : M unit :=
  fun st => (Ok tt, mk_state (stdin st) h (events st)).

(** [input(prompt)] *)
Definition input (prompt : string) : M string :=
  emit (Prompted prompt) ;;;
  fun st =>
    match stdin st with
    | [] => (Err EOFError, st)
    | line :: rest => (Ok line, mk_state rest (hist st) (events st))
    end.

Definition pass : M unit := ret tt.

(** [for x in l: body x] *)
Fixpoint for_each {A} (l : list A) (body : A -> M unit) : M unit :=
  match l with
  | [] => ret tt
  | x :: l' => body x ;;; for_each l' body
  end.

(** The events of a run, from its first state on. *)
Definition emitted {A} (m : M A) (st : state) : trace :=
  skipn (List.length (events st)) (events (snd (m st))).

Definition outcome {A} (m : M A) (st : state) : result A := fst (m st).

(** ** Collaborators

    The modules [util], [config], [log] and the Python library are not part of
    the sources; the handlers are verified for every behaviour of theirs. *)
Class world := {
  (* config *)
  server_ip : string;
  server_port : string;
  (* log.cli_warning: raises CliWarning after reporting, or returns *)
  warning_raises : bool;
  (* history.record_get: accepts more positional arguments than the URL *)
  surplus_accepted : bool;
  (* Python *)
  py_int : string -> option Z;
  repr : value -> string;
  urlencode : list (string * value) -> string;
  ip_network : value -> result network;
  format_left : value -> Z -> result string;
  eq_other : value -> value -> bool;
  lt_other : value -> value -> result bool;
  (* util: requests to the server *)
  http : trace -> http_method -> string -> dict -> result value;
  get_list : trace -> string -> result (list value);
  host_info_by_name : trace -> string -> bool -> result dict;
  host_info_by_name_or_ip : trace -> string -> result dict;
  aliases_of_host : trace -> value -> result (list string);
  resolve_input_name : trace -> string -> result string;
  hinfo_list : trace -> result (list value);
  hinfo_id_to_strings : trace -> value -> result value;
  choose_ip_from_subnet : trace -> string -> result string;
  (* util: syntax checks *)
  is_valid_subnet : string -> bool;
  is_valid_email : string -> bool;
  is_valid_ipv4 : string -> bool;
  is_valid_ipv6 : string -> bool;
  is_valid_ttl : string -> bool;
  is_valid_loc : string -> bool;
  is_valid_network : value -> bool;
  is_longform : string -> bool;
  to_longform : string -> bool -> string
}.

(** ** Calls shared by the handlers *)

Section Calls.
Context {w : world}.

(** [str(x)], also what ["{}".format(x)] puts in. *)
Definition py_str (x : value) : string :=
  match x with
  | VNone => "None"
  | VBool true => "True"
  | VBool false => "False"
  | VInt z => str_of_int z
  | VStr s => s
  | _ => repr x
  end.

(** [int(s)] *)
Definition int (s : string) : M Z :=
  match py_int s with
  | Some z => ret z
  | None =>
      raise (ValueError
        (format ["invalid literal for int() with base 10: "; repr (VStr s)]))
  end.

(** [log.cli_warning]: log.py is not among the sources; the warning is
    reported, and then the call raises CliWarning or returns, as the world
    has it. *)
Definition cli_warning (msg : string) (print_msg : bool) : M unit :=
  emit (Warned msg print_msg) ;;;
  if warning_raises then raise (CliWarning msg) else ret tt.

Definition cli_info (msg : string) (print_msg : bool) : M unit :=
  emit (Informed msg print_msg).

Definition request (m : http_method) (url : string) (payload : dict)
  : M value :=
  emit (Http m url payload) ;;;
  ask (fun tr => http tr m url payload).

Definition get (url : string) : M value := request GET url [].
Definition post (url : string) (data : dict) : M unit :=
  request POST url data ;;; ret tt.
Definition patch (url : string) (data : dict) : M unit :=
  request PATCH url data ;;; ret tt.
Definition delete (url : string) : M unit :=
  request DELETE url [] ;;; ret tt.

(** The [print_*] helpers of [util] and the built-in [print]. *)
Definition print (fn : string) (args : list value) : M unit :=
  emit (Printed fn args).

(** ["http://{}:{}<path>".format(conf["server_ip"], conf["server_port"], ...)] *)
Definition server_url (path : list string) : string :=
  format ("http://" :: server_ip :: ":" :: server_port :: path).

End Calls.

(** ** The history object *)

Module history.
Section History.
Context {w : world}.

Definition default (d : bool) (o : option bool) : bool :=
  match o with
  | Some b => b
  | None => d
  end.

(** Modelled from the spec: the entry that [record_get(url)],
    [record_post(url, resource_name, new_data, undoable=true, redoable=true)],
    [record_patch(url, new_data, old_data, undoable=true, redoable=true)] and
    [record_delete(url, old_data, undoable=true, redoable=false)] of history.py
    append (section 4.1); history.py is not among the sources. *)
Definition entry_of_call (n : Z) (c : history_call) : HistoryEntry :=
  match c with
  | call_record_get u _ =>
      mk_entry n GET u "" [] [] false false false
  | call_record_post u name nd un re =>
      mk_entry n POST u name [] nd (default true un) (default true re) false
  | call_record_patch u nd od un re =>
      mk_entry n PATCH u "" od nd (default true un) (default true re) false
  | call_record_delete u od un re =>
      mk_entry n DELETE u "" od [] (default true un) (default false re) false
  end.

(** Modelled from the spec: sequence numbers of history.py are 1-based and
    dense (section 3). *)
Definition next_seqno (h : list HistoryEntry) : Z :=
  Z.of_nat (List.length h) + 1.

(** Modelled from the spec: [record_get(url)] of history.py has the URL as
    its only parameter (section 4.1); whether history.py takes further
    positional arguments or refuses them with a TypeError is left to the
    world. *)
Definition accepted (c : history_call) : bool :=
  match c with
  | call_record_get _ (_ :: _) => surplus_accepted
  | _ => true
  end.

(** Modelled from the spec: the [record_*] operations of history.py append one
    entry to the log (section 4.1). *)
Definition record (c : history_call) : M unit :=
  emit (Recorded c) ;;;
  if accepted c then
    h <- get_hist ;;
    set_hist (h ++ [entry_of_call (next_seqno h) c])
  else raise TypeError.

(** Modelled from the spec: the four operations of history.py that the
    handlers call (section 4.1), with the keyword arguments as written at the
    call. *)
Definition record_get (url : string) (surplus : list value) : M unit :=
  record (call_record_get url surplus).

Definition record_post (url resource_name : string) (new_data : dict)
  (undoable redoable : option bool) : M unit :=
  record (call_record_post url resource_name new_data undoable redoable).

Definition record_patch (url : string) (new_data old_data : dict)
  (undoable redoable : option bool) : M unit :=
  record (call_record_patch url new_data old_data undoable redoable).

Definition record_delete (url : string) (old_data : dict)
  (undoable redoable : option bool) : M unit :=
  record (call_record_delete url old_data undoable redoable).

(** Modelled from the spec: the entry of a sequence number, and the change
    of its [undone] flag, the only change [undo] and [redo] of history.py make
    to the log (section 3). *)
Definition lookup (n : Z) (h : list HistoryEntry) : option HistoryEntry :=
  find (fun e => seqno e =? n) h.

Definition with_undone (b : bool) (e : HistoryEntry) : HistoryEntry :=
  mk_entry (seqno e) (method e) (url e) (resource_name e) (old_data e)
    (new_data e) (undoable e) (redoable e) b.

Definition set_undone (n : Z) (b : bool) (h : list HistoryEntry)
  : list HistoryEntry :=
  map (fun e => if seqno e =? n then with_undone b e else e) h.

(** Modelled from the spec: the compensating call of history.py's [undo]:
    DELETE for a recorded POST, PATCH with the old data for a recorded PATCH,
    POST with the old data for a recorded DELETE (section 4.1). *)
Definition compensating (e : HistoryEntry)
  : option (http_method * string * dict) :=
  match method e with
  | POST => Some (DELETE, url e, [])
  | PATCH => Some (PATCH, url e, old_data e)
  | DELETE => Some (POST, url e, old_data e)
  | GET => None
  end.

(** Modelled from the spec: the call history.py's [redo] issues again: POST
    with the new data, PATCH with the new data, DELETE (section 4.1). *)
Definition replayed (e : HistoryEntry)
  : option (http_method * string * dict) :=
  match method e with
  | POST => Some (POST, url e, new_data e)
  | PATCH => Some (PATCH, url e, new_data e)
  | DELETE => Some (DELETE, url e, [])
  | GET => None
  end.

(** Modelled from the spec: [undo(sequence_number)] of history.py (sections
    4.1 and 7): InvalidArgument for an unknown number, NotUndoable for an entry
    that is not undoable or already undone, then the compensating call, and
    [undone] set only when that call succeeds. *)
Definition undo (n : Z) : M unit :=
  h <- get_hist ;;
  match lookup n h with
  | None => raise InvalidArgument
  | Some e =>
      if negb (undoable e) || undone e then raise NotUndoable
      else
        match compensating e with
        | None => raise NotUndoable
        | Some (m, u, payload) =>
            r <- attempt (request m u payload) ;;
            match r with
            | Ok _ => set_hist (set_undone n true h)
            | Err cause => raise (UpstreamFailure cause)
            end
        end
  end.

(** Modelled from the spec: [redo(sequence_number)] of history.py (sections
    4.1 and 7): InvalidArgument, NotRedoable, AlreadyApplied for an entry that
    is not undone, then the original call again, and [undone] cleared only when
    that call succeeds. *)
Definition redo (n : Z) : M unit :=
  h <- get_hist ;;
  match lookup n h with
  | None => raise InvalidArgument
  | Some e =>
      if negb (redoable e) then raise NotRedoable
      else if negb (undone e) then raise AlreadyApplied
      else
        match replayed e with
        | None => raise NotRedoable
        | Some (m, u, payload) =>
            r <- attempt (request m u payload) ;;
            match r with
            | Ok _ => set_hist (set_undone n false h)
            | Err cause => raise (UpstreamFailure cause)
            end
        end
  end.

Definition method_name (m : http_method) : string :=
  match m with
  | GET => "GET"
  | POST => "POST"
  | PATCH => "PATCH"
  | DELETE => "DELETE"
  end.

(** Modelled from the spec: [print()] of history.py renders the log in order:
    number, method, target, label and the three flags; no state changes
    (section 4.1). *)
Definition print_history : M unit :=
  h <- get_hist ;;
  for_each h (fun e =>
    print "history.print"
      [VInt (seqno e); VStr (method_name (method e)); VStr (url e);
       VStr (resource_name e); VBool (undone e); VBool (redoable e);
       VBool (undoable e)]).

End History.
End history.

(** ** Comparison and sorting *)

Section Sorting.
Context {w : world}.

(** [x == y]; strings are compared here, other values by the world. *)
Definition py_eq (x y : value) : bool :=
  match x, y with
  | VStr a, VStr b => String.eqb a b
  | _, _ => eq_other x y
  end.

(** [a < b] of [ipaddress._BaseNetwork]: TypeError across versions, then by
    network address, then by netmask. *)
Definition network_lt (a b : network) : result bool :=
  if negb (version a =? version b) then Err TypeError
  else if negb (network_address a =? network_address b)
  then Ok (network_address a <? network_address b)
  else if negb (netmask a =? netmask b)
  then Ok (netmask a <? netmask b)
  else Ok false.

(** [x < y]; networks, strings and integers are compared here, other values
    by the world. *)
Definition py_lt (x y : value) : result bool :=
  match x, y with
  | VNet a, VNet b => network_lt a b
  | VStr a, VStr b => Ok (String.ltb a b)
  | VInt a, VInt b => Ok (a <? b)
  | _, _ => lt_other x y
  end.

Definition all_ones (v : Z) : Z := if v =? 4 then 2 ^ 32 - 1 else 2 ^ 128 - 1.

Definition hostmask (n : network) : Z :=
  Z.lxor (netmask n) (all_ones (version n)).

Definition broadcast_address (n : network) : Z :=
  Z.lor (network_address n) (hostmask n).

(** [a.supernet_of(b)] of the [ipaddress] module. *)
Definition supernet_of (a b : network) : result bool :=
  if version a =? version b
  then Ok ((network_address a <=? network_address b)
           && (broadcast_address a >=? broadcast_address b))
  else Err TypeError.

(** An element with the key it is sorted by. *)
Definition keyed : Type := value * value.

(** The place of [x] in a sorted list: in front of the first element that it
    is less than, so behind every element it is equal to. *)
Fixpoint insert_sorted (x : keyed) (l : list keyed) : result (list keyed) :=
  match l with
  | [] => Ok [x]
  | y :: l' =>
      match py_lt (fst x) (fst y) with
      | Err e => Err e
      | Ok true => Ok (x :: y :: l')
      | Ok false =>
          match insert_sorted x l' with
          | Err e => Err e
          | Ok r => Ok (y :: r)
          end
      end
  end.

Fixpoint sort_keyed (l sorted : list keyed) : result (list keyed) :=
  match l with
  | [] => Ok sorted
  | x :: l' =>
      match insert_sorted x sorted with
      | Err e => Err e
      | Ok sorted' => sort_keyed l' sorted'
      end
  end.

Fixpoint with_keys (key : value -> result value) (l : list value)
  : result (list keyed) :=
  match l with
  | [] => Ok []
  | x :: l' =>
      match key x with
      | Err e => Err e
      | Ok k =>
          match with_keys key l' with
          | Err e => Err e
          | Ok r => Ok ((k, x) :: r)
          end
      end
  end.

(** [l.sort(key=key)] and [sorted(l, key=key)]: the keys are computed first,
    the sort is stable and compares keys with [<] only. *)
Definition py_sorted (key : value -> result value) (l : list value)
  : result (list value) :=
  match with_keys key l with
  | Err e => Err e
  | Ok decorated =>
      match sort_keyed decorated [] with
      | Err e => Err e
      | Ok sorted => Ok (map snd sorted)
      end
  end.

(** [operator.itemgetter(k)] *)
Definition itemgetter (k : string) (x : value) : result value :=
  py_getitem x k.

(** [x[k] = v] *)
Definition py_setitem (x : value) (k : string) (v : value) : result value :=
  match x with
  | VDict d => Ok (VDict (dict_set d k v))
  | _ => Err TypeError
  end.

End Sorting.

(** ** commands.py

    A key of an unchanged dict that the source reads more than once is bound
    at its first read. *)

(** [input(prompt) if len(args) < i + 1 else args[i]] *)
Definition arg_or_input (args : list string) (i : nat) (prompt : string)
  : M string :=
  match nth_error args i with
  | Some a => ret a
  | None => input prompt
  end.

(** [len(args)] *)
Definition len (args : list string) : Z := Z.of_nat (List.length args).

(** [" ".join(args[1:])] *)
Definition join_rest (args : list string) : string :=
  String.concat " " (skipn 1 args).

Definition when (b : bool) (m : M unit) : M unit := if b then m else pass.

(** [while hinfo == "?": print_hinfo_list(hi_list); hinfo = input(prompt)];
    [pending] is the standard input left, one line of it is read per turn. *)
Fixpoint help_loop (prompt : string) (hi_list : list value) (hinfo : string)
  (pending : list string) : M string :=
  if String.eqb hinfo "?" then
    emit (Printed "print_hinfo_list" [VList hi_list]) ;;;
    line <- input prompt ;;
    match pending with
    | [] => ret line
    | _ :: rest => help_loop prompt hi_list line rest
    end
  else ret hinfo.

Definition while_help (prompt : string) (hi_list : list value)
  (hinfo : string) : M string :=
  fun st => help_loop prompt hi_list hinfo (stdin st) st.

(** [found = False; for rec in recs: if rec["ipaddress"] == ip: found = True; break] *)
Fixpoint owns (recs : list value) (ip : string) : result bool :=
  match recs with
  | [] => Ok false
  | rec :: rest =>
      match py_getitem rec "ipaddress" with
      | Err e => Err e
      | Ok v => if eq_str v ip then Ok true else owns rest ip
      end
  end.

(** [d[k1] or d[k2] or ...], as a truth value. *)
Fixpoint any_truthy (d : dict) (ks : list string) : result bool :=
  match ks with
  | [] => Ok false
  | k :: ks' =>
      match dict_get d k with
      | Err e => Err e
      | Ok v => if truthy v then Ok true else any_truthy d ks'
      end
  end.

Module History.
Section History.
Context {w : world}.

Definition opt_print (args : list string) : M unit :=
  history.print_history.

Definition opt_redo (args : list string) : M unit :=
  r <- attempt (a <- lift (arg args 0) ;; n <- int a ;; history.redo n) ;;
  match r with
  | Ok _ => ret tt
  | Err (ValueError e) => cli_warning (format ["invalid input: "; e]) false
  | Err e => raise e
  end.

Definition opt_undo (args : list string) : M unit :=
  r <- attempt (a <- lift (arg args 0) ;; n <- int a ;; history.undo n) ;;
  match r with
  | Ok _ => ret tt
  | Err (ValueError e) => cli_warning (format ["invalid input: "; e]) false
  | Err e => raise e
  end.

End History.
End History.

Module Host.
Section Host.
Context {w : world}.

(** [info[k]] *)
Definition item (info : dict) (k : string) : M value := lift (dict_get info k).

Definition opt_info (args : list string) : M unit :=
  name_or_ip <- arg_or_input args 0 "Enter name or ip> " ;;
  info <- ask (fun tr => host_info_by_name_or_ip tr name_or_ip) ;;
  name <- item info "name" ;;
  print "print_host_name" [name] ;;;
  contact <- item info "contact" ;;
  print "print_contact" [contact] ;;;
  comment <- item info "comment" ;;
  when (truthy comment) (print "print_comment" [comment]) ;;;
  ips <- item info "ipaddress" ;;
  print "print_ipaddresses" [ips] ;;;
  ttl <- item info "ttl" ;;
  print "print_ttl" [ttl] ;;;
  hinfo <- item info "hinfo" ;;
  when (truthy hinfo)
    (strings <- ask (fun tr => hinfo_id_to_strings tr hinfo) ;;
     print "print_hinfo" [strings]) ;;;
  loc <- item info "loc" ;;
  when (truthy loc) (print "print_loc" [loc]) ;;;
  aliases <- ask (fun tr => aliases_of_host tr name) ;;
  for_each aliases (fun cname => print "print_cname" [VStr cname; name]) ;;;
  txts <- item info "txt" ;;
  txts <- lift (py_iter txts) ;;
  for_each txts (fun txt =>
    t <- lift (py_getitem txt "txt") ;;
    print "print_txt" [t]) ;;;
  cli_info (format ["printed host info for "; py_str name]) false.

Definition opt_remove (args : list string) : M unit :=
  name_or_ip <- arg_or_input args 0 "Enter name or ip> " ;;
  info <- ask (fun tr => host_info_by_name_or_ip tr name_or_ip) ;;
  ips <- item info "ipaddress" ;;
  n <- lift (py_len ips) ;;
  when ((n >? 1) && negb (member "y" args))
    (cli_warning "{} has multiple ipaddresses, must force" false) ;;;
  (* Require force if host has any aliases *)
  name <- item info "name" ;;
  aliases <- ask (fun tr => aliases_of_host tr name) ;;
  when (negb (Z.of_nat (List.length aliases) =? 0))
    (if negb (member "y" args) then
       cli_warning
         (format [py_str name; " has ";
                  str_of_int (Z.of_nat (List.length aliases));
                  " aliases, must force"]) false
     else
       for_each aliases (fun alias =>
         let url := server_url ["/hosts/"; alias] in
         (* Cannot undo delete because of hosts CNAME record *)
         history.record_delete url [] (Some false) None ;;;
         delete url ;;;
         cli_info
           (format ["deleted alias host "; alias; " when removing ";
                    py_str name]) false)) ;;;
  (* To be able to undo the delete the ipaddress field of the 'old_data' has
     to be an ipaddress string *)
  info <- (if n >? 0 then
             first <- lift (py_first ips) ;;
             ip <- lift (py_getitem first "ipaddress") ;;
             ret (dict_set info "ipaddress" ip)
           else ret info) ;;
  (* Delete host *)
  let url := server_url ["/hosts/"; py_str name] in
  history.record_delete url info None None ;;;
  delete url ;;;
  cli_info (format ["removed "; py_str name]) true.

(** The five values [opt_add] collects from its arguments or the prompts. *)
Record add_input := mk_add_input {
  add_name : string;
  add_ip_or_net : string;
  add_contact : string;
  add_hinfo : string;
  add_comment : string
}.

(** ["" if flag not in args else args[args.index(flag) + 1]] *)
Definition flag_value (flag : string) (args : list string) : M string :=
  match index_of flag args with
  | None => ret ""
  | Some i => lift (arg args (S i))
  end.

Definition opt_add (args : list string) : M unit :=
  hi_list <- ask hinfo_list ;;
  given <-
    (if len args <? 3 then
       name <- arg_or_input args 0 "Enter host name> " ;;
       ip_or_net <- arg_or_input args 1 "Enter subnet or ip> " ;;
       contact <- input "Enter contact> " ;;
       hinfo <- input "Enter hinfo (optional)> " ;;
       hinfo <- while_help "Enter hinfo (optional)> " hi_list hinfo ;;
       comment <- input "Enter comment (optional)> " ;;
       ret (mk_add_input name ip_or_net contact hinfo comment)
     else
       name <- lift (arg args 0) ;;
       ip_or_net <- lift (arg args 1) ;;
       contact <- lift (arg args 2) ;;
       hinfo <- flag_value "-hinfo" args ;;
       comment <- flag_value "-comment" args ;;
       ret (mk_add_input name ip_or_net contact hinfo comment)) ;;
  let name := add_name given in
  let ip_or_net := add_ip_or_net given in
  let contact := add_contact given in
  let comment := add_comment given in
  (* Verify hinfo id *)
  hinfo <-
    (if truthy (VStr (add_hinfo given)) then
       hinfo <- int (add_hinfo given) ;;
       when (negb ((0 <? hinfo) && (hinfo <=? Z.of_nat (List.length hi_list))))
         (cli_warning
            (format ["invalid hinfo ("; str_of_int hinfo;
                     ") when trying to add "; name]) false) ;;;
       ret (VInt hinfo)
     else ret (VStr (add_hinfo given))) ;;
  (* Handle arbitrary ip from subnet if received a subnet *)
  ip <-
    (if looks_like_subnet ip_or_net || is_valid_subnet ip_or_net then
       ask (fun tr => choose_ip_from_subnet tr ip_or_net)
     else ret ip_or_net) ;;
  (* Contact sanity check *)
  when (negb (is_valid_email contact))
    (cli_warning
       (format ["invalid mail address ("; contact; ") when trying to add ";
                name]) false) ;;;
  (* Check if given host exists on either short or long form *)
  r <- attempt (ask (fun tr => resolve_input_name tr name)) ;;
  name <-
    match r with
    | Err (HostNotFoundWarning _) => ret name
    | Err e => raise e
    | Ok name =>
        (if negb (member "y" args) then
           cli_warning
             (format ["host "; name; " already exists, must force"]) false
         else
           let url := server_url ["/hosts/"; name] in
           history.record_delete url [] (Some false) None ;;;
           delete url ;;;
           cli_info (format ["deleted existing host "; name]) false) ;;;
        ret name
    end ;;
  (* Always use long form host name *)
  let name := if is_longform name then name else to_longform name false in
  (* Create the new host with an ip address *)
  let url := server_url ["/hosts/"] in
  let data := [("name", VStr name);
               ("ipaddress", VStr ip);
               ("contact", VStr contact);
               ("hinfo", py_or hinfo VNone);
               ("comment", py_or (VStr comment) VNone)] in
  history.record_post url name data None None ;;;
  post url data ;;;
  cli_info (format ["created host "; name]) true.

Definition opt_set_contact (args : list string) : M unit :=
  given <-
    (if len args <? 2 then
       name <- arg_or_input args 0 "Enter host name> " ;;
       contact <- input "Enter contact> " ;;
       ret (name, contact)
     else
       name <- lift (arg args 0) ;;
       contact <- lift (arg args 1) ;;
       ret (name, contact)) ;;
  let '(name, contact) := given in
  (* Contact sanity check *)
  when (negb (is_valid_email contact))
    (cli_warning
       (format ["invalid mail address "; contact; " (target host: "; name;
                ")"]) false) ;;;
  (* Get host info for <name> or its cname *)
  info <- ask (fun tr => host_info_by_name tr name true) ;;
  old_contact <- item info "contact" ;;
  let old_data := [("contact", old_contact)] in
  let new_data := [("contact", VStr contact)] in
  (* Update contact information *)
  host <- item info "name" ;;
  let url := server_url ["/hosts/"; py_str host] in
  history.record_patch url new_data old_data None None ;;;
  patch url [("contact", VStr contact)] ;;;
  cli_info
    (format ["Updated contact of "; py_str host; " to "; contact]) true.

Definition opt_set_comment (args : list string) : M unit :=
  given <-
    (if len args <? 2 then
       name <- arg_or_input args 0 "Enter host name> " ;;
       comment <- input "Enter comment> " ;;
       ret (name, comment)
     else
       name <- lift (arg args 0) ;;
       ret (name, join_rest args)) ;;
  let '(name, comment) := given in
  (* Get host info for <name> or its cname *)
  info <- ask (fun tr => host_info_by_name tr name true) ;;
  old_comment <- item info "comment" ;;
  let old_data := [("comment", py_or old_comment (VStr ""))] in
  let new_data := [("comment", VStr comment)] in
  (* Update comment *)
  host <- item info "name" ;;
  let url := server_url ["/hosts/"; py_str host] in
  history.record_patch url new_data old_data None None ;;;
  patch url [("comment", VStr comment)] ;;;
  cli_info
    (format ["updated comment of "; py_str host; " to "; dquote; comment;
             dquote]) true.

Definition opt_rename (args : list string) : M unit :=
  given <-
    (if len args <? 2 then
       old_name <- arg_or_input args 0 "Enter old name> " ;;
       new_name <- input "Enter new name> " ;;
       ret (old_name, new_name)
     else
       old_name <- lift (arg args 0) ;;
       new_name <- lift (arg args 1) ;;
       ret (old_name, new_name)) ;;
  let '(old_name, new_name) := given in
  old_name <- ask (fun tr => resolve_input_name tr old_name) ;;
  (* Require force if the new name is already in use *)
  r <- attempt (ask (fun tr => host_info_by_name tr new_name false)) ;;
  match r with
  | Err (HostNotFoundWarning _) => pass
  | Err e => raise e
  | Ok info =>
      existing <- item info "name" ;;
      when (negb (member "y" args))
        (cli_warning
           (format ["host "; py_str existing; " already exists, must force"])
           false) ;;;
      aliases <- ask (fun tr => aliases_of_host tr existing) ;;
      for_each aliases (fun alias =>
        let url := server_url ["/hosts/"; alias] in
        history.record_delete url [] (Some false) None ;;;
        delete url ;;;
        cli_info
          (format ["deleted alias host "; alias; " when removing ";
                   py_str existing; " before renaming "; old_name]) false) ;;;
      let url := server_url ["/hosts/"; py_str existing] in
      history.record_delete url [] (Some false) None ;;;
      delete url ;;;
      cli_info (format ["deleted existing host "; new_name]) false
  end ;;;
  (* Always use long form host name *)
  let new_name :=
    if is_longform new_name then new_name else to_longform new_name false in
  let old_data := [("name", VStr old_name)] in
  let new_data := [("name", VStr new_name)] in
  (* Rename host *)
  let url := server_url ["/hosts/"; old_name] in
  (* Cannot redo/undo now since it changes name *)
  history.record_patch url new_data old_data (Some false) (Some false) ;;;
  patch url [("name", VStr new_name)] ;;;
  cli_info (format ["renamed "; old_name; " to "; new_name]) true ;;;
  let url := server_url ["/cnames/?cname="; old_name] in
  history.record_get url [] ;;;
  cnames <- get url ;;
  cnames <- lift (py_iter cnames) ;;
  for_each cnames (fun cname =>
    id <- lift (py_getitem cname "id") ;;
    let url := server_url ["/cnames/"; py_str id] in
    let old_data := [("cname", VStr old_name)] in
    let new_data := [("cname", VStr new_name)] in
    history.record_patch url new_data old_data None None ;;;
    patch url [("cname", VStr new_name)]).

(** A local variable that some branch leaves unassigned. *)
Definition bound (var : string) (x : option string) : M string :=
  match x with
  | Some v => ret v
  | None => raise (UnboundLocalError var)
  end.

Definition opt_a_add (args : list string) : M unit :=
  given <-
    (if len args <? 2 then
       name <- arg_or_input args 0 "Enter host name> " ;;
       ip_or_subnet <- input "Enter ip/subnet> " ;;
       ret (name, ip_or_subnet)
     else
       name <- lift (arg args 0) ;;
       ip_or_subnet <- lift (arg args 1) ;;
       ret (name, ip_or_subnet)) ;;
  let '(name, ip_or_subnet) := given in
  (* Get host info for <name> or its cname *)
  info <- ask (fun tr => host_info_by_name tr name true) ;;
  (* Verify ip or get ip from subnet *)
  ip <-
    (if is_valid_ipv4 ip_or_subnet then ret (Some ip_or_subnet)
     else if is_valid_subnet ip_or_subnet then
       cli_warning "subnets not implemented" false ;;;
       ip <- ask (fun tr => choose_ip_from_subnet tr ip_or_subnet) ;;
       ret (Some ip)
     else
       host <- item info "name" ;;
       cli_warning
         (format ["invalid ipv4 nor subnet: "; dquote; ip_or_subnet; dquote;
                  " (target host: "; py_str host; ")"]) false ;;;
       ret None) ;;
  hostid <- item info "hostid" ;;
  ip <- bound "ip" ip ;;
  let data := [("hostid", hostid); ("ipaddress", VStr ip)] in
  (* Add A record *)
  let url := server_url ["/ipaddresses/"] in
  history.record_post url ip data None None ;;;
  post url data ;;;
  host <- item info "name" ;;
  cli_info (format ["added ip "; ip; " to "; py_str host]) true.

Definition opt_a_remove (args : list string) : M unit :=
  given <-
    (if len args <? 2 then
       name <- arg_or_input args 0 "Enter host name> " ;;
       ip <- input "Enter ip> " ;;
       ret (name, ip)
     else
       name <- lift (arg args 0) ;;
       ip <- lift (arg args 1) ;;
       ret (name, ip)) ;;
  let '(name, ip) := given in
  (* Ip sanity check *)
  when (negb (is_valid_ipv4 ip))
    (cli_warning (format ["not a valid ipv4: "; dquote; ip; dquote]) false) ;;;
  (* Check that ip belongs to host *)
  info <- ask (fun tr => host_info_by_name tr name true) ;;
  ips <- item info "ipaddress" ;;
  recs <- lift (py_iter ips) ;;
  found <- lift (owns recs ip) ;;
  when (negb found)
    (host <- item info "name" ;;
     cli_warning (format [ip; " is not owned by "; py_str host]) false) ;;;
  hostid <- item info "hostid" ;;
  let old_data := [("hostid", hostid); ("ipaddress", VStr ip)] in
  (* Remove ip *)
  let url := server_url ["/ipaddresses/"; ip] in
  history.record_delete url old_data None None ;;;
  delete url ;;;
  host <- item info "name" ;;
  cli_info (format ["removed ip "; ip; " from "; py_str host]) true.

Definition opt_a_change (args : list string) : M unit :=
  given <-
    (if len args <? 3 then
       name <- arg_or_input args 0 "Enter host name> " ;;
       old_ip <- arg_or_input args 1 "Enter old ip> " ;;
       ip_or_subnet <- input "Enter new ip/subnet> " ;;
       ret (name, old_ip, ip_or_subnet)
     else
       name <- lift (arg args 0) ;;
       old_ip <- lift (arg args 1) ;;
       ip_or_subnet <- lift (arg args 2) ;;
       ret (name, old_ip, ip_or_subnet)) ;;
  let '(name, old_ip, ip_or_subnet) := given in
  (* Ip and subnet sanity checks *)
  (if negb (is_valid_ipv4 old_ip) then
     cli_warning
       (format ["invalid ipv4 "; dquote; old_ip; dquote; " (target host ";
                name; ")"]) false
   else if negb (is_valid_ipv4 ip_or_subnet)
           && negb (is_valid_subnet ip_or_subnet) then
     cli_warning
       (format ["invalid ipv4 nor subnet "; dquote; ip_or_subnet; dquote;
                " (target host "; name; ")"]) false
   else pass) ;;;
  (* Check that ip belongs to host *)
  info <- ask (fun tr => host_info_by_name tr name true) ;;
  ips <- item info "ipaddress" ;;
  recs <- lift (py_iter ips) ;;
  found <- lift (owns recs old_ip) ;;
  when (negb found)
    (host <- item info "name" ;;
     cli_warning (format [old_ip; " is not owned by "; py_str host]) false) ;;;
  (* Handle arbitrary ip from subnet if received a subnet *)
  ip <-
    (if is_valid_ipv4 ip_or_subnet then ret ip_or_subnet
     else
       cli_warning "subnets not implemented" false ;;;
       ask (fun tr => choose_ip_from_subnet tr ip_or_subnet)) ;;
  let old_data := [("ipaddress", VStr old_ip)] in
  let new_data := [("ipaddress", VStr ip)] in
  (* Update A record ip address *)
  let url := server_url ["/ipaddresses/"; old_ip] in
  (* Cannot redo/undo since resource name changes *)
  history.record_patch url new_data old_data (Some false) (Some false) ;;;
  patch url [("ipaddress", VStr ip)] ;;;
  host <- item info "name" ;;
  cli_info
    (format ["updated ip "; old_ip; " to "; ip; " for "; py_str host]) true.

Definition opt_a_show (args : list string) : M unit :=
  name <- arg_or_input args 0 "Enter host name> " ;;
  info <- ask (fun tr => host_info_by_name tr name true) ;;
  ips <- item info "ipaddress" ;;
  print "print_ipaddresses" [ips] ;;;
  host <- item info "name" ;;
  cli_info (format ["showed ip addresses for "; py_str host]) false.

Definition opt_aaaa_add (args : list string) : M unit :=
  given <-
    (if len args <? 2 then
       name <- arg_or_input args 0 "Enter host name> " ;;
       ip <- input "Enter ipv6> " ;;
       ret (name, ip)
     else
       name <- lift (arg args 0) ;;
       ip <- lift (arg args 1) ;;
       ret (name, ip)) ;;
  let '(name, ip) := given in
  (* Verify host and get host id *)
  info <- ask (fun tr => host_info_by_name tr name true) ;;
  (* Verify ip or get ip from subnet *)
  when (negb (is_valid_ipv6 ip))
    (host <- item info "name" ;;
     cli_warning
       (format ["not a valid ipv6 "; dquote; ip; dquote; " (target host ";
                py_str host; ")"]) false) ;;;
  hostid <- item info "hostid" ;;
  let data := [("hostid", hostid); ("ipaddress", VStr ip)] in
  (* Create AAAA records *)
  let url := server_url ["/ipaddresses/"] in
  history.record_post url ip data None None ;;;
  post url data ;;;
  host <- item info "name" ;;
  cli_info (format ["added ip "; ip; " to "; py_str host]) true.

Definition opt_aaaa_remove (args : list string) : M unit :=
  given <-
    (if len args <? 2 then
       name <- arg_or_input args 0 "Enter host name> " ;;
       ip <- input "Enter ipv6> " ;;
       ret (name, ip)
     else
       name <- lift (arg args 0) ;;
       ip <- lift (arg args 1) ;;
       ret (name, ip)) ;;
  let '(name, ip) := given in
  info <- ask (fun tr => host_info_by_name tr name true) ;;
  (* Ipv6 sanity check *)
  when (negb (is_valid_ipv6 ip))
    (host <- item info "name" ;;
     cli_warning
       (format ["not a valid ipv6 "; dquote; ip; dquote; " (target host ";
                py_str host; ")"]) false) ;;;
  (* Check that ip belongs to host *)
  ips <- item info "ipaddress" ;;
  recs <- lift (py_iter ips) ;;
  found <- lift (owns recs ip) ;;
  when (negb found)
    (host <- item info "name" ;;
     cli_warning (format [ip; " is not owned by "; py_str host]) false) ;;;
  hostid <- item info "hostid" ;;
  let old_data := [("hostid", hostid); ("ipaddress", VStr ip)] in
  (* Delete AAAA record *)
  let url := server_url ["/ipaddresses/"; ip] in
  history.record_delete url old_data None None ;;;
  delete url ;;;
  host <- item info "name" ;;
  cli_info (format ["removed "; ip; " from "; py_str host]) true.

Definition opt_aaaa_change (args : list string) : M unit :=
  given <-
    (if len args <? 3 then
       name <- arg_or_input args 0 "Enter host name> " ;;
       old_ip <- arg_or_input args 1 "Enter old ipv6> " ;;
       new_ip <- input "Enter new ipv6> " ;;
       ret (name, old_ip, new_ip)
     else
       name <- lift (arg args 0) ;;
       old_ip <- lift (arg args 1) ;;
       new_ip <- lift (arg args 2) ;;
       ret (name, old_ip, new_ip)) ;;
  let '(name, old_ip, new_ip) := given in
  info <- ask (fun tr => host_info_by_name tr name true) ;;
  (* Ipv6 sanity checks *)
  (if negb (is_valid_ipv6 old_ip) then
     host <- item info "name" ;;
     cli_warning
       (format ["not a valid ipv6 "; dquote; old_ip; dquote; " (target host ";
                py_str host; ")"]) false
   else if negb (is_valid_ipv6 new_ip) then
     host <- item info "name" ;;
     cli_warning
       (format ["not a valid ipv6 "; dquote; new_ip; dquote; " (target host ";
                py_str host; ")"]) false
   else pass) ;;;
  (* Check that ip belongs to host *)
  ips <- item info "ipaddress" ;;
  recs <- lift (py_iter ips) ;;
  found <- lift (owns recs old_ip) ;;
  when (negb found)
    (host <- item info "name" ;;
     cli_warning
       (format [dquote; old_ip; dquote; " is not owned by "; py_str host])
       false) ;;;
  let old_data := [("ipaddress", VStr old_ip)] in
  let new_data := [("ipaddress", VStr new_ip)] in
  (* Update AAAA records ip address *)
  let url := server_url ["/ipaddresses/"; old_ip] in
  (* Cannot redo/undo since recourse name changes *)
  history.record_patch url new_data old_data (Some false) (Some false) ;;;
  patch url [("ipaddress", VStr new_ip)] ;;;
  host <- item info "name" ;;
  cli_info
    (format ["changed ip "; old_ip; " to "; new_ip; " for "; py_str host])
    true.

Definition opt_aaaa_show (args : list string) : M unit :=
  name <- arg_or_input args 0 "Enter host name> " ;;
  info <- ask (fun tr => host_info_by_name tr name true) ;;
  ips <- item info "ipaddress" ;;
  print "print_ipaddresses" [ips] ;;;
  host <- item info "name" ;;
  cli_info (format ["showed aaaa records for "; py_str host]) false.

Definition opt_ttl_set (args : list string) : M unit :=
  given <-
    (if len args <? 2 then
       name <- arg_or_input args 0 "Enter host name> " ;;
       ttl <- input "Enter ttl> " ;;
       ret (name, ttl)
     else
       name <- lift (arg args 0) ;;
       ttl <- lift (arg args 1) ;;
       ret (name, ttl)) ;;
  let '(name, ttl) := given in
  info <- ask (fun tr => host_info_by_name tr name true) ;;
  (* TTL sanity check *)
  when (negb (is_valid_ttl ttl))
    (host <- item info "name" ;;
     cli_warning
       (format ["invalid TTL value: "; ttl; " (target host "; py_str host;
                ")"]) false) ;;;
  old_ttl <- item info "ttl" ;;
  let old_data := [("ttl", py_or old_ttl (VInt (-1)))] in
  let new_data :=
    [("ttl", if negb (String.eqb ttl "default") then VStr ttl
             else VInt (-1))] in
  (* Update TTL *)
  host <- item info "name" ;;
  let url := server_url ["/hosts/"; py_str host] in
  history.record_patch url new_data old_data None None ;;;
  patch url new_data ;;;
  cli_info (format ["updated TTL for "; py_str host]) true.

Definition opt_ttl_remove (args : list string) : M unit :=
  name <- arg_or_input args 0 "Enter host name> " ;;
  info <- ask (fun tr => host_info_by_name tr name true) ;;
  old_ttl <- item info "ttl" ;;
  let old_data := [("ttl", old_ttl)] in
  let new_data := [("ttl", VInt (-1))] in
  (* Remove TTL value *)
  host <- item info "name" ;;
  let url := server_url ["/hosts/"; py_str host] in
  history.record_patch url new_data old_data None None ;;;
  patch url [("ttl", VInt (-1))] ;;;
  cli_info (format ["removed TTL for "; py_str host]) true.

Definition opt_ttl_show (args : list string) : M unit :=
  name <- arg_or_input args 0 "Enter host name> " ;;
  info <- ask (fun tr => host_info_by_name tr name true) ;;
  ttl <- item info "ttl" ;;
  print "print_ttl" [ttl] ;;;
  host <- item info "name" ;;
  cli_info (format ["showed TTL for "; py_str host]) false.

Definition opt_cname_add (args : list string) : M unit :=
  given <-
    (if len args <? 2 then
       name <- arg_or_input args 0 "Enter name> " ;;
       alias <- input "Enter alias> " ;;
       ret (name, alias)
     else
       name <- lift (arg args 0) ;;
       alias <- lift (arg args 1) ;;
       ret (name, alias)) ;;
  let '(name, alias) := given in
  host_info <- ask (fun tr => host_info_by_name tr name true) ;;
  (* If alias name already exists the host cannot have any records *)
  r <- attempt (ask (fun tr => host_info_by_name tr alias true)) ;;
  alias_info <-
    match r with
    | Err (HostNotFoundWarning _) => ret None
    | Err e => raise e
    | Ok alias_info =>
        has_records <-
          lift (any_truthy alias_info
                  ["hinfo"; "loc"; "cname"; "ipaddress"; "txt"]) ;;
        when has_records
          (existing <- item alias_info "name" ;;
           cli_warning
             (format ["host "; py_str existing;
                      " already exists and has record(s)"]) false) ;;;
        ret (Some alias_info)
    end ;;
  (* Create cname host if it doesn't exist *)
  alias_info <-
    match alias_info with
    | Some ((_ :: _) as alias_info) => ret alias_info
    | _ =>
        let alias := if is_longform alias then alias
                     else to_longform alias false in
        contact <- item host_info "contact" ;;
        let data := [("name", VStr alias); ("contact", contact)] in
        let url := server_url ["/hosts/"] in
        history.record_post url alias data None None ;;;
        post url data ;;;
        ask (fun tr => host_info_by_name tr alias true)
    end ;;
  (* Create CNAME record *)
  let url := server_url ["/cnames/"] in
  history.record_post url "" [] (Some false) (Some false) ;;;
  hostid <- item alias_info "hostid" ;;
  cname <- item host_info "name" ;;
  post url [("hostid", hostid); ("cname", cname)] ;;;
  alias_name <- item alias_info "name" ;;
  cli_info
    (format ["Added cname alias "; py_str alias_name; " for "; py_str cname])
    true.

Definition opt_cname_remove (args : list string) : M unit :=
  given <-
    (if len args <? 2 then
       name <- arg_or_input args 0 "Enter name> " ;;
       alias <- input "Enter alias> " ;;
       ret (name, alias)
     else
       name <- lift (arg args 0) ;;
       alias <- lift (arg args 1) ;;
       ret (name, alias)) ;;
  let '(name, alias) := given in
  host_name <- ask (fun tr => resolve_input_name tr name) ;;
  alias_info <- ask (fun tr => host_info_by_name tr alias false) ;;
  (* Check that cname host is an alias for host *)
  cnames <- item alias_info "cname" ;;
  n <- lift (py_len cnames) ;;
  when (n <? 1)
    (alias_name <- item alias_info "name" ;;
     cli_warning
       (format [dquote; py_str alias_name; dquote;
                " doesn't have any CNAME records."]) false) ;;;
  first <- lift (py_first cnames) ;;
  target <- lift (py_getitem first "cname") ;;
  when (negb (eq_str target host_name))
    (alias_name <- item alias_info "name" ;;
     cli_warning
       (format [dquote; py_str alias_name; dquote; " is not an alias for ";
                dquote; host_name; dquote]) false) ;;;
  (* Delete CNAME host *)
  alias_name <- item alias_info "name" ;;
  let url := server_url ["/hosts/"; py_str alias_name] in
  history.record_delete url [] (Some false) None ;;;
  delete url ;;;
  cli_info
    (format ["Removed cname alias "; py_str alias_name; " for "; host_name])
    true.

Definition opt_cname_show (args : list string) : M unit :=
  name <- arg_or_input args 0 "Enter name> " ;;
  (* Gets the host info of the named host or the cname host if name is an
     alias *)
  info <- ask (fun tr => host_info_by_name tr name true) ;;
  host <- item info "name" ;;
  aliases <- ask (fun tr => aliases_of_host tr host) ;;
  for_each aliases (fun alias => print "print_cname" [VStr alias; host]) ;;;
  cli_info (format ["showed cname aliases for "; py_str host]) false.

Definition opt_loc_set (args : list string) : M unit :=
  given <-
    (if len args <? 2 then
       name <- arg_or_input args 0 "Enter host name> " ;;
       loc <- input "Enter loc> " ;;
       ret (name, loc)
     else
       name <- lift (arg args 0) ;;
       ret (name, join_rest args)) ;;
  let '(name, loc) := given in
  info <- ask (fun tr => host_info_by_name tr name true) ;;
  (* LOC sanity check *)
  when (negb (is_valid_loc loc))
    (host <- item info "name" ;;
     cli_warning
       (format ["invalid LOC "; dquote; loc; dquote; " (target host ";
                py_str host; ")"]) false) ;;;
  old_loc <- item info "loc" ;;
  let old_data := [("loc", py_or old_loc (VStr ""))] in
  let new_data := [("loc", VStr loc)] in
  (* Update LOC *)
  host <- item info "name" ;;
  let url := server_url ["/hosts/"; py_str host] in
  history.record_patch url new_data old_data None None ;;;
  patch url [("loc", VStr loc)] ;;;
  cli_info (format ["updated LOC to "; loc; " for "; py_str host]) true.

Definition opt_loc_remove (args : list string) : M unit :=
  name <- arg_or_input args 0 "Enter host name> " ;;
  info <- ask (fun tr => host_info_by_name tr name true) ;;
  old_loc <- item info "loc" ;;
  let old_data := [("loc", old_loc)] in
  let new_data := [("loc", VStr "")] in
  host <- item info "name" ;;
  let url := server_url ["/hosts/"; py_str host] in
  history.record_patch url new_data old_data None None ;;;
  patch url [("loc", VStr "")] ;;;
  cli_info (format ["removed LOC for "; py_str host]) true.

Definition opt_loc_show (args : list string) : M unit :=
  name <- arg_or_input args 0 "Enter name> " ;;
  info <- ask (fun tr => host_info_by_name tr name true) ;;
  loc <- item info "loc" ;;
  print "print_loc" [loc] ;;;
  host <- item info "name" ;;
  cli_info (format ["showed LOC for "; py_str host]) false.

Definition opt_hinfo_set (args : list string) : M unit :=
  hi_list <- ask hinfo_list ;;
  given <-
    (if len args <? 2 then
       name <- arg_or_input args 0 "Enter host name> " ;;
       hinfo <- input "Enter hinfo> " ;;
       hinfo <- while_help "Enter hinfo> " hi_list hinfo ;;
       ret (name, hinfo)
     else
       name <- lift (arg args 0) ;;
       hinfo <- lift (arg args 1) ;;
       ret (name, hinfo)) ;;
  let '(name, hinfo) := given in
  (* Hinfo sanity check *)
  hinfo <- int hinfo ;;
  when (negb ((0 <? hinfo) && (hinfo <=? Z.of_nat (List.length hi_list))))
    (cli_warning "invalid hinfo." false) ;;;
  info <- ask (fun tr => host_info_by_name tr name true) ;;
  old_hinfo <- item info "hinfo" ;;
  let old_data := [("hinfo", py_or old_hinfo (VInt (-1)))] in
  let new_data := [("hinfo", VInt hinfo)] in
  (* Update hinfo *)
  host <- item info "name" ;;
  let url := server_url ["/hosts/"; py_str host] in
  history.record_patch url new_data old_data None None ;;;
  patch url [("hinfo", VInt hinfo)] ;;;
  cli_info
    (format ["updated hinfo to "; str_of_int hinfo; " for "; py_str host])
    true.

Definition opt_hinfo_remove (args : list string) : M unit :=
  name <- arg_or_input args 0 "Enter host name> " ;;
  info <- ask (fun tr => host_info_by_name tr name true) ;;
  old_hinfo <- item info "hinfo" ;;
  let old_data := [("hinfo", old_hinfo)] in
  let new_data := [("hinfo", VInt (-1))] in
  host <- item info "name" ;;
  let url := server_url ["/hosts/"; py_str host] in
  history.record_patch url new_data old_data None None ;;;
  patch url [("hinfo", VInt (-1))] ;;;
  cli_info (format ["removed hinfo for "; py_str host]) true.

Definition opt_hinfo_show (args : list string) : M unit :=
  name <- arg_or_input args 0 "Enter host name> " ;;
  info <- ask (fun tr => host_info_by_name tr name true) ;;
  hinfo <- item info "hinfo" ;;
  strings <- ask (fun tr => hinfo_id_to_strings tr hinfo) ;;
  print "print_hinfo" [strings] ;;;
  host <- item info "name" ;;
  cli_info (format ["showed hinfo for "; py_str host]) false.

Definition opt_srv_add (args : list string) : M unit :=
  given <-
    (if len args <? 5 then
       sname <- arg_or_input args 0 "Enter service name> " ;;
       pri <- arg_or_input args 1 "Enter priority> " ;;
       weight <- arg_or_input args 2 "Enter weight> " ;;
       port <- arg_or_input args 3 "Enter port> " ;;
       name <- input "Enter target name> " ;;
       ret (sname, pri, weight, port, name)
     else
       sname <- lift (arg args 0) ;;
       pri <- lift (arg args 1) ;;
       weight <- lift (arg args 2) ;;
       port <- lift (arg args 3) ;;
       name <- lift (arg args 4) ;;
       ret (sname, pri, weight, port, name)) ;;
  let '(sname, pri, weight, port, name) := given in
  r <- attempt (ask (fun tr => resolve_input_name tr name)) ;;
  host_name <-
    match r with
    | Ok host_name => ret host_name
    | Err (HostNotFoundWarning _) =>
        when (negb (member "y" args))
          (cli_warning "{} doesn't exist. Must force" false) ;;;
        ret name
    | Err e => raise e
    end ;;
  let sname := if is_longform sname then sname else to_longform sname true in
  let url := server_url ["/srvs/?service="; sname] in
  history.record_get url [] ;;;
  srvs <- get url ;;
  n <- lift (py_len srvs) ;;
  let entry_exists := n >? 0 in
  let data := [("service", VStr sname);
               ("priority", VStr pri);
               ("weight", VStr weight);
               ("port", VStr port);
               ("target", VStr host_name)] in
  let url := server_url ["/srvs/"] in
  history.record_post url "" data (Some false) None ;;;
  post url data ;;;
  if entry_exists then
    cli_info
      (format ["Added SRV record "; sname; " with target "; host_name;
               " to existing entry."]) true
  else
    cli_info
      (format ["Added SRV record "; sname; " with target "; host_name]) true.

Definition opt_srv_remove (args : list string) : M unit :=
  sname <- arg_or_input args 0 "Enter service name> " ;;
  let sname := if is_longform sname then sname else to_longform sname true in
  let url := server_url ["/srvs/?service="; sname] in
  history.record_get url [] ;;;
  srvs <- get url ;;
  n <- lift (py_len srvs) ;;
  (if n =? 0 then
     cli_warning (format ["not service named "; sname]) false
   else if (n >? 1) && negb (member "y" args) then
     cli_warning
       (format ["multiple services named "; sname; ", must force"]) false
   else pass) ;;;
  srvs <- lift (py_iter srvs) ;;
  for_each srvs (fun srv =>
    match srv with
    | VDict srv =>
        srvid <- item srv "srvid" ;;
        let url := server_url ["/srvs/"; py_str srvid] in
        history.record_delete url srv None (Some false) ;;;
        delete url ;;;
        service <- item srv "service" ;;
        target <- item srv "target" ;;
        cli_info
          (format ["removed SRV record "; py_str service; " with target ";
                   py_str target]) true
    | _ => raise (AssertionError "")
    end).

(** [padding = 0; for srv in srvs: if len(srv["service"]) > padding: ...] *)
Fixpoint widest (srvs : list value) (padding : Z) : result Z :=
  match srvs with
  | [] => Ok padding
  | srv :: rest =>
      match py_getitem srv "service" with
      | Err e => Err e
      | Ok service =>
          match py_len service with
          | Err e => Err e
          | Ok n => widest rest (if n >? padding then n else padding)
          end
      end
  end.

(** The printing loop of [srv_show]: a service name that repeats the previous
    row's is blanked. *)
Fixpoint show_rows (srvs : list value) (prev_name : value) (padding : Z)
  : M unit :=
  match srvs with
  | [] => ret tt
  | srv :: rest =>
      service <- lift (py_getitem srv "service") ;;
      if py_eq prev_name service then
        srv <- lift (py_setitem srv "service" (VStr "")) ;;
        print "print_srv" [srv; VInt padding] ;;;
        show_rows rest prev_name padding
      else
        print "print_srv" [srv; VInt padding] ;;;
        show_rows rest service padding
  end.

Definition opt_srv_show (args : list string) : M unit :=
  sname <- arg_or_input args 0 "Enter service name> " ;;
  let url := server_url ["/srvs/?service__contains="; sname] in
  history.record_get url [] ;;;
  srvs <- get url ;;
  n <- lift (py_len srvs) ;;
  when (n <? 1) (cli_warning (format ["no service matching "; sname]) false) ;;;
  rows <- lift (py_iter srvs) ;;
  padding <- lift (widest rows 0) ;;
  sorted <- lift (py_sorted (itemgetter "service") rows) ;;
  show_rows sorted (VStr "") padding ;;;
  cli_info (format ["showed entries for SRV "; sname]) false.

Definition opt_txt_add (args : list string) : M unit := pass.

Definition opt_txt_remove (args : list string) : M unit := pass.

Definition opt_used_list (args : list string) : M unit := pass.

End Host.
End Host.

Module Zone.

Definition opt_create (args : list string) : M unit := pass.
Definition opt_delete (args : list string) : M unit := pass.
Definition opt_set_ns (args : list string) : M unit := pass.
Definition opt_set_soa (args : list string) : M unit := pass.

End Zone.

Module Subnet.

Definition opt_info (args : list string) : M unit := pass.
Definition opt_set_vlan (args : list string) : M unit := pass.
Definition opt_set_description (args : list string) : M unit := pass.
Definition opt_set_name_prefix (args : list string) : M unit := pass.
Definition opt_set_dns_delegated (args : list string) : M unit := pass.
Definition opt_unset_dns_delegated (args : list string) : M unit := pass.
Definition opt_set_reserved (args : list string) : M unit := pass.
Definition opt_import (args : list string) : M unit := pass.

End Subnet.

(** ** mreg_cli/permission.py *)

Module permission.

(** The [argparse] namespace of the three sub-commands; a flag that was not
    given is [VNone]. *)
Record Namespace := mk_namespace {
  range : value;
  group : value;
  regex : value
}.

Section Permission.
Context {w : world}.

(** The loop of [_networksort]: each range is parsed, stored back into its
    permission, and the permission goes to [v4] or to [v6]. *)
Fixpoint split_versions (data v4 v6 : list value)
  : result (list value * list value) :=
  match data with
  | [] => Ok (v4, v6)
  | i :: rest =>
      match py_getitem i "range" with
      | Err e => Err e
      | Ok r =>
          match ip_network r with
          | Err e => Err e
          | Ok net =>
              match py_setitem i "range" (VNet net) with
              | Err e => Err e
              | Ok i' =>
                  if version net =? 4
                  then split_versions rest (v4 ++ [i']) v6
                  else split_versions rest v4 (v6 ++ [i'])
              end
          end
      end
  end.

Definition _networksort (data : list value) : result (list value) :=
  match split_versions data [] [] with
  | Err e => Err e
  | Ok (v4, v6) =>
      match py_sorted (itemgetter "range") v4 with
      | Err e => Err e
      | Ok v4 =>
          match py_sorted (itemgetter "range") v6 with
          | Err e => Err e
          | Ok v6 => Ok (v4 ++ v6)
          end
      end
  end.

(** The permissions whose range lies inside [argnetwork]; the source parses
    the range a second time for [supernet_of], with the same result. *)
Fixpoint within (argnetwork : network) (permissions : list value)
  : result (list value) :=
  match permissions with
  | [] => Ok []
  | i :: rest =>
      match py_getitem i "range" with
      | Err e => Err e
      | Ok r =>
          match ip_network r with
          | Err e => Err e
          | Ok permnet =>
              match (if version argnetwork =? version permnet
                     then supernet_of argnetwork permnet
                     else Ok false) with
              | Err e => Err e
              | Ok keep =>
                  match within argnetwork rest with
                  | Err e => Err e
                  | Ok data => Ok (if keep then i :: data else data)
                  end
              end
          end
      end
  end.

(** [print("{0:<{1}}{2:<{3}} {4}".format(range, 20, group, 16, regex))] *)
Definition print_perm (range group regex : value) : M unit :=
  a <- lift (format_left range 20) ;;
  b <- lift (format_left group 16) ;;
  print "print" [VStr (format [a; b; " "; py_str regex])].

Definition print_row (i : value) : M unit :=
  r <- lift (py_getitem i "range") ;;
  g <- lift (py_getitem i "group") ;;
  x <- lift (py_getitem i "regex") ;;
  print_perm (VStr (py_str r)) g x.

Definition network_list (args : Namespace) : M unit :=
  let query :=
    match group args with
    | VNone => []
    | g => [("group", g)]
    end in
  let params :=
    match query with
    | [] => ""
    | _ => format ["&"; urlencode query]
    end in
  permissions <-
    ask (fun tr =>
      get_list tr
        (format ["/permissions/netgroupregex/?ordering=group"; params])) ;;
  data <-
    match range args with
    | VNone => ret permissions
    | r =>
        argnetwork <- lift (ip_network r) ;;
        lift (within argnetwork permissions)
    end ;;
  match data with
  | [] => cli_info "No permissions found" true
  | _ =>
      print_perm (VStr "Range") (VStr "Group") (VStr "Regex") ;;;
      sorted <- lift (_networksort data) ;;
      for_each sorted print_row
  end.

Definition network_add (args : Namespace) : M unit :=
  when (negb (is_valid_network (range args)))
    (cli_warning (format ["Invalid range: "; py_str (range args)]) false) ;;;
  let data := [("range", range args);
               ("group", group args);
               ("regex", regex args)] in
  let path := "/permissions/netgroupregex/" in
  history.record_get path [VStr ""; VDict data] ;;;
  post path data ;;;
  cli_info (format ["Added permission to "; py_str (range args)]) true.

Definition network_remove (args : Namespace) : M unit :=
  let query := [("group", group args);
                ("range", range args);
                ("regex", regex args)] in
  let params := urlencode query in
  permissions <-
    ask (fun tr =>
      get_list tr (format ["/permissions/netgroupregex/?"; params])) ;;
  match permissions with
  | [] => cli_warning "No matching permission found" true
  | _ =>
      if negb (Z.of_nat (List.length permissions) =? 1) then
        raise (AssertionError "Should only match one permission")
      else
        first <- lift (py_first (VList permissions)) ;;
        id <- lift (py_getitem first "id") ;;
        let path := format ["/permissions/netgroupregex/"; py_str id] in
        history.record_delete path [] (Some false) None ;;;
        delete path ;;;
        cli_info (format ["Removed permission for "; py_str (range args)])
          true
  end.

End Permission.
End permission.

(** ** The handlers, by name *)

Section Handlers.
Context {w : world}.

(** The [opt_*] methods of the command classes of commands.py, as
    [CommandBase._option_methods] finds them ([opt_help], which only prints a
    docstring, apart). *)
Definition history_options : list (string * (list string -> M unit)) :=
  [("print", History.opt_print);
   ("redo", History.opt_redo);
   ("undo", History.opt_undo)].

Definition host_options : list (string * (list string -> M unit)) :=
  [("info", Host.opt_info);
   ("remove", Host.opt_remove);
   ("add", Host.opt_add);
   ("set_contact", Host.opt_set_contact);
   ("set_comment", Host.opt_set_comment);
   ("rename", Host.opt_rename);
   ("a_add", Host.opt_a_add);
   ("a_remove", Host.opt_a_remove);
   ("a_change", Host.opt_a_change);
   ("a_show", Host.opt_a_show);
   ("aaaa_add", Host.opt_aaaa_add);
   ("aaaa_remove", Host.opt_aaaa_remove);
   ("aaaa_change", Host.opt_aaaa_change);
   ("aaaa_show", Host.opt_aaaa_show);
   ("ttl_set", Host.opt_ttl_set);
   ("ttl_remove", Host.opt_ttl_remove);
   ("ttl_show", Host.opt_ttl_show);
   ("cname_add", Host.opt_cname_add);
   ("cname_remove", Host.opt_cname_remove);
   ("cname_show", Host.opt_cname_show);
   ("loc_set", Host.opt_loc_set);
   ("loc_remove", Host.opt_loc_remove);
   ("loc_show", Host.opt_loc_show);
   ("hinfo_set", Host.opt_hinfo_set);
   ("hinfo_remove", Host.opt_hinfo_remove);
   ("hinfo_show", Host.opt_hinfo_show);
   ("srv_add", Host.opt_srv_add);
   ("srv_remove", Host.opt_srv_remove);
   ("srv_show", Host.opt_srv_show);
   ("txt_add", Host.opt_txt_add);
   ("txt_remove", Host.opt_txt_remove);
   ("used_list", Host.opt_used_list)].

Definition zone_options : list (string * (list string -> M unit)) :=
  [("create", Zone.opt_create);
   ("delete", Zone.opt_delete);
   ("set_ns", Zone.opt_set_ns);
   ("set_soa", Zone.opt_set_soa)].

Definition subnet_options : list (string * (list string -> M unit)) :=
  [("info", Subnet.opt_info);
   ("set_vlan", Subnet.opt_set_vlan);
   ("set_description", Subnet.opt_set_description);
   ("set_name_prefix", Subnet.opt_set_name_prefix);
   ("set_dns_delegated", Subnet.opt_set_dns_delegated);
   ("unset_dns_delegated", Subnet.opt_unset_dns_delegated);
   ("set_reserved", Subnet.opt_set_reserved);
   ("import", Subnet.opt_import)].

(** The sub-commands that permission.py registers with [add_command]. *)
Definition permission_commands
  : list (string * (permission.Namespace -> M unit)) :=
  [("network_list", permission.network_list);
   ("network_add", permission.network_add);
   ("network_remove", permission.network_remove)].

(** A handler applied to its arguments. *)
Inductive handler_run (m : M unit) : Prop :=
| run_option (name : string) (opt : list string -> M unit)
    (args : list string) :
    In (name, opt)
       (history_options ++ host_options ++ zone_options ++ subnet_options) ->
    m = opt args -> handler_run m
| run_command (name : string) (cmd : permission.Namespace -> M unit)
    (args : permission.Namespace) :
    In (name, cmd) permission_commands ->
    m = cmd args -> handler_run m.

(** A handler that sends its requests itself (the undo and redo options hand
    theirs to the history object) and is not [network_add]. *)
Definition creating_run (m : M unit) : Prop :=
  (exists name opt args,
     In (name, opt) (host_options ++ zone_options ++ subnet_options)
     /\ m = opt args) \/
  (exists args,
     m = permission.network_list args \/ m = permission.network_remove args).

End Handlers.

(** ** The command loop *)



(** ** Reading a run *)

(** The events of a run satisfy [Q]. *)
Definition produces (Q : trace -> Prop) {A} (m : M A) : Prop :=
  forall st, exists evs, events (snd (m st)) = events st ++ evs /\ Q evs.

(** An event that only tells the user something. *)
Definition quiet (e : event) : Prop :=
  match e with
  | Recorded _ | Http _ _ _ => False
  | _ => True
  end.

(** ** What is claimed of the events of a run *)

Section Claims.
Context {w : world}.

(** A [record_patch] call carries the same keys before and after. *)
Definition patch_symmetric (e : event) : Prop :=
  match e with
  | Recorded (call_record_patch _ nd od _ _) => keys nd = keys od
  | _ => True
  end.

(** The fields that name a resource in its URL: a host's name, an address
    record's address. *)
Definition identifying_key (k : string) : bool :=
  String.eqb k "name" || String.eqb k "ipaddress".

Definition changes_identifying_key (nd : dict) : bool :=
  existsb identifying_key (keys nd).

(** A [record_patch] call that replaces the identifying key, which is then
    the end of the URL, passes both flags as False; any other passes none. *)
Definition patch_flags (e : event) : Prop :=
  match e with
  | Recorded (call_record_patch u nd od un re) =>
      if changes_identifying_key nd then
        un = Some false /\ re = Some false /\
        exists k old prefix,
          od = [(k, VStr old)] /\ u = (prefix ++ old)%string
      else un = None /\ re = None
  | _ => True
  end.

(** The entry of a [record_delete] call is not redoable. *)
Definition delete_not_redoable (e : event) : Prop :=
  match e with
  | Recorded (call_record_delete u od un re) =>
      forall n,
        redoable (history.entry_of_call n (call_record_delete u od un re))
        = false
  | _ => True
  end.

(** A [record_delete] call without old data passes [undoable=False], and one
    whose entry is undoable has old data. *)
Definition delete_snapshot (e : event) : Prop :=
  match e with
  | Recorded (call_record_delete u od un re) =>
      (od = [] -> un = Some false) /\
      (history.default true un = true -> od <> [])
  | _ => True
  end.

(** The undoable delete of a host carries an [ipaddress] that is one string. *)
Definition host_snapshot_flat (e : event) : Prop :=
  match e with
  | Recorded (call_record_delete u od None re) =>
      exists ip, dict_get od "ipaddress" = Ok (VStr ip)
  | _ => True
  end.

(** The undoable delete of a host carries the host's info as the server gave
    it, but for [ipaddress]: with one address or more, that of the first. *)
Definition host_snapshot (e : event) : Prop :=
  match e with
  | Recorded (call_record_delete u od None re) =>
      exists tr who info ips n,
        host_info_by_name_or_ip tr who = Ok info /\
        dict_get info "ipaddress" = Ok ips /\
        py_len ips = Ok n /\
        (n <= 0 -> od = info) /\
        (0 < n ->
           exists first ip,
             py_first ips = Ok first /\
             py_getitem first "ipaddress" = Ok ip /\
             keys od = keys info /\
             dict_get od "ipaddress" = Ok ip /\
             forall k, k <> "ipaddress" -> dict_find od k = dict_find info k)
  | _ => True
  end.

(** Every POST comes right after a [record_post] call for the same URL whose
    new data [ok] accepts for the payload; every [record_get] call has the URL
    as its only argument and comes right before the GET of that URL. *)
Definition creations_recorded
  (ok : string -> dict -> option bool -> option bool -> dict -> Prop)
  (evs : trace) : Prop :=
  (forall pre u p post,
     evs = pre ++ Http POST u p :: post ->
     exists pre' name nd un re,
       pre = pre' ++ [Recorded (call_record_post u name nd un re)] /\
       ok u nd un re p) /\
  (forall pre u s post,
     evs = pre ++ Recorded (call_record_get u s) :: post ->
     s = [] /\ exists post', post = Http GET u [] :: post').

(** The new data are the payload. *)
Definition payload_recorded (u : string) (nd : dict)
  (un re : option bool) (p : dict) : Prop :=
  nd = p.

(** The new data are the payload, or nothing, for the CNAME record that is
    recorded as neither undoable nor redoable, and whose payload is a
    [hostid] and a [cname]. *)
Definition payload_or_nothing (u : string) (nd : dict)
  (un re : option bool) (p : dict) : Prop :=
  nd = p \/
  (nd = [] /\ un = Some false /\ re = Some false /\
   u = server_url ["/cnames/"] /\
   exists hostid cname, p = [("hostid", hostid); ("cname", cname)]).

(** The same in pieces: an event that is neither a POST nor a [record_get]
    call, a recorded POST, a recorded GET. *)
Inductive in_blocks
  (ok : string -> dict -> option bool -> option bool -> dict -> Prop)
  : trace -> Prop :=
| blocks_nil : in_blocks ok []
| blocks_other e evs :
    (forall u p, e <> Http POST u p) ->
    (forall u s, e <> Recorded (call_record_get u s)) ->
    in_blocks ok evs -> in_blocks ok (e :: evs)
| blocks_post u name nd un re p evs :
    ok u nd un re p ->
    in_blocks ok evs ->
    in_blocks ok
      (Recorded (call_record_post u name nd un re) :: Http POST u p :: evs)
| blocks_get u evs :
    in_blocks ok evs ->
    in_blocks ok (Recorded (call_record_get u []) :: Http GET u [] :: evs).

(** Ascending order of two networks of one version: by address, then by
    netmask. *)
Definition network_le (a b : network) : Prop :=
  version a = version b /\
  (network_address a < network_address b \/
   (network_address a = network_address b /\ netmask a <= netmask b)).

End Claims.

(** ** A small installation, for examples *)

Module sample.

Fixpoint digits (s : string) (acc : Z) : option Z :=
  match s with
  | EmptyString => Some acc
  | String c s' =>
      let n := Z.of_nat (nat_of_ascii c) in
      if (48 <=? n) && (n <=? 57) then digits s' (10 * acc + (n - 48))
      else None
  end.

(** Decimal digits with an optional sign. *)
Definition decimal (s : string) : option Z :=
  match s with
  | EmptyString => None
  | String c s' =>
      if Ascii.eqb c "-"%char then
        match s' with
        | EmptyString => None
        | _ => option_map Z.opp (digits s' 0)
        end
      else digits s 0
  end.

Definition show (x : value) : string :=
  match x with
  | VNone => "None"
  | VBool true => "True"
  | VBool false => "False"
  | VInt z => str_of_int z
  | VStr s => format ["'"; s; "'"]
  | VNet n =>
      format [str_of_int (network_address n); "/"; str_of_int (netmask n)]
  | VList _ => "[...]"
  | VDict _ => "{...}"
  end.

Definition plain (x : value) : string :=
  match x with
  | VStr s => s
  | _ => show x
  end.

Definition query_string (q : list (string * value)) : string :=
  String.concat "&" (map (fun kv => format [fst kv; "="; plain (snd kv)]) q).

Definition parse_network (x : value) : result network :=
  match x with
  | VStr s =>
      if String.eqb s "10.0.0.0/8" then Ok (mk_network 4 167772160 4278190080)
      else if String.eqb s "10.1.0.0/16"
      then Ok (mk_network 4 167837696 4294901760)
      else if String.eqb s "192.168.0.0/16"
      then Ok (mk_network 4 3232235520 4294901760)
      else if String.eqb s "fe80::/10"
      then Ok (mk_network 6 (65152 * 2 ^ 112) (2 ^ 128 - 2 ^ 118))
      else Err (ValueError (format [show x;
             " does not appear to be an IPv4 or IPv6 network"]))
  | _ => Err TypeError
  end.

Fixpoint spaces (n : nat) : string :=
  match n with
  | O => ""
  | S n' => String " "%char (spaces n')
  end.

Definition left_justified (x : value) (width : Z) : result string :=
  match x with
  | VStr s => Ok (s ++ spaces (Z.to_nat width - String.length s))%string
  | _ => Err TypeError
  end.

Definition host (name : string) (id : Z) (ips cnames : list value) : dict :=
  [("hostid", VInt id); ("name", VStr name);
   ("contact", VStr "hostmaster@example.org"); ("comment", VNone);
   ("ipaddress", VList ips); ("ttl", VNone); ("hinfo", VNone);
   ("loc", VNone); ("cname", VList cnames); ("txt", VList [])].

Definition address (ip : string) : value := VDict [("ipaddress", VStr ip)].

(** A host that a POST to the server has named exists from then on. *)
Definition created (name : string) (tr : trace) : bool :=
  existsb
    (fun e =>
       match e with
       | Http POST _ p =>
           match dict_find p "name" with
           | Some v => eq_str v name
           | None => false
           end
       | _ => false
       end) tr.

Definition hosts (tr : trace) (name : string) : result dict :=
  if String.eqb name "a.example.org"
  then Ok (host name 1 [address "10.0.0.1"] [])
  else if String.eqb name "bare.example.org"
  then Ok (host name 2 [] [])
  else if created name tr
  then Ok (host name 3 [] [])
  else Err (HostNotFoundWarning name).

Definition rule (id : Z) (range group regex : string) : value :=
  VDict [("id", VInt id); ("range", VStr range); ("group", VStr group);
         ("regex", VStr regex)].

Definition rules (path : string) : result (list value) :=
  if ends_with "regex=none" path then Ok []
  else if ends_with "regex=twice" path
  then Ok [rule 3 "10.0.0.0/8" "ops" "twice"; rule 4 "10.0.0.0/8" "ops" "twice"]
  else if ends_with "ordering=group" path
  then Ok [rule 5 "fe80::/10" "net" ".*"; rule 6 "192.168.0.0/16" "ops" ".*";
           rule 7 "10.0.0.0/8" "ops" ".*"]
  else Ok [rule 7 "10.0.0.0/8" "ops" ".*"].

(** A server that answers every request, except under [/unreachable]. *)
Definition server (tr : trace) (m : http_method) (u : string) (p : dict)
  : result value :=
  if ends_with "/unreachable" u then Err (TransportError "connection refused")
  else Ok (VList []).

Definition installation : world := {|
  server_ip := "127.0.0.1";
  server_port := "8000";
  warning_raises := true;
  surplus_accepted := true;
  py_int := decimal;
  repr := show;
  urlencode := query_string;
  ip_network := parse_network;
  format_left := left_justified;
  eq_other := fun _ _ => false;
  lt_other := fun _ _ => Err TypeError;
  http := server;
  get_list := fun _ path => rules path;
  host_info_by_name := fun tr name _ => hosts tr name;
  host_info_by_name_or_ip := hosts;
  aliases_of_host := fun _ _ => Ok [];
  resolve_input_name :=
    fun tr name =>
      match hosts tr name with
      | Ok _ => Ok name
      | Err e => Err e
      end;
  hinfo_list := fun _ => Ok [VStr "pc"; VStr "server"];
  hinfo_id_to_strings := fun _ _ => Ok (VStr "pc");
  choose_ip_from_subnet := fun _ _ => Ok "10.0.0.2";
  is_valid_subnet := fun _ => false;
  is_valid_email := fun _ => true;
  is_valid_ipv4 := fun _ => true;
  is_valid_ipv6 := fun _ => true;
  is_valid_ttl := fun _ => true;
  is_valid_loc := fun _ => true;
  is_valid_network := fun _ => true;
  is_longform := ends_with ".example.org";
  to_longform :=
    fun s dot => format [s; ".example.org"; if dot then "." else ""]
|}.

(** Nothing typed ahead, nothing recorded, nothing done yet. *)
Definition fresh : state := mk_state [] [] [].

End sample.

(** ** What is claimed of the history object *)

Section HistoryClaims.
Context {w : world}.

(** The entry [e'] is the entry [e] in every field but, perhaps, the
    [undone] flag. *)
Definition same_record (e e' : HistoryEntry) : Prop :=
  seqno e' = seqno e /\ method e' = method e /\ url e' = url e /\
  resource_name e' = resource_name e /\ old_data e' = old_data e /\
  new_data e' = new_data e /\ undoable e' = undoable e /\
  redoable e' = redoable e.

(** [undo n], for the entry [e] of number [n], issued the request [m] to the
    URL of [e] with [payload] and nothing else; when the server accepted it,
    the entry of number [n] now has [undone] true and is [e] otherwise, and
    the log has the same entries as before, in the same order, each the same
    but for its [undone] flag, and those of another number with that flag as
    well; when the server failed with [cause], the failure is reported, the
    log is as it was, and the entry of number [n] is [e] still. *)
Definition compensated (st : state) (n : Z) (e : HistoryEntry)
  (m : http_method) (payload : dict) : Prop :=
  let st' := snd (history.undo n st) in
  emitted (history.undo n) st = [Http m (url e) payload] /\
  match http (events st ++ [Http m (url e) payload]) m (url e) payload with
  | Ok _ =>
      outcome (history.undo n) st = Ok tt /\
      (exists e',
         history.lookup n (hist st') = Some e' /\
         undone e' = true /\
         same_record e e') /\
      (forall k, k <> n ->
         history.lookup k (hist st') = history.lookup k (hist st)) /\
      Forall2 same_record (hist st) (hist st')
  | Err cause =>
      outcome (history.undo n) st = Err (UpstreamFailure cause) /\
      hist st' = hist st /\
      history.lookup n (hist st') = Some e
  end.

End HistoryClaims.

Module examples.

(** The sample installation after [host ttl_set a.example.org 600]. *)
Definition after_ttl_set : state :=
  snd (Host.opt_ttl_set (w := sample.installation) ["a.example.org"; "600"]
         sample.fresh).

(** The entry that this command recorded. *)
Definition ttl_entry : HistoryEntry :=
  mk_entry 1 PATCH "http://127.0.0.1:8000/hosts/a.example.org" ""
    [("ttl", VInt (-1))] [("ttl", VStr "600")] true true false.

End examples.

(** ** What is claimed of the list of permissions *)

Section ListClaims.
Context {w : world}.

(** The permission [i] carries the parsed range [n]. *)
Definition has_range (i : value) (n : network) : Prop :=
  py_getitem i "range" = Ok (VNet n).

(** The range of the permission [i], as the server sent it, parses to [n]. *)
Definition parses (i : value) (n : network) : Prop :=
  exists r, py_getitem i "range" = Ok r /\ ip_network r = Ok n.

(** The event [ev] is the printed row of the permission [i]. *)
Definition row_printed (ev : event) (i : value) : Prop :=
  exists r g x a b,
    py_getitem i "range" = Ok r /\
    py_getitem i "group" = Ok g /\
    py_getitem i "regex" = Ok x /\
    format_left (VStr (py_str r)) 20 = Ok a /\
    format_left g 16 = Ok b /\
    ev = Printed "print" [VStr (format [a; b; " "; py_str x])].

(** The permissions that [network_list] is to display: those of the server,
    or with [-range] those inside the given network. *)
Definition displayed (args : permission.Namespace) (st : state)
  (data : list value) : Prop :=
  exists permissions params,
    get_list (events st)
      (format ["/permissions/netgroupregex/?ordering=group"; params])
    = Ok permissions /\
    match permission.range args with
    | VNone => data = permissions
    | r =>
        exists argnetwork,
          ip_network r = Ok argnetwork /\
          permission.within argnetwork permissions = Ok data
    end.

(** A sorted element: its key is the range that its permission carries. *)
Definition keyed_by (x : keyed) (n : network) : Prop :=
  fst x = VNet n /\ has_range (snd x) n.

End ListClaims.

(** ** Changes and their records *)

Section ChangeClaims.
Context {w : world}.

(** A handler that sends its requests itself: an option of the Host, Zone or
    Subnet command, or a sub-command of permission. *)
Definition server_run (m : M unit) : Prop :=
  (exists name opt args,
     In (name, opt) (host_options ++ zone_options ++ subnet_options)
     /\ m = opt args) \/
  (exists name cmd args, In (name, cmd) permission_commands /\ m = cmd args).

(** A PATCH or DELETE request, or the call that records one. *)
Definition change (e : event) : bool :=
  match e with
  | Http PATCH _ _ | Http DELETE _ _ => true
  | Recorded (call_record_patch _ _ _ _ _) => true
  | Recorded (call_record_delete _ _ _ _) => true
  | _ => false
  end.

(** The events of a run in pieces: an event that is no change, a recorded
    PATCH, a recorded DELETE. *)
Inductive in_pairs : trace -> Prop :=
| pairs_nil : in_pairs []
| pairs_other e evs :
    change e = false -> in_pairs evs -> in_pairs (e :: evs)
| pairs_patch u nd od un re evs :
    in_pairs evs ->
    in_pairs (Recorded (call_record_patch u nd od un re)
                :: Http PATCH u nd :: evs)
| pairs_delete u od un re evs :
    in_pairs evs ->
    in_pairs (Recorded (call_record_delete u od un re)
                :: Http DELETE u [] :: evs).

(** Every PATCH comes right after a [record_patch] call for its URL and its
    payload, every DELETE right after a [record_delete] call for its URL; and
    every such call comes right before its request. *)
Definition changes_recorded (evs : trace) : Prop :=
  (forall pre u p post,
     evs = pre ++ Http PATCH u p :: post ->
     exists pre' od un re,
       pre = pre' ++ [Recorded (call_record_patch u p od un re)]) /\
  (forall pre u p post,
     evs = pre ++ Http DELETE u p :: post ->
     p = [] /\
     exists pre' od un re,
       pre = pre' ++ [Recorded (call_record_delete u od un re)]) /\
  (forall pre u nd od un re post,
     evs = pre ++ Recorded (call_record_patch u nd od un re) :: post ->
     exists post', post = Http PATCH u nd :: post') /\
  (forall pre u od un re post,
     evs = pre ++ Recorded (call_record_delete u od un re) :: post ->
     exists post', post = Http DELETE u [] :: post').

End ChangeClaims.

(** ** Warnings *)

(** Any event but a warning. *)
Definition not_warning (e : event) : Prop :=
  match e with
  | Warned _ _ => False
  | _ => True
  end.

(** How a computation ended: with which exception, if any. *)
Definition failure {A} (r : result A) : option exn :=
  match r with
  | Ok _ => None
  | Err e => Some e
  end.

(** No warning among the events, or one, which is the last event and the
    CliWarning the computation ended with. *)
Definition warning_last (evs : trace) (r : option exn) : Prop :=
  Forall not_warning evs \/
  exists pre msg b,
    evs = pre ++ [Warned msg b] /\
    Forall not_warning pre /\
    r = Some (CliWarning msg).

Definition careful {A} (m : M A) : Prop :=
  forall st,
    exists evs,
      events (snd (m st)) = events st ++ evs /\
      warning_last evs (failure (fst (m st))).

(** ** Looking and asking *)

Section LookClaims.
Context {w : world}.

(** A GET, a [record_get] call with the URL alone, or a word to the user. *)
Definition reads_only (e : event) : Prop :=
  match e with
  | Http m _ _ => m = GET
  | Recorded c => exists u, c = call_record_get u []
  | _ => True
  end.

(** The options that show something: [info] and those named [..._show]. *)
Definition shows (name : string) : bool :=
  String.eqb name "info" || ends_with "_show" name.

(** Any event but a prompt. *)
Definition not_prompt (e : event) : Prop :=
  match e with
  | Prompted _ => False
  | _ => True
  end.

(** The number of arguments that the docstring of each Host option names
    before its optional ones. *)
Definition arguments_wanted : list (string * nat) :=
  [("info", 1); ("remove", 1); ("add", 3); ("set_contact", 2);
   ("set_comment", 2); ("rename", 2); ("a_add", 2); ("a_remove", 2);
   ("a_change", 3); ("a_show", 1); ("aaaa_add", 2); ("aaaa_remove", 2);
   ("aaaa_change", 3); ("aaaa_show", 1); ("ttl_set", 2); ("ttl_remove", 1);
   ("ttl_show", 1); ("cname_add", 2); ("cname_remove", 2); ("cname_show", 1);
   ("loc_set", 2); ("loc_remove", 1); ("loc_show", 1); ("hinfo_set", 2);
   ("hinfo_remove", 1); ("hinfo_show", 1); ("srv_add", 5); ("srv_remove", 1);
   ("srv_show", 1); ("txt_add", 0); ("txt_remove", 0); ("used_list", 0)]%nat.

End LookClaims.

(** ** What is checked before a change *)

Section CheckClaims.
Context {w : world}.

(** The host info lists the address [ip]. *)
Definition lists_address (info : dict) (ip : string) : Prop :=
  exists ips recs rec,
    dict_get info "ipaddress" = Ok ips /\
    py_iter ips = Ok recs /\
    In rec recs /\
    py_getitem rec "ipaddress" = Ok (VStr ip).

(** A request, or a call of the history object, is made only for an address
    that the info of the host [name] lists. *)
Definition touches_own (name ip : string) (e : event) : Prop :=
  match e with
  | Recorded _ | Http _ _ _ =>
      exists tr info,
        host_info_by_name tr name true = Ok info /\ lists_address info ip
  | _ => True
  end.

(** The options that remove or replace an address of a host. *)
Definition address_options : list (string * (list string -> M unit)) :=
  [("a_remove", Host.opt_a_remove);
   ("a_change", Host.opt_a_change);
   ("aaaa_remove", Host.opt_aaaa_remove);
   ("aaaa_change", Host.opt_aaaa_change)].

(** The new data of a [record_patch] call of the four setters: a contact
    that is a valid mail address, a TTL that is valid (and recorded as -1
    when it is the word default), a LOC that is valid, the number of an hinfo
    preset that exists. *)
Definition checked_contact (e : event) : Prop :=
  match e with
  | Recorded (call_record_patch _ nd _ _ _) =>
      exists contact,
        nd = [("contact", VStr contact)] /\ is_valid_email contact = true
  | _ => True
  end.

Definition checked_ttl (e : event) : Prop :=
  match e with
  | Recorded (call_record_patch _ nd _ _ _) =>
      exists ttl,
        is_valid_ttl ttl = true /\
        nd = [("ttl", if String.eqb ttl "default" then VInt (-1)
                      else VStr ttl)]
  | _ => True
  end.

Definition checked_loc (e : event) : Prop :=
  match e with
  | Recorded (call_record_patch _ nd _ _ _) =>
      exists loc, nd = [("loc", VStr loc)] /\ is_valid_loc loc = true
  | _ => True
  end.

Definition checked_hinfo (e : event) : Prop :=
  match e with
  | Recorded (call_record_patch _ nd _ _ _) =>
      exists tr presets hinfo,
        hinfo_list tr = Ok presets /\
        nd = [("hinfo", VInt hinfo)] /\
        0 < hinfo <= Z.of_nat (List.length presets)
  | _ => True
  end.

End CheckClaims.

(** ** The range filter *)

(** The network [n] lies inside [argnetwork]: the same IP version, and its
    addresses between the first and the last of [argnetwork]. *)
Definition inside (argnetwork n : network) : Prop :=
  version n = version argnetwork /\
  network_address argnetwork <= network_address n /\
  broadcast_address n <= broadcast_address argnetwork.

(** ** The base class of the commands *)

Module CommandBase.

(** [re.match("^opt_.*$", name)], as a truth value: [.] matches every
    character but a newline, and [$] matches at the end of the name and before
    a newline that ends it. *)
Definition is_opt_name (name : string) : bool :=
  match name with
  | String "o" (String "p" (String "t" (String "_" rest))) =>
      negb (has_newline (strip_last_newline rest))
  | _ => false
  end.

(** [name.split('_', maxsplit=1)[1]] *)
Fixpoint after_underscore (name : string) : result string :=
  match name with
  | EmptyString => Err IndexError
  | String c rest =>
      if Ascii.eqb c "_" then Ok rest else after_underscore rest
  end.

Section Class.
Variable method_object : Type.

(** An attribute of [self], as [inspect.getmembers] reports it: the name it is
    found under and, when its value is a bound method, the [__name__] of the
    method and the method. *)
Record attribute := mk_attribute {
  attribute_name : string;
  bound_method : option (string * method_object)
}.

(** [inspect.getmembers(self)]: the attributes of [self], sorted by name. *)
Variable members : list attribute.

(** [inspect.getdoc] of a method: a string, or [None]. *)
Variable getdoc : method_object -> value.

Definition _is_option (value : option (string * method_object)) : bool :=
  match value with
  | Some (__name__, _) => is_opt_name __name__
  | None => false
  end.

Definition _option_methods : list attribute :=
  filter (fun a => _is_option (bound_method a)) members.

Fixpoint options_of (methods : list attribute) : result (list string) :=
  match methods with
  | [] => Ok []
  | method :: rest =>
      match after_underscore (attribute_name method) with
      | Err e => Err e
      | Ok option =>
          match options_of rest with
          | Err e => Err e
          | Ok options => Ok (option :: options)
          end
      end
  end.

Definition options : result (list string) := options_of _option_methods.

(** The first option method found under the name ["opt_" + opt]. *)
Definition named (opt : string) : option attribute :=
  find (fun method =>
          String.eqb (attribute_name method) ("opt_" ++ opt)%string)
    _option_methods.

(** What [method] does: it returns a method, it calls [cli_error] (log.py is
    not among the sources) with a message, or an assertion of its fails. *)
Inductive dispatch :=
| returns (f : method_object)
| cli_error (msg : string)
| fails (e : exn).

Definition method (opt : string) : dispatch :=
  match named opt with
  | Some m =>
      match bound_method m with
      | Some (_, f) => returns f
      | None => fails (AssertionError "")
      end
  | None => cli_error (format ["unknown option: "; opt])
  end.

Definition opt_help (opt : string) : M unit :=
  match named opt with
  | Some m =>
      match bound_method m with
      | Some (_, f) => print "print" [getdoc f]
      | None => raise (AssertionError "")
      end
  | None =>
      print "print"
        [VStr (format ["No documentation of "; dquote; opt; dquote])]
  end.

(** Every method among the attributes is found under its own name, as the
    methods that a class declares with [def] are. *)
Definition declared : Prop :=
  forall a name f,
    In a members -> bound_method a = Some (name, f) -> attribute_name a = name.

End Class.

Arguments cli_error {method_object} msg.
Arguments fails {method_object} e.

(** The attributes that the methods [opt_<name>] of a table make, after the
    docstring of the class. *)
Definition methods_of {method_object : Type}
  (table : list (string * method_object)) : list (attribute method_object) :=
  mk_attribute "__doc__" None ::
  map (fun entry =>
         let name := ("opt_" ++ fst entry)%string in
         mk_attribute name (Some (name, snd entry))) table.

End CommandBase.

(** ** A second installation

    The sample installation with two more hosts: one with two addresses, one
    with an alias; and with two SRV records of one service. *)

Module lab.

Definition hosts (tr : trace) (name : string) : result dict :=
  if String.eqb name "multi.example.org"
  then Ok (sample.host name 4
             [sample.address "10.0.0.4"; sample.address "10.0.0.5"] [])
  else if String.eqb name "www.example.org"
  then Ok (sample.host name 5 [sample.address "10.0.0.6"] [])
  else sample.hosts tr name.

Definition aliases (tr : trace) (name : value) : result (list string) :=
  if eq_str name "www.example.org" then Ok ["w3.example.org"] else Ok [].

Definition srv (id : Z) (target : string) : value :=
  VDict [("srvid", VInt id); ("service", VStr "_sip._tcp.example.org.");
         ("priority", VStr "10"); ("weight", VStr "5"); ("port", VStr "5060");
         ("ttl", VNone); ("target", VStr target)].

Definition server (tr : trace) (m : http_method) (u : string) (p : dict)
  : result value :=
  match m with
  | GET =>
      if ends_with "/srvs/?service=_sip._tcp.example.org." u
      then Ok (VList [srv 1 "a.example.org"; srv 2 "multi.example.org"])
      else sample.server tr m u p
  | _ => sample.server tr m u p
  end.

Definition installation : world := {|
  server_ip := "127.0.0.1";
  server_port := "8000";
  warning_raises := true;
  surplus_accepted := true;
  py_int := sample.decimal;
  repr := sample.show;
  urlencode := sample.query_string;
  ip_network := sample.parse_network;
  format_left := sample.left_justified;
  eq_other := fun _ _ => false;
  lt_other := fun _ _ => Err TypeError;
  http := server;
  get_list := fun _ path => sample.rules path;
  host_info_by_name := fun tr name _ => hosts tr name;
  host_info_by_name_or_ip := hosts;
  aliases_of_host := aliases;
  resolve_input_name :=
    fun tr name =>
      match hosts tr name with
      | Ok _ => Ok name
      | Err e => Err e
      end;
  hinfo_list := fun _ => Ok [VStr "pc"; VStr "server"];
  hinfo_id_to_strings := fun _ _ => Ok (VStr "pc");
  choose_ip_from_subnet := fun _ _ => Ok "10.0.0.2";
  is_valid_subnet := fun _ => false;
  is_valid_email := fun _ => true;
  is_valid_ipv4 := fun _ => true;
  is_valid_ipv6 := fun _ => true;
  is_valid_ttl := fun _ => true;
  is_valid_loc := fun _ => true;
  is_valid_network := fun _ => true;
  is_longform := ends_with ".example.org";
  to_longform :=
    fun s dot => format [s; ".example.org"; if dot then "." else ""]
|}.

End lab.

(** ** Names that are taken *)

Section ForceClaims.
Context {w : world}.

(** A request, or a call of the history object, of [add] is made only when
    the server knows no host of the name. *)
Definition adds_new (name : string) (e : event) : Prop :=
  match e with
  | Recorded _ | Http _ _ _ =>
      exists tr msg,
        resolve_input_name tr name = Err (HostNotFoundWarning msg)
  | _ => True
  end.

(** A request, or a call of the history object, of [rename] is made only
    when the server knows no host of the new name. *)
Definition takes_free (new_name : string) (e : event) : Prop :=
  match e with
  | Recorded _ | Http _ _ _ =>
      exists tr msg,
        host_info_by_name tr new_name false = Err (HostNotFoundWarning msg)
  | _ => True
  end.

(** A request, or a call of the history object, of [srv_add] is made only
    when the server knows the target. *)
Definition known_target (name : string) (e : event) : Prop :=
  match e with
  | Recorded _ | Http _ _ _ =>
      exists tr host_name, resolve_input_name tr name = Ok host_name
  | _ => True
  end.

(** A request, or a call of the history object, of [cname_add] is made only
    when the server knows no host of the alias, or one without records. *)
Definition alias_is_free (alias : string) (e : event) : Prop :=
  match e with
  | Recorded _ | Http _ _ _ =>
      exists tr,
        (exists msg,
           host_info_by_name tr alias true = Err (HostNotFoundWarning msg)) \/
        (exists info,
           host_info_by_name tr alias true = Ok info /\
           any_truthy info ["hinfo"; "loc"; "cname"; "ipaddress"; "txt"]
           = Ok false)
  | _ => True
  end.

End ForceClaims.

(** ** Addresses that are sent *)

(** The payload carries an address that [valid] accepts. *)
Definition carries (valid : string -> bool) (payload : dict) : Prop :=
  exists ip, dict_find payload "ipaddress" = Some (VStr ip) /\ valid ip = true.

(** What is recorded as new data, and what is posted or patched, carries an
    address that [valid] accepts. *)
Definition sends_valid (valid : string -> bool) (e : event) : Prop :=
  match e with
  | Recorded (call_record_post _ _ nd _ _) => carries valid nd
  | Recorded (call_record_patch _ nd _ _ _) => carries valid nd
  | Http POST _ payload => carries valid payload
  | Http PATCH _ payload => carries valid payload
  | _ => True
  end.

(** * Properties *)

(** ** What a run appends to the trace *)

Lemma emitted_app {A} (m : M A) (st : state) (evs : trace) :
  events (snd (m st)) = events st ++ evs -> emitted m st = evs.
Proof.
  unfold emitted. intros ->.
  rewrite skipn_app, skipn_all, Nat.sub_diag. reflexivity.
Qed.

Section Produces.

(** [Q] is a property of the events of a run that holds of no events, of the
    events of two runs in a row, and of a word to the user. *)
Variable Q : trace -> Prop.
Hypothesis Q_nil : Q [].
Hypothesis Q_app : forall a b, Q a -> Q b -> Q (a ++ b).
Hypothesis Q_quiet : forall e, quiet e -> Q [e].

Lemma produces_emitted {A} (m : M A) (st : state) :
  produces Q m -> Q (emitted m st).
Proof.
  intros H. destruct (H st) as (evs & E & HQ).
  rewrite (@emitted_app _ m st evs E). exact HQ.
Qed.

Lemma produces_silent {A} (m : M A) :
  (forall st, events (snd (m st)) = events st) -> produces Q m.
Proof.
  intros H st. exists []. rewrite H, app_nil_r. auto.
Qed.

Lemma produces_ret {A} (a : A) : produces Q (ret a).
Proof. apply produces_silent. reflexivity. Qed.

Lemma produces_raise {A} (e : exn) : produces Q (@raise A e).
Proof. apply produces_silent. reflexivity. Qed.

Lemma produces_lift {A} (r : result A) : produces Q (lift r).
Proof. apply produces_silent. reflexivity. Qed.

Lemma produces_ask {A} (f : trace -> result A) : produces Q (ask f).
Proof. apply produces_silent. reflexivity. Qed.

Lemma produces_get_hist : produces Q get_hist.
Proof. apply produces_silent. reflexivity. Qed.

Lemma produces_set_hist h : produces Q (set_hist h).
Proof. apply produces_silent. reflexivity. Qed.

Lemma produces_emit e : Q [e] -> produces Q (emit e).
Proof. intros H st. exists [e]. auto. Qed.

Lemma produces_bind {A B} (m : M A) (k : A -> M B) :
  produces Q m -> (forall a, produces Q (k a)) -> produces Q (bind m k).
Proof.
  intros Hm Hk st. unfold bind.
  destruct (Hm st) as (evs & E & HQ).
  destruct (m st) as [[a | e] st']; simpl in *.
  - destruct (Hk a st') as (evs' & E' & HQ').
    exists (evs ++ evs'). rewrite E', E, app_assoc. auto.
  - exists evs. auto.
Qed.

Lemma produces_bind_ret {A B} (a : A) (k : A -> M B) :
  produces Q (k a) -> produces Q (bind (ret a) k).
Proof. intros H. exact H. Qed.

Lemma produces_bind_raise {A B} (e : exn) (k : A -> M B) :
  produces Q (bind (raise e) k).
Proof. apply produces_silent. reflexivity. Qed.

Lemma produces_bind_assoc {A B C} (m : M A) (f : A -> M B) (k : B -> M C) :
  produces Q (bind m (fun a => bind (f a) k)) ->
  produces Q (bind (bind m f) k).
Proof.
  intros H st. destruct (H st) as (evs & E & HQ). exists evs.
  split; [| exact HQ]. rewrite <- E. unfold bind.
  destruct (m st) as [[a | e] st']; reflexivity.
Qed.

Lemma produces_bind_assoc_under {A B C D} (m : M A) (f : A -> M B)
  (g : A -> B -> M C) (k : C -> M D) :
  produces Q (bind m (fun a => bind (f a) (fun b => bind (g a b) k))) ->
  produces Q (bind m (fun a => bind (bind (f a) (g a)) k)).
Proof.
  intros H st. destruct (H st) as (evs & E & HQ). exists evs.
  split; [| exact HQ]. rewrite <- E. unfold bind.
  destruct (m st) as [[a | e] st']; [| reflexivity].
  destruct (f a st') as [[b | e] st'']; reflexivity.
Qed.

(** The continuation only has to be considered for answers that were given. *)
Lemma produces_bind_ask {A B} (f : trace -> result A) (k : A -> M B) :
  (forall tr a, f tr = Ok a -> produces Q (k a)) ->
  produces Q (bind (ask f) k).
Proof.
  intros Hk st. unfold bind, ask.
  destruct (f (events st)) as [a | e] eqn:E.
  - apply (Hk _ _ E).
  - exists []. simpl. rewrite app_nil_r. auto.
Qed.

Lemma produces_bind_lift {A B} (r : result A) (k : A -> M B) :
  (forall a, r = Ok a -> produces Q (k a)) -> produces Q (bind (lift r) k).
Proof.
  intros Hk st. unfold bind, lift.
  destruct r as [a | e].
  - apply (Hk _ eq_refl).
  - exists []. simpl. rewrite app_nil_r. auto.
Qed.

Lemma produces_attempt {A} (m : M A) : produces Q m -> produces Q (attempt m).
Proof.
  intros Hm st. unfold attempt.
  destruct (Hm st) as (evs & E & HQ).
  destruct (m st) as [r st']. exists evs. auto.
Qed.

Lemma produces_for_each {A} (l : list A) (body : A -> M unit) :
  (forall x, In x l -> produces Q (body x)) -> produces Q (for_each l body).
Proof.
  induction l as [| x l IH]; intros H; simpl.
  - apply produces_ret.
  - apply produces_bind.
    + apply H. left. reflexivity.
    + intros _. apply IH. intros y Hy. apply H. right. exact Hy.
Qed.

Lemma produces_when b (m : M unit) : produces Q m -> produces Q (when b m).
Proof.
  intros H. destruct b; simpl; [exact H | apply produces_ret].
Qed.

Lemma produces_read_line p : produces Q (input p).
Proof.
  unfold input. apply produces_bind.
  - apply produces_emit. apply Q_quiet. exact I.
  - intros _. apply produces_silent. intros st.
    destruct (stdin st); reflexivity.
Qed.

Lemma produces_arg_or_input args i p : produces Q (arg_or_input args i p).
Proof.
  unfold arg_or_input. destruct (nth_error args i).
  - apply produces_ret.
  - apply produces_read_line.
Qed.

Lemma produces_help_loop p hl pending : forall h,
  produces Q (help_loop p hl h pending).
Proof.
  induction pending as [| l rest IH]; intros h; simpl;
    destruct (String.eqb h "?"); try apply produces_ret;
    (apply produces_bind;
     [apply produces_emit; apply Q_quiet; exact I | intros _]);
    (apply produces_bind; [apply produces_read_line | intros line]).
  - apply produces_ret.
  - apply IH.
Qed.

Lemma produces_while_help p hl h : produces Q (while_help p hl h).
Proof.
  intros st. unfold while_help. apply (produces_help_loop p hl (stdin st) h).
Qed.

Lemma produces_show_rows {w : world} srvs : forall prev padding,
  produces Q (Host.show_rows srvs prev padding).
Proof.
  induction srvs as [| srv rest IH]; intros prev padding; simpl.
  - apply produces_ret.
  - apply produces_bind; [apply produces_lift | intros service].
    destruct (py_eq prev service).
    + apply produces_bind; [apply produces_lift | intros srv'].
      apply produces_bind; [| intros _; apply IH].
      apply produces_emit. apply Q_quiet. exact I.
    + apply produces_bind; [| intros _; apply IH].
      apply produces_emit. apply Q_quiet. exact I.
Qed.

End Produces.

(** One step of a handler at a time; [ev] proves [Q] of a request or of a call
    of the history object, [special] is tried first on every step. *)
Ltac unfold_calls :=
  unfold cli_warning, cli_info, request, get, post, patch, delete, print,
    history.record_get, history.record_post, history.record_patch,
    history.record_delete, history.record, history.undo, history.redo,
    history.print_history, permission.print_perm, permission.print_row,
    pass in |- *.

Ltac produce_steps Hn Ha Hq special ev :=
  unfold Host.item, Host.bound, int, Host.flag_value, when in |- *;
  repeat (intros; first [ special |
    lazymatch goal with
    | |- produces _ (bind (ask _) _) =>
        eapply produces_bind_ask; try exact Hn; try exact Ha
    | |- produces _ (bind (lift _) _) =>
        eapply produces_bind_lift; try exact Hn; try exact Ha
    | |- produces _ (@bind unit _ _ _) =>
        eapply produces_bind; try exact Hn; try exact Ha
    | |- produces _ (bind (ret _) _) =>
        eapply produces_bind_ret; cbv beta iota
    | |- produces _ (bind (raise _) _) =>
        eapply produces_bind_raise; try exact Hn
    | |- produces _ (bind (bind _ _) _) =>
        eapply produces_bind_assoc; cbv beta
    | |- produces _ (bind (if ?b then _ else _) _) => destruct b eqn:?
    | |- produces _ (bind (match ?x with _ => _ end) _) => destruct x eqn:?
    | |- produces _ (bind _ _) =>
        eapply produces_bind; try exact Hn; try exact Ha
    | |- produces _ (ret _) => eapply produces_ret; try exact Hn
    | |- produces _ (raise _) => eapply produces_raise; try exact Hn
    | |- produces _ (lift _) => eapply produces_lift; try exact Hn
    | |- produces _ (ask _) => eapply produces_ask; try exact Hn
    | |- produces _ get_hist => eapply produces_get_hist; try exact Hn
    | |- produces _ (set_hist _) => eapply produces_set_hist; try exact Hn
    | |- produces _ (attempt _) => eapply produces_attempt
    | |- produces _ (for_each _ _) =>
        eapply produces_for_each; try exact Hn; try exact Ha
    | |- produces _ (input _) =>
        eapply produces_read_line; try exact Hn; try exact Ha; try exact Hq
    | |- produces _ (arg_or_input _ _ _) =>
        eapply produces_arg_or_input;
        try exact Hn; try exact Ha; try exact Hq
    | |- produces _ (while_help _ _ _) =>
        eapply produces_while_help; try exact Hn; try exact Ha; try exact Hq
    | |- produces _ (Host.show_rows _ _ _) =>
        eapply produces_show_rows; try exact Hn; try exact Ha; try exact Hq
    | |- produces _ (emit ?e) =>
        eapply produces_emit; first [apply Hq; exact I | ev]
    | |- produces _ (if ?b then _ else _) => destruct b eqn:?
    | |- produces _ (match ?x with _ => _ end) => destruct x eqn:?
    | |- produces _ _ => progress unfold_calls
    end ]).

Ltac produce_with Hn Ha Hq ev := produce_steps Hn Ha Hq fail ev.

Ltac unfold_handlers :=
  unfold History.opt_print, History.opt_redo, History.opt_undo,
    Host.opt_info, Host.opt_remove, Host.opt_add, Host.opt_set_contact,
    Host.opt_set_comment, Host.opt_rename, Host.opt_a_add, Host.opt_a_remove,
    Host.opt_a_change, Host.opt_a_show, Host.opt_aaaa_add,
    Host.opt_aaaa_remove, Host.opt_aaaa_change, Host.opt_aaaa_show,
    Host.opt_ttl_set, Host.opt_ttl_remove, Host.opt_ttl_show,
    Host.opt_cname_add, Host.opt_cname_remove, Host.opt_cname_show,
    Host.opt_loc_set, Host.opt_loc_remove, Host.opt_loc_show,
    Host.opt_hinfo_set, Host.opt_hinfo_remove, Host.opt_hinfo_show,
    Host.opt_srv_add, Host.opt_srv_remove, Host.opt_srv_show,
    Host.opt_txt_add, Host.opt_txt_remove, Host.opt_used_list,
    Zone.opt_create, Zone.opt_delete, Zone.opt_set_ns, Zone.opt_set_soa,
    Subnet.opt_info, Subnet.opt_set_vlan, Subnet.opt_set_description,
    Subnet.opt_set_name_prefix, Subnet.opt_set_dns_delegated,
    Subnet.opt_unset_dns_delegated, Subnet.opt_set_reserved,
    Subnet.opt_import, permission.network_list, permission.network_add,
    permission.network_remove in |- *.

(** The handlers of a table, one by one. *)
Ltac each_option H :=
  unfold history_options, host_options, zone_options, subnet_options,
    permission_commands in H;
  simpl in H;
  repeat (destruct H as [H | H]; [inversion H; subst; clear H |]);
  [.. | contradiction].

(** ** The history object *)

Section HistoryFacts.
Context {w : world}.

Lemma lookup_set_undone_same n b h e :
  history.lookup n h = Some e ->
  history.lookup n (history.set_undone n b h) = Some (history.with_undone b e).
Proof.
  unfold history.lookup, history.set_undone.
  induction h as [| x h IH]; simpl; intros H; [discriminate |].
  destruct (seqno x =? n) eqn:E; simpl.
  - rewrite E. congruence.
  - rewrite E. auto.
Qed.

Lemma lookup_set_undone_other n k b h :
  k <> n ->
  history.lookup k (history.set_undone n b h) = history.lookup k h.
Proof.
  intros Hk. unfold history.lookup, history.set_undone.
  induction h as [| x h IH]; simpl; [reflexivity |].
  destruct (seqno x =? n) eqn:E; simpl.
  - apply Z.eqb_eq in E.
    destruct (seqno x =? k) eqn:E'; [apply Z.eqb_eq in E'; lia | exact IH].
  - destruct (seqno x =? k); [reflexivity | exact IH].
Qed.

Lemma set_undone_flags_only n b h :
  map (history.with_undone false) (history.set_undone n b h)
  = map (history.with_undone false) h.
Proof.
  unfold history.set_undone. rewrite map_map. apply map_ext.
  intros x. destruct (seqno x =? n); reflexivity.
Qed.

Lemma set_undone_same_record n b h :
  Forall2 same_record h (history.set_undone n b h).
Proof.
  unfold history.set_undone.
  induction h as [| x h IH]; simpl; constructor; [| exact IH].
  destruct (seqno x =? n); repeat split.
Qed.

Lemma undo_request st n e m payload :
  history.lookup n (hist st) = Some e ->
  undoable e = true ->
  undone e = false ->
  history.compensating e = Some (m, url e, payload) ->
  compensated st n e m payload.
Proof.
  intros Hl Hu Hd Hc. unfold compensated.
  assert (E : history.undo n st =
    match http (events st ++ [Http m (url e) payload]) m (url e) payload with
    | Ok _ =>
        (Ok tt, mk_state (stdin st) (history.set_undone n true (hist st))
                  (events st ++ [Http m (url e) payload]))
    | Err cause =>
        (Err (UpstreamFailure cause),
         mk_state (stdin st) (hist st)
           (events st ++ [Http m (url e) payload]))
    end).
  { unfold history.undo, bind, get_hist. simpl. rewrite Hl, Hu, Hd, Hc. simpl.
    unfold attempt, request, bind, emit, ask, set_hist, raise. simpl.
    destruct (http _ m (url e) payload); reflexivity. }
  split.
  - apply emitted_app. rewrite E.
    destruct (http _ m (url e) payload); reflexivity.
  - unfold outcome. rewrite E.
    destruct (http _ m (url e) payload); simpl.
    + split; [reflexivity |]. split; [| split].
      * exists (history.with_undone true e). split.
        -- apply lookup_set_undone_same. exact Hl.
        -- split; [reflexivity | repeat split].
      * intros k Hk. apply lookup_set_undone_other. exact Hk.
      * apply set_undone_same_record.
    + split; [reflexivity |]. split; [reflexivity | exact Hl].
Qed.

Lemma undo_get st n e :
  history.lookup n (hist st) = Some e ->
  method e = GET ->
  history.undo n st = (Err NotUndoable, st).
Proof.
  intros Hl Hm. unfold history.undo, bind, get_hist. simpl. rewrite Hl.
  destruct (negb (undoable e) || undone e); [reflexivity |].
  unfold history.compensating. rewrite Hm. reflexivity.
Qed.

End HistoryFacts.

(** C1: an undo that passes the checks (the number is recorded, the entry is
    undoable and not yet undone) issues exactly one request, to the entry's
    URL: DELETE for a recorded POST, PATCH with the old data for a recorded
    PATCH, POST with the old data for a recorded DELETE; when that request
    succeeds the undone flag of the entry is true afterwards, and nothing
    else of the log has changed; when it fails the log is left as it was,
    the entry with its undone flag still false, and the failure is reported.
    (A GET entry has no such call: it is refused and nothing is
    requested.) *)
Theorem undo_compensates {w : world} (st : state) (n : Z) (e : HistoryEntry) :
  history.lookup n (hist st) = Some e ->
  undoable e = true ->
  undone e = false ->
  match method e with
  | POST => compensated st n e DELETE []
  | PATCH => compensated st n e PATCH (old_data e)
  | DELETE => compensated st n e POST (old_data e)
  | GET =>
      emitted (history.undo n) st = [] /\
      outcome (history.undo n) st = Err NotUndoable /\
      hist (snd (history.undo n st)) = hist st
  end.
Proof.
  intros Hl Hu Hd.
  destruct (method e) eqn:Hm.
  - unfold emitted, outcome. rewrite (undo_get st n Hl Hm). simpl.
    rewrite skipn_all. auto.
  - apply undo_request; auto. unfold history.compensating. rewrite Hm.
    reflexivity.
  - apply undo_request; auto. unfold history.compensating. rewrite Hm.
    reflexivity.
  - apply undo_request; auto. unfold history.compensating. rewrite Hm.
    reflexivity.
Qed.

(** ** Properties of every call of a kind *)

Section Eventwise.
Context {w : world}.
Variable P : event -> Prop.
Hypothesis P_quiet : forall e, quiet e -> P e.

Lemma each_nil : Forall P [].
Proof. constructor. Qed.

Lemma each_app a b : Forall P a -> Forall P b -> Forall P (a ++ b).
Proof. intros. apply Forall_app. auto. Qed.

Lemma each_quiet e : quiet e -> Forall P [e].
Proof. intros H. constructor; [apply P_quiet; exact H | constructor]. Qed.

End Eventwise.

(** ** Dictionaries *)

Lemma dict_set_nonempty d k v : dict_set d k v <> [].
Proof.
  destruct d as [| [k' v'] d]; simpl; [discriminate |].
  destruct (String.eqb k' k); discriminate.
Qed.

Lemma dict_get_nonempty d k v : dict_get d k = Ok v -> d <> [].
Proof. intros H ->. discriminate H. Qed.

Lemma dict_get_find d k v : dict_get d k = Ok v <-> dict_find d k = Some v.
Proof.
  unfold dict_get. destruct (dict_find d k); split; congruence.
Qed.

Lemma keys_dict_set d k v v' :
  dict_find d k = Some v' -> keys (dict_set d k v) = keys d.
Proof.
  induction d as [| [k0 v0] d IH]; simpl; intros H; [discriminate |].
  destruct (String.eqb k0 k); simpl; [reflexivity |].
  f_equal. apply IH. exact H.
Qed.

Lemma dict_find_set_same d k v : dict_find (dict_set d k v) k = Some v.
Proof.
  induction d as [| [k0 v0] d IH]; simpl.
  - rewrite String.eqb_refl. reflexivity.
  - destruct (String.eqb k0 k) eqn:E; simpl; rewrite E; auto.
Qed.

Lemma dict_find_set_other d k v k' :
  k' <> k -> dict_find (dict_set d k v) k' = dict_find d k'.
Proof.
  intros Hk. induction d as [| [k0 v0] d IH]; simpl.
  - destruct (String.eqb_spec k k'); [congruence | reflexivity].
  - destruct (String.eqb_spec k0 k); simpl.
    + subst k0. destruct (String.eqb_spec k k'); [congruence | reflexivity].
    + destruct (String.eqb k0 k'); [reflexivity | exact IH].
Qed.

Lemma append_assoc (a b c : string) :
  ((a ++ b) ++ c)%string = (a ++ (b ++ c))%string.
Proof.
  induction a as [| ch a IH]; simpl; [reflexivity | rewrite IH; reflexivity].
Qed.

(** A URL ends with its last piece. *)
Lemma server_url_suffix {w : world} (path last : string) :
  exists prefix, server_url [path; last] = (prefix ++ last)%string.
Proof.
  exists (format ["http://"; server_ip; ":"; server_port; path]).
  unfold server_url, format. simpl.
  rewrite !append_assoc. simpl. rewrite !append_assoc. reflexivity.
Qed.

Section EventwiseClaims.
Context {w : world}.

Lemma patch_symmetric_run m :
  handler_run m -> produces (Forall patch_symmetric) m.
Proof.
  assert (Hq : forall e, quiet e -> Forall patch_symmetric [e])
    by (apply each_quiet; intros [] H; try exact I; destruct H).
  pose proof (each_nil patch_symmetric) as Hn.
  pose proof (each_app (P := patch_symmetric)) as Ha.
  intros [name opt args H -> | name cmd args H ->]; each_option H;
    unfold_handlers;
    produce_with Hn Ha Hq ltac:(repeat constructor).
Qed.

Lemma patch_flags_run m :
  handler_run m -> produces (Forall patch_flags) m.
Proof.
  assert (Hq : forall e, quiet e -> Forall patch_flags [e])
    by (apply each_quiet; intros [] H; try exact I; destruct H).
  pose proof (each_nil patch_flags) as Hn.
  pose proof (each_app (P := patch_flags)) as Ha.
  intros [name opt args H -> | name cmd args H ->]; each_option H;
    unfold_handlers;
    produce_with Hn Ha Hq
      ltac:(constructor; [| constructor]; simpl;
            first [ exact I
                  | split; reflexivity
                  | split; [reflexivity |]; split; [reflexivity |];
                    match goal with
                    | |- exists k old prefix,
                           [(?key, VStr ?x)] = _ /\ server_url [?p; ?x] = _ =>
                        destruct (server_url_suffix p x) as [prefix E];
                        exists key, x, prefix; split; [reflexivity | exact E]
                    end ]).
Qed.

Lemma delete_not_redoable_run m :
  handler_run m -> produces (Forall delete_not_redoable) m.
Proof.
  assert (Hq : forall e, quiet e -> Forall delete_not_redoable [e])
    by (apply each_quiet; intros [] H; try exact I; destruct H).
  pose proof (each_nil delete_not_redoable) as Hn.
  pose proof (each_app (P := delete_not_redoable)) as Ha.
  intros [name opt args H -> | name cmd args H ->]; each_option H;
    unfold_handlers;
    produce_with Hn Ha Hq
      ltac:(constructor; [| constructor]; simpl;
            first [exact I | intros; reflexivity]).
Qed.

(** A dict that was read, or written, is not empty. *)
Ltac not_empty :=
  first
    [ discriminate
    | apply dict_set_nonempty
    | match goal with
      | H : dict_get ?d _ = Ok _ |- ?d <> [] =>
          apply (dict_get_nonempty _ H)
      end ].

Lemma delete_snapshot_run m :
  handler_run m -> produces (Forall delete_snapshot) m.
Proof.
  assert (Hq : forall e, quiet e -> Forall delete_snapshot [e])
    by (apply each_quiet; intros [] H; try exact I; destruct H).
  pose proof (each_nil delete_snapshot) as Hn.
  pose proof (each_app (P := delete_snapshot)) as Ha.
  intros [name opt args H -> | name cmd args H ->]; each_option H;
    unfold_handlers;
    produce_with Hn Ha Hq
      ltac:(constructor; [| constructor]; simpl;
            first
              [ exact I
              | split; [reflexivity | discriminate]
              | match goal with
                | |- (?od = [] -> _) /\ _ =>
                    assert (Hne : od <> []) by not_empty;
                    split; [intros Hd; destruct (Hne Hd) | intros _; exact Hne]
                end ]).
Qed.

End EventwiseClaims.

Section HostSnapshot.
Context {w : world}.

Lemma host_snapshot_run args :
  produces (Forall host_snapshot) (Host.opt_remove args).
Proof.
  assert (Hq : forall e, quiet e -> Forall host_snapshot [e])
    by (apply each_quiet; intros [] H; try exact I; destruct H).
  pose proof (each_nil host_snapshot) as Hn.
  pose proof (each_app (P := host_snapshot)) as Ha.
  unfold_handlers.
  produce_with Hn Ha Hq
    ltac:(constructor; [| constructor]; simpl; try exact I).
  - match goal with
    | Hi : host_info_by_name_or_ip ?tr ?who = Ok ?info,
      Hg : dict_get ?info "ipaddress" = Ok ?ips,
      Hl : py_len ?ips = Ok ?n,
      Hf : py_first ?ips = Ok ?first,
      Hp : py_getitem ?first "ipaddress" = Ok ?ip |- _ =>
        exists tr, who, info, ips, n; repeat split; auto;
        [ intros Hle;
          match goal with
          | Hb : (n >? 0) = true |- _ => apply Z.gtb_lt in Hb; lia
          end
        | intros _; exists first, ip; repeat split; auto ]
    end.
    + apply dict_get_find in H0. apply (keys_dict_set _ _ _ H0).
    + apply dict_get_find. apply dict_find_set_same.
    + intros k Hk. apply dict_find_set_other. exact Hk.
  - match goal with
    | Hi : host_info_by_name_or_ip ?tr ?who = Ok ?info,
      Hg : dict_get ?info "ipaddress" = Ok ?ips,
      Hl : py_len ?ips = Ok ?n,
      Hb : (?n >? 0) = false |- _ =>
        exists tr, who, info, ips, n; repeat split; auto;
        intros Hlt; rewrite Z.gtb_ltb in Hb; apply Z.ltb_ge in Hb; lia
    end.
Qed.

End HostSnapshot.

(** ** The claims about the calls of the history object *)

(** C3: in every run of every command handler, each call of record_patch
    passes new data and old data with the same keys. *)
Theorem record_patch_same_keys {w : world} (m : M unit) (st : state)
  (url : string) (new_data old_data : dict) (un re : option bool) :
  handler_run m ->
  In (Recorded (call_record_patch url new_data old_data un re))
     (emitted m st) ->
  keys new_data = keys old_data.
Proof.
  intros Hm Hin.
  pose proof (patch_symmetric_run Hm) as H.
  apply produces_emitted with (st := st) in H.
  rewrite Forall_forall in H. exact (H _ Hin).
Qed.

(** C4: in every run of every command handler, a call of record_patch whose
    new data replace the resource's identifying key (the host name, the
    address of an address record; the old value of the key is then the end of
    the target URL) passes undoable=False and redoable=False, and every other
    call of record_patch passes neither flag, so that both keep their
    default. *)
Theorem record_patch_flags {w : world} (m : M unit) (st : state)
  (url : string) (new_data old_data : dict) (un re : option bool) :
  handler_run m ->
  In (Recorded (call_record_patch url new_data old_data un re))
     (emitted m st) ->
  if changes_identifying_key new_data then
    un = Some false /\ re = Some false /\
    exists k old prefix,
      old_data = [(k, VStr old)] /\ url = (prefix ++ old)%string
  else
    un = None /\ re = None /\
    forall n,
      let e := history.entry_of_call n
                 (call_record_patch url new_data old_data un re) in
      undoable e = true /\ redoable e = true.
Proof.
  intros Hm Hin.
  pose proof (patch_flags_run Hm) as H.
  apply produces_emitted with (st := st) in H.
  rewrite Forall_forall in H. specialize (H _ Hin). simpl in H.
  destruct (changes_identifying_key new_data); [exact H |].
  destruct H as [-> ->]. repeat split.
Qed.

Lemma record_appends {w : world} (c : history_call) (st : state) :
  history.accepted c = true ->
  hist (snd (history.record c st))
  = hist st ++ [history.entry_of_call (history.next_seqno (hist st)) c].
Proof.
  intros H. unfold history.record, bind, emit, get_hist, set_hist. simpl.
  rewrite H. reflexivity.
Qed.

(** C5: record_delete leaves redoable false when the call does not pass it,
    while record_post and record_patch leave both flags true; and in every
    run of every command handler the entry of each record_delete call (the
    entry that the call appends to the log) is not redoable. *)
Theorem record_delete_not_redoable {w : world} (m : M unit) (st : state) :
  handler_run m ->
  (forall n u od un,
     redoable (history.entry_of_call n (call_record_delete u od un None))
     = false) /\
  (forall n u name nd,
     let e := history.entry_of_call n (call_record_post u name nd None None) in
     undoable e = true /\ redoable e = true) /\
  (forall n u nd od,
     let e := history.entry_of_call n (call_record_patch u nd od None None) in
     undoable e = true /\ redoable e = true) /\
  (forall u od un re,
     In (Recorded (call_record_delete u od un re)) (emitted m st) ->
     forall st0,
       let c := call_record_delete u od un re in
       let e := history.entry_of_call (history.next_seqno (hist st0)) c in
       hist (snd (history.record c st0)) = hist st0 ++ [e] /\
       method e = DELETE /\ redoable e = false).
Proof.
  intros Hm.
  split; [reflexivity |].
  split; [intros; split; reflexivity |].
  split; [intros; split; reflexivity |].
  intros u od un re Hin st0. cbv zeta.
  split; [apply record_appends; reflexivity |].
  split; [reflexivity |].
  pose proof (delete_not_redoable_run Hm) as H.
  apply produces_emitted with (st := st) in H.
  rewrite Forall_forall in H. apply (H _ Hin).
Qed.

(** C6, as amended: in every run of every command handler, a record_delete
    call with empty old data passes undoable=False and a record_delete call
    whose entry is undoable carries old data that are not empty; the undoable
    delete of a host carries the host's info as the server gave it, except
    that with one address or more the ipaddress field is the address string
    of the first, while a host without addresses keeps its empty list. *)
Theorem record_delete_snapshot {w : world} (m : M unit) (st : state) :
  handler_run m ->
  Forall delete_snapshot (emitted m st) /\
  (forall args, m = Host.opt_remove args -> Forall host_snapshot (emitted m st)).
Proof.
  intros Hm. split.
  - apply produces_emitted. apply (delete_snapshot_run Hm).
  - intros args ->. apply produces_emitted. apply host_snapshot_run.
Qed.

(** The run of a handler of the sample installation. *)
Ltac sample_run option :=
  eapply run_option with (name := option);
  [ unfold history_options, host_options, zone_options, subnet_options;
    simpl; repeat (first [left; reflexivity | right])
  | reflexivity ].

Lemma record_patch_same_keys_witness :
  keys [("ttl", VStr "600")] = keys [("ttl", VInt (-1))].
Proof.
  apply (@record_patch_same_keys sample.installation
           (Host.opt_ttl_set (w := sample.installation)
              ["a.example.org"; "600"]) sample.fresh
           "http://127.0.0.1:8000/hosts/a.example.org"
           [("ttl", VStr "600")] [("ttl", VInt (-1))] None None).
  - sample_run "ttl_set".
  - vm_compute. left. reflexivity.
Defined.

Lemma record_patch_flags_witness :
  Some false = Some false /\ Some false = Some false /\
  exists k old prefix,
    [("name", VStr "a.example.org")] = [(k, VStr old)] /\
    "http://127.0.0.1:8000/hosts/a.example.org" = (prefix ++ old)%string.
Proof.
  apply (@record_patch_flags sample.installation
           (Host.opt_rename (w := sample.installation)
              ["a.example.org"; "b.example.org"]) sample.fresh
           "http://127.0.0.1:8000/hosts/a.example.org"
           [("name", VStr "b.example.org")] [("name", VStr "a.example.org")]
           (Some false) (Some false)).
  - sample_run "rename".
  - vm_compute. left. reflexivity.
Defined.

Lemma record_delete_not_redoable_witness :
  redoable
    (history.entry_of_call 1
       (call_record_delete "http://127.0.0.1:8000/ipaddresses/10.0.0.1"
          [("hostid", VInt 1); ("ipaddress", VStr "10.0.0.1")] None None))
  = false.
Proof.
  assert (H : @handler_run sample.installation
                (Host.opt_a_remove (w := sample.installation)
                   ["a.example.org"; "10.0.0.1"]))
    by sample_run "a_remove".
  destruct (@record_delete_not_redoable sample.installation _ sample.fresh H)
    as (_ & _ & _ & Hd).
  apply (Hd "http://127.0.0.1:8000/ipaddresses/10.0.0.1"
            [("hostid", VInt 1); ("ipaddress", VStr "10.0.0.1")] None None
            (or_introl eq_refl) sample.fresh).
Defined.

Lemma record_delete_snapshot_witness :
  Forall delete_snapshot
    (emitted (Host.opt_remove (w := sample.installation) ["a.example.org"])
       sample.fresh) /\
  Forall (@host_snapshot sample.installation)
    (emitted (Host.opt_remove (w := sample.installation) ["a.example.org"])
       sample.fresh).
Proof.
  assert (H : @handler_run sample.installation
                (Host.opt_remove (w := sample.installation)
                   ["a.example.org"]))
    by sample_run "remove".
  destruct (@record_delete_snapshot sample.installation _ sample.fresh H)
    as [Hs Hf].
  split; [exact Hs | exact (Hf _ eq_refl)].
Defined.

(** C6 as the spec has it fails for a host without addresses: the delete of
    [bare.example.org] is recorded as undoable with the list of addresses,
    empty, in the place of an address. *)
Lemma host_without_address_not_flat :
  ~ (forall (w : world) (m : M unit) (st : state),
       handler_run m ->
       Forall delete_snapshot (emitted m st) /\
       (forall args,
          m = Host.opt_remove args ->
          Forall host_snapshot_flat (emitted m st))).
Proof.
  intros H.
  assert (Hr : @handler_run sample.installation
                 (Host.opt_remove (w := sample.installation)
                    ["bare.example.org"]))
    by sample_run "remove".
  destruct (H sample.installation _ sample.fresh Hr) as [_ H'].
  specialize (H' _ eq_refl).
  set (evs := emitted _ _) in H'. vm_compute in evs. subst evs.
  apply Forall_inv in H'. destruct H' as [ip Hip]. discriminate Hip.
Qed.

(** ** Creations and their records *)

Section Blocks.
Context {w : world}.
Variable ok : string -> dict -> option bool -> option bool -> dict -> Prop.

Lemma blocks_app a b :
  in_blocks ok a -> in_blocks ok b -> in_blocks ok (a ++ b).
Proof.
  intros Ha Hb. induction Ha; simpl.
  - exact Hb.
  - apply blocks_other; assumption.
  - apply blocks_post; assumption.
  - apply blocks_get; assumption.
Qed.

Lemma blocks_single e :
  (forall u p, e <> Http POST u p) ->
  (forall u s, e <> Recorded (call_record_get u s)) ->
  in_blocks ok [e].
Proof. intros. apply blocks_other; auto. apply blocks_nil. Qed.

Lemma blocks_quiet e : quiet e -> in_blocks ok [e].
Proof.
  intros H. apply blocks_single; intros; intros ->; exact H.
Qed.

Lemma blocks_posts evs :
  in_blocks ok evs ->
  forall pre u p post,
    evs = pre ++ Http POST u p :: post ->
    exists pre' name nd un re,
      pre = pre' ++ [Recorded (call_record_post u name nd un re)] /\
      ok u nd un re p.
Proof.
  induction 1 as [| e evs Hp Hg Hb IH | u0 name nd un re p0 evs Hok Hb IH
                  | u0 evs Hb IH]; intros pre u p post E.
  - destruct pre; discriminate E.
  - destruct pre as [| x pre]; simpl in E.
    + injection E as E _. destruct (Hp _ _ E).
    + injection E as E1 E. subst x.
      destruct (IH _ _ _ _ E) as (pre' & n & d & a & b & -> & Hk).
      exists (e :: pre'), n, d, a, b. auto.
  - destruct pre as [| x [| y pre]]; simpl in E.
    + discriminate E.
    + injection E as E0 E1 E2 _. subst.
      exists [], name, nd, un, re. auto.
    + injection E as E1 E2 E. subst x y.
      destruct (IH _ _ _ _ E) as (pre' & n & d & a & b & -> & Hk).
      exists (Recorded (call_record_post u0 name nd un re)
                :: Http POST u0 p0 :: pre'), n, d, a, b. auto.
  - destruct pre as [| x [| y pre]]; simpl in E.
    + discriminate E.
    + discriminate E.
    + injection E as E1 E2 E. subst x y.
      destruct (IH _ _ _ _ E) as (pre' & n & d & a & b & -> & Hk).
      exists (Recorded (call_record_get u0 [])
                :: Http GET u0 [] :: pre'), n, d, a, b. auto.
Qed.

Lemma blocks_gets evs :
  in_blocks ok evs ->
  forall pre u s post,
    evs = pre ++ Recorded (call_record_get u s) :: post ->
    s = [] /\ exists post', post = Http GET u [] :: post'.
Proof.
  induction 1 as [| e evs Hp Hg Hb IH | u0 name nd un re p0 evs Hok Hb IH
                  | u0 evs Hb IH]; intros pre u s post E.
  - destruct pre; discriminate E.
  - destruct pre as [| x pre]; simpl in E.
    + injection E as E _. destruct (Hg _ _ E).
    + injection E as _ E. apply (IH _ _ _ _ E).
  - destruct pre as [| x [| y pre]]; simpl in E.
    + discriminate E.
    + discriminate E.
    + injection E as _ _ E. apply (IH _ _ _ _ E).
  - destruct pre as [| x [| y pre]]; simpl in E.
    + injection E as E1 E2 E. subst. split; [reflexivity |]. eauto.
    + discriminate E.
    + injection E as _ _ E. apply (IH _ _ _ _ E).
Qed.

Lemma blocks_recorded evs : in_blocks ok evs -> creations_recorded ok evs.
Proof.
  intros H. split.
  - apply blocks_posts. exact H.
  - apply blocks_gets. exact H.
Qed.

(** [record_post] and the POST that follows it. *)
Lemma produces_recorded_post {B} u name nd un re p (k : unit -> M B) :
  ok u nd un re p ->
  (forall x, produces (in_blocks ok) (k x)) ->
  produces (in_blocks ok)
    (bind (history.record_post u name nd un re) (fun _ => bind (post u p) k)).
Proof.
  intros Hok Hk st.
  unfold history.record_post, history.record, post, request, bind, emit,
    get_hist, set_hist, ask, ret. simpl.
  destruct (http _ POST u p) as [v | e].
  - match goal with
    | |- context [k tt ?s] => destruct (Hk tt s) as (evs & E & Hb)
    end.
    exists (Recorded (call_record_post u name nd un re) :: Http POST u p :: evs).
    split.
    + rewrite E. simpl. rewrite <- !app_assoc. reflexivity.
    + apply blocks_post; assumption.
  - exists [Recorded (call_record_post u name nd un re); Http POST u p].
    split.
    + simpl. rewrite <- app_assoc. reflexivity.
    + apply blocks_post; [assumption | apply blocks_nil].
Qed.

(** The same with two reads between the record and the POST. *)
Lemma produces_recorded_post_late {B} u name nd un re
  (r1 r2 : result value) (p : value -> value -> dict)
  (k : value -> value -> unit -> M B) :
  (forall a b, ok u nd un re (p a b)) ->
  (forall a b x, produces (in_blocks ok) (k a b x)) ->
  produces (in_blocks ok)
    (bind (history.record_post u name nd un re) (fun _ =>
       bind (lift r1) (fun a =>
         bind (lift r2) (fun b => bind (post u (p a b)) (k a b))))).
Proof.
  intros Hok Hk.
  destruct r1 as [a | e1]; [destruct r2 as [b | e2] |].
  - intros st.
    destruct (@produces_recorded_post B u name nd un re (p a b) (k a b)
                (Hok a b) (Hk a b) st) as (evs & E & Hb).
    exists evs. split; [| exact Hb]. rewrite <- E. reflexivity.
  - intros st.
    exists [Recorded (call_record_post u name nd un re)]. split.
    + reflexivity.
    + apply blocks_single; intros; discriminate.
  - intros st.
    exists [Recorded (call_record_post u name nd un re)]. split.
    + reflexivity.
    + apply blocks_single; intros; discriminate.
Qed.

(** [record_get] and the GET that follows it. *)
Lemma produces_recorded_get {B} u (k : value -> M B) :
  (forall x, produces (in_blocks ok) (k x)) ->
  produces (in_blocks ok)
    (bind (history.record_get u []) (fun _ => bind (get u) k)).
Proof.
  intros Hk st.
  unfold history.record_get, history.record, get, request, bind, emit,
    get_hist, set_hist, ask. simpl.
  destruct (http _ GET u []) as [v | e].
  - match goal with
    | |- context [k v ?s] => destruct (Hk v s) as (evs & E & Hb)
    end.
    exists (Recorded (call_record_get u []) :: Http GET u [] :: evs).
    split.
    + rewrite E. simpl. rewrite <- !app_assoc. reflexivity.
    + apply blocks_get; assumption.
  - exists [Recorded (call_record_get u []); Http GET u []].
    split.
    + simpl. rewrite <- app_assoc. reflexivity.
    + apply blocks_get. apply blocks_nil.
Qed.

End Blocks.

Ltac recorded_request ok_tac :=
  lazymatch goal with
  | |- produces _ (bind (history.record_post _ _ _ _ _)
                     (fun _ => bind (bind _ _) _)) =>
      eapply produces_bind_assoc_under; cbv beta
  | |- produces _ (bind (history.record_get _ _)
                     (fun _ => bind (bind _ _) _)) =>
      eapply produces_bind_assoc_under; cbv beta
  | |- produces _ (bind (history.record_post _ _ _ _ _)
                     (fun _ => bind (post _ _) _)) =>
      eapply produces_recorded_post; [ok_tac | intros]
  | |- produces _ (bind (history.record_post _ _ _ _ _)
                     (fun _ => bind (lift _) _)) =>
      eapply produces_recorded_post_late; [intros; ok_tac | intros]
  | |- produces _ (bind (history.record_get _ [])
                     (fun _ => bind (get _) _)) =>
      eapply produces_recorded_get; intros
  end.

Section Creations.
Context {w : world}.

Lemma creations_run name opt args :
  In (name, opt) (host_options ++ zone_options ++ subnet_options) ->
  produces (in_blocks payload_or_nothing) (opt args).
Proof.
  pose proof (blocks_nil payload_or_nothing) as Hn.
  pose proof (@blocks_app payload_or_nothing) as Ha.
  pose proof (@blocks_quiet payload_or_nothing) as Hq.
  intros H; each_option H; unfold_handlers;
    produce_steps Hn Ha Hq
      ltac:(idtac;
            recorded_request
              ltac:(first [ left; reflexivity
                          | right; repeat split;
                            first [ reflexivity
                                  | eexists; eexists; reflexivity ] ]))
      ltac:(apply blocks_single; intros; discriminate).
Qed.

Lemma creations_permission args :
  produces (in_blocks payload_or_nothing) (permission.network_list args) /\
  produces (in_blocks payload_or_nothing) (permission.network_remove args).
Proof.
  pose proof (blocks_nil payload_or_nothing) as Hn.
  pose proof (@blocks_app payload_or_nothing) as Ha.
  pose proof (@blocks_quiet payload_or_nothing) as Hq.
  split; unfold_handlers;
    produce_steps Hn Ha Hq fail
      ltac:(apply blocks_single; intros; discriminate).
Qed.

End Creations.

(** C2, as amended: in every run of a handler of the Host, Zone and Subnet
    commands and of network_list and network_remove, every HTTP POST comes
    right after a record_post call for the same URL, whose new data are the
    payload of the request, or are empty for the CNAME record that cname_add
    creates and records with undoable=False and redoable=False, where the
    payload is a hostid and a cname; and every record_get call has the URL
    as its only argument and comes right before the GET of that URL. *)
Theorem creations_are_recorded {w : world} (m : M unit) (st : state) :
  creating_run m ->
  creations_recorded payload_or_nothing (emitted m st).
Proof.
  intros Hm. apply blocks_recorded. apply produces_emitted.
  destruct Hm as [(name & opt & args & H & ->) | (args & [-> | ->])].
  - apply (@creations_run w name opt args H).
  - exact (proj1 (creations_permission args)).
  - exact (proj2 (creations_permission args)).
Qed.

Lemma creations_are_recorded_witness :
  creations_recorded (@payload_or_nothing sample.installation)
    (emitted
       (Host.opt_cname_add (w := sample.installation) ["a.example.org"; "www"])
       sample.fresh).
Proof.
  apply (@creations_are_recorded sample.installation).
  left.
  exists "cname_add", (Host.opt_cname_add (w := sample.installation)),
    ["a.example.org"; "www"].
  split; [| reflexivity].
  unfold host_options. simpl. repeat (first [left; reflexivity | right]).
Defined.

(** C2 as the spec has it fails for cname_add: the POST that creates the
    CNAME record carries the host id and the name, and is recorded with no
    new data. *)
Lemma cname_record_without_payload :
  ~ (forall (w : world) (m : M unit) (st : state),
       handler_run m ->
       creations_recorded payload_recorded (emitted m st)).
Proof.
  intros H.
  assert (Hr : @handler_run sample.installation
                 (Host.opt_cname_add (w := sample.installation)
                    ["a.example.org"; "www"]))
    by sample_run "cname_add".
  destruct (H sample.installation _ sample.fresh Hr) as [Hp _].
  set (evs := emitted _ _) in Hp. vm_compute in evs. subst evs.
  destruct
    (Hp ([Recorded
            (call_record_post "http://127.0.0.1:8000/hosts/" "www.example.org"
               [("name", VStr "www.example.org");
                ("contact", VStr "hostmaster@example.org")] None None);
          Http POST "http://127.0.0.1:8000/hosts/"
            [("name", VStr "www.example.org");
             ("contact", VStr "hostmaster@example.org")]]
         ++ [Recorded
               (call_record_post "http://127.0.0.1:8000/cnames/" "" []
                  (Some false) (Some false))])
        "http://127.0.0.1:8000/cnames/"
        [("hostid", VInt 3); ("cname", VStr "a.example.org")]
        [Informed "Added cname alias www.example.org for a.example.org" true]
        eq_refl)
    as (pre' & name & nd & un & re & E & Hnd).
  apply app_inj_tail in E. destruct E as [_ E].
  unfold payload_recorded in Hnd. subst nd. discriminate E.
Qed.

(** X16: the slip that the amended C2 leaves aside: network_add hands its
    POST, payload and all, to record_get, so that the log gets a GET entry
    (or the call is refused, when record_get takes the URL only, and nothing
    is created); an invalid range is warned of first, and stops the command
    when cli_warning raises. *)
Lemma network_add_records_a_get (w : world) (args : permission.Namespace)
  (st : state) :
  let data := [("range", permission.range args);
               ("group", permission.group args);
               ("regex", permission.regex args)] in
  let path := "/permissions/netgroupregex/" in
  exists rest,
    emitted (permission.network_add args) st
    = (if is_valid_network (permission.range args) then []
       else [Warned
               (format ["Invalid range: "; py_str (permission.range args)])
               false])
      ++ (if is_valid_network (permission.range args) || negb warning_raises
          then Recorded (call_record_get path [VStr ""; VDict data])
               :: (if surplus_accepted then Http POST path data :: rest
                   else [])
          else []) /\
    forall c, In (Recorded c) rest -> False.
Proof.
  cbv zeta. unfold permission.network_add, when, cli_warning, cli_info.
  unfold history.record_get, history.record, post, request.
  unfold emitted, bind, emit, raise, ret, pass, ask, get_hist, set_hist.
  destruct (is_valid_network (permission.range args)); simpl;
    [| destruct warning_raises; simpl];
    destruct surplus_accepted; simpl;
    try destruct (http _ POST _ _); simpl;
    rewrite <- ?app_assoc; simpl;
    rewrite skipn_app, skipn_all, Nat.sub_diag; simpl;
    first [ exists []; split; [reflexivity | intros c []]
          | eexists; split; [reflexivity |];
            intros c [Hc | []]; discriminate Hc ].
Qed.

Lemma undo_compensates_witness :
  @compensated sample.installation examples.after_ttl_set 1 examples.ttl_entry
    PATCH [("ttl", VInt (-1))].
Proof.
  exact (@undo_compensates sample.installation examples.after_ttl_set 1
           examples.ttl_entry eq_refl eq_refl eq_refl).
Defined.

(** ** The History command *)

(** C10: with no argument, undo and redo fail with IndexError, which the
    handler does not catch, and nothing else happens: no entry is looked up,
    nothing is reported, nothing is requested. *)
Theorem undo_redo_without_argument {w : world} (st : state) :
  History.opt_undo [] st = (Err IndexError, st) /\
  History.opt_redo [] st = (Err IndexError, st).
Proof. split; reflexivity. Qed.



(** ** Removing a permission *)

(** C9: network_remove asks the server for the permissions that match the
    range, the group and the regex.  With no match it warns and neither
    records nor requests anything; with more than one match the assertion
    fails before anything is recorded or requested; with exactly one match
    (that has an id) it records the delete and requests it.  So a DELETE is
    requested only when exactly one permission matches. *)
Theorem network_remove_guard {w : world} (args : permission.Namespace)
  (st : state) :
  let m := permission.network_remove args in
  let query := [("group", permission.group args);
                ("range", permission.range args);
                ("regex", permission.regex args)] in
  let matching :=
    get_list (events st)
      (format ["/permissions/netgroupregex/?"; urlencode query]) in
  match matching with
  | Ok [] =>
      emitted m st = [Warned "No matching permission found" true] /\
      hist (snd (m st)) = hist st
  | Ok [p] =>
      match py_getitem p "id" with
      | Ok id =>
          let path := format ["/permissions/netgroupregex/"; py_str id] in
          exists rest,
            emitted m st
            = Recorded (call_record_delete path [] (Some false) None)
              :: Http DELETE path [] :: rest /\
            forall e, In e rest -> quiet e
      | Err e => emitted m st = [] /\ outcome m st = Err e
      end
  | Ok (_ :: _ :: _) =>
      emitted m st = [] /\
      outcome m st = Err (AssertionError "Should only match one permission") /\
      hist (snd (m st)) = hist st
  | Err e => emitted m st = [] /\ outcome m st = Err e
  end /\
  (forall u p,
     In (Http DELETE u p) (emitted m st) -> exists one, matching = Ok [one]).
Proof.
  cbv zeta.
  set (m := permission.network_remove args).
  set (matching := get_list (events st) _).
  assert (Hnil : forall s : state, skipn (length (events s)) (events s) = [])
    by (intros; apply skipn_all).
  assert (Hone : forall (s : state) l,
            skipn (length (events s)) (events s ++ l) = l)
    by (intros; rewrite skipn_app, skipn_all, Nat.sub_diag; reflexivity).
  assert (Hrun : m st =
    match matching with
    | Ok [] => cli_warning "No matching permission found" true st
    | Ok [p] =>
        match py_getitem p "id" with
        | Ok id =>
            let path := format ["/permissions/netgroupregex/"; py_str id] in
            (history.record_delete path [] (Some false) None ;;;
             delete path ;;;
             cli_info
               (format ["Removed permission for ";
                        py_str (permission.range args)]) true) st
        | Err e => (Err e, st)
        end
    | Ok (_ :: _ :: _) =>
        (Err (AssertionError "Should only match one permission"), st)
    | Err e => (Err e, st)
    end).
  { unfold m, permission.network_remove, bind, ask. fold matching.
    destruct matching as [[| p [| q l]] | e].
    - reflexivity.
    - simpl. unfold lift. destruct (py_getitem p "id"); reflexivity.
    - simpl. destruct (Pos.of_succ_nat (length l)); reflexivity.
    - reflexivity. }
  assert (Hmain :
    match matching with
    | Ok [] =>
        emitted m st = [Warned "No matching permission found" true] /\
        hist (snd (m st)) = hist st
    | Ok [p] =>
        match py_getitem p "id" with
        | Ok id =>
            let path := format ["/permissions/netgroupregex/"; py_str id] in
            exists rest,
              emitted m st
              = Recorded (call_record_delete path [] (Some false) None)
                :: Http DELETE path [] :: rest /\
              forall e, In e rest -> quiet e
        | Err e => emitted m st = [] /\ outcome m st = Err e
        end
    | Ok (_ :: _ :: _) =>
        emitted m st = [] /\
        outcome m st
        = Err (AssertionError "Should only match one permission") /\
        hist (snd (m st)) = hist st
    | Err e => emitted m st = [] /\ outcome m st = Err e
    end).
  { unfold emitted, outcome. rewrite Hrun.
    destruct matching as [[| p [| q l]] | e].
    - unfold cli_warning, bind, emit, raise, ret. simpl.
      destruct warning_raises; simpl; rewrite Hone; split; reflexivity.
    - destruct (py_getitem p "id") as [id | e]; simpl.
      + unfold history.record_delete, history.record, delete, request,
          cli_info, bind, emit, ask, get_hist, set_hist, ret. simpl.
        destruct (http _ DELETE _ _); simpl; rewrite <- ?app_assoc; simpl;
          rewrite Hone.
        * eexists. split; [reflexivity |]. intros e [<- | []]. exact I.
        * exists []. split; [reflexivity |]. intros e0 [].
      + rewrite Hnil. split; reflexivity.
    - simpl. rewrite Hnil. repeat split.
    - simpl. rewrite Hnil. split; reflexivity. }
  split; [exact Hmain |].
  intros u p Hin.
  destruct matching as [[| one [| q l]] | e].
  - destruct Hmain as [E _]. rewrite E in Hin.
    destruct Hin as [H | []]. discriminate H.
  - exists one. reflexivity.
  - destruct Hmain as [E _]. rewrite E in Hin. destruct Hin.
  - destruct Hmain as [E _]. rewrite E in Hin. destruct Hin.
Qed.

(** ** Sorting networks *)

Section NetworkOrder.
Context {w : world}.

Lemma network_le_trans a b c :
  network_le a b -> network_le b c -> network_le a c.
Proof.
  unfold network_le. intros [Hv1 H1] [Hv2 H2]. split; [congruence | lia].
Qed.

Lemma network_lt_true a b : network_lt a b = Ok true -> network_le a b.
Proof.
  unfold network_lt, network_le.
  destruct (version a =? version b) eqn:Ev; simpl; [| discriminate].
  apply Z.eqb_eq in Ev.
  destruct (network_address a =? network_address b) eqn:Ea; simpl.
  - apply Z.eqb_eq in Ea.
    destruct (netmask a =? netmask b) eqn:Em; simpl; [discriminate |].
    intros H. injection H as H. apply Z.ltb_lt in H. split; [exact Ev | lia].
  - intros H. injection H as H. apply Z.ltb_lt in H. split; [exact Ev | lia].
Qed.

Lemma network_lt_false a b : network_lt a b = Ok false -> network_le b a.
Proof.
  unfold network_lt, network_le.
  destruct (version a =? version b) eqn:Ev; simpl; [| discriminate].
  apply Z.eqb_eq in Ev.
  destruct (network_address a =? network_address b) eqn:Ea; simpl.
  - apply Z.eqb_eq in Ea.
    destruct (netmask a =? netmask b) eqn:Em; simpl.
    + apply Z.eqb_eq in Em. intros _. split; [congruence | lia].
    + intros H. injection H as H. apply Z.ltb_ge in H.
      split; [congruence | lia].
  - apply Z.eqb_neq in Ea.
    intros H. injection H as H. apply Z.ltb_ge in H.
    split; [congruence | lia].
Qed.

Lemma insert_sorted_spec x n : forall l ns r,
  keyed_by x n ->
  Forall2 keyed_by l ns ->
  StronglySorted network_le ns ->
  insert_sorted x l = Ok r ->
  exists ns',
    Forall2 keyed_by r ns' /\
    Permutation (n :: ns) ns' /\
    StronglySorted network_le ns'.
Proof.
  intros l ns r Hx Hl. revert r.
  induction Hl as [| y ny l ns Hy Hl IH]; intros r Hs E; simpl in E.
  - injection E as <-. exists [n]. repeat split.
    + constructor; [exact Hx | constructor].
    + apply Permutation_refl.
    + constructor; constructor.
  - destruct Hx as [Kx Rx]. destruct Hy as [Ky Ry].
    rewrite Kx, Ky in E. simpl in E.
    inversion Hs as [| ? ? Hs' Hle]; subst.
    destruct (network_lt n ny) as [[|] | e] eqn:Elt; [| | discriminate].
    + injection E as <-. exists (n :: ny :: ns). repeat split.
      * repeat constructor; auto.
      * apply Permutation_refl.
      * apply network_lt_true in Elt.
        constructor; [exact Hs |]. constructor; [exact Elt |].
        eapply Forall_impl; [| exact Hle].
        intros c Hc. eapply network_le_trans; eassumption.
    + destruct (insert_sorted x l) as [r' | e] eqn:Er; [| discriminate].
      injection E as <-.
      destruct (IH r' Hs' eq_refl) as (ns' & Hk & Hp & Hsorted).
      exists (ny :: ns'). repeat split.
      * constructor; [split; assumption | exact Hk].
      * eapply Permutation_trans; [apply perm_swap |].
        apply perm_skip. exact Hp.
      * constructor; [exact Hsorted |].
        eapply Permutation_Forall; [exact Hp |].
        constructor; [apply network_lt_false; exact Elt | exact Hle].
Qed.

Lemma sort_keyed_spec : forall l ns acc nacc r,
  Forall2 keyed_by l ns ->
  Forall2 keyed_by acc nacc ->
  StronglySorted network_le nacc ->
  sort_keyed l acc = Ok r ->
  exists ns',
    Forall2 keyed_by r ns' /\
    Permutation (ns ++ nacc) ns' /\
    StronglySorted network_le ns'.
Proof.
  intros l ns acc nacc r Hl. revert acc nacc r.
  induction Hl as [| x n l ns Hx Hl IH]; intros acc nacc r Ha Hs E;
    simpl in E.
  - injection E as <-. exists nacc. repeat split; auto.
  - destruct (insert_sorted x acc) as [acc' | e] eqn:Ei; [| discriminate].
    destruct (@insert_sorted_spec x n acc nacc acc' Hx Ha Hs Ei) as (nacc' & Hk & Hp & Hs').
    destruct (IH _ _ _ Hk Hs' E) as (ns' & Hk' & Hp' & Hs'').
    exists ns'. repeat split; auto.
    eapply Permutation_trans; [| exact Hp'].
    simpl. eapply Permutation_trans; [apply Permutation_middle |].
    apply Permutation_app_head. exact Hp.
Qed.

Lemma with_keys_spec : forall l ns dec,
  Forall2 has_range l ns ->
  with_keys (itemgetter "range") l = Ok dec ->
  Forall2 keyed_by dec ns.
Proof.
  intros l ns dec Hl. revert dec.
  induction Hl as [| i n l ns Hi Hl IH]; intros dec E; simpl in E.
  - injection E as <-. constructor.
  - unfold itemgetter in E at 1. rewrite Hi in E.
    destruct (with_keys (itemgetter "range") l) as [d | e]; [| discriminate].
    injection E as <-. constructor; [split; [reflexivity | exact Hi] |].
    apply IH. reflexivity.
Qed.

Lemma keyed_rows : forall sorted ns,
  Forall2 keyed_by sorted ns -> Forall2 has_range (map snd sorted) ns.
Proof.
  induction 1 as [| x n l ns [_ Hx] Hl IH]; simpl; constructor; auto.
Qed.

(** A sort by range that ends puts the ranges in ascending order. *)
Lemma py_sorted_spec l ns s :
  Forall2 has_range l ns ->
  py_sorted (itemgetter "range") l = Ok s ->
  exists ns',
    Forall2 has_range s ns' /\
    Permutation ns ns' /\
    StronglySorted network_le ns'.
Proof.
  intros Hl E. unfold py_sorted in E.
  destruct (with_keys (itemgetter "range") l) as [dec | e] eqn:Ew;
    [| discriminate].
  destruct (sort_keyed dec []) as [sorted | e] eqn:Es; [| discriminate].
  injection E as <-.
  pose proof (@with_keys_spec l ns dec Hl Ew) as Hdec.
  destruct (@sort_keyed_spec dec ns [] [] sorted Hdec (Forall2_nil _)
              (SSorted_nil _) Es) as (ns' & Hk & Hp & Hs).
  exists ns'. repeat split; auto.
  - apply keyed_rows. exact Hk.
  - rewrite app_nil_r in Hp. exact Hp.
Qed.

Lemma setitem_range i n i' :
  py_setitem i "range" (VNet n) = Ok i' -> has_range i' n.
Proof.
  destruct i; simpl; try discriminate. intros E. injection E as <-.
  unfold has_range. simpl. apply dict_get_find. apply dict_find_set_same.
Qed.

Lemma split_versions_spec : forall data v4 v6 a b n4 n6,
  Forall2 has_range v4 n4 ->
  Forall2 has_range v6 n6 ->
  Forall (fun n => version n = 4) n4 ->
  Forall (fun n => version n <> 4) n6 ->
  permission.split_versions data v4 v6 = Ok (a, b) ->
  exists parsed m4 m6,
    Forall2 parses data parsed /\
    Forall2 has_range a m4 /\
    Forall2 has_range b m6 /\
    Forall (fun n => version n = 4) m4 /\
    Forall (fun n => version n <> 4) m6 /\
    Permutation (parsed ++ n4 ++ n6) (m4 ++ m6).
Proof.
  induction data as [| i data IH]; intros v4 v6 a b n4 n6 H4 H6 F4 F6 E;
    simpl in E.
  - injection E as <- <-. exists [], n4, n6. repeat split; auto.
  - destruct (py_getitem i "range") as [r | e] eqn:Er; [| discriminate].
    destruct (ip_network r) as [net | e] eqn:En; [| discriminate].
    destruct (py_setitem i "range" (VNet net)) as [i' | e] eqn:Es;
      [| discriminate].
    apply setitem_range in Es.
    destruct (version net =? 4) eqn:Ev.
    + apply Z.eqb_eq in Ev.
      assert (H4' : Forall2 has_range (v4 ++ [i']) (n4 ++ [net]))
        by (apply Forall2_app; [exact H4 | repeat constructor; exact Es]).
      assert (F4' : Forall (fun n => version n = 4) (n4 ++ [net]))
        by (apply Forall_app; split; [exact F4 | repeat constructor; exact Ev]).
      destruct (IH _ _ _ _ _ _ H4' H6 F4' F6 E)
        as (parsed & m4 & m6 & Hp & Ha & Hb & G4 & G6 & Hperm).
      exists (net :: parsed), m4, m6. repeat split; auto.
      * constructor; [exists r; auto | exact Hp].
      * eapply Permutation_trans; [| exact Hperm].
        simpl. rewrite <- !app_assoc. simpl.
        eapply Permutation_trans; [apply Permutation_middle |].
        apply Permutation_app_head.
        eapply Permutation_trans; [apply Permutation_middle |].
        apply Permutation_refl.
    + apply Z.eqb_neq in Ev.
      assert (H6' : Forall2 has_range (v6 ++ [i']) (n6 ++ [net]))
        by (apply Forall2_app; [exact H6 | repeat constructor; exact Es]).
      assert (F6' : Forall (fun n => version n <> 4) (n6 ++ [net]))
        by (apply Forall_app; split; [exact F6 | repeat constructor; exact Ev]).
      destruct (IH _ _ _ _ _ _ H4 H6' F4 F6' E)
        as (parsed & m4 & m6 & Hp & Ha & Hb & G4 & G6 & Hperm).
      exists (net :: parsed), m4, m6. repeat split; auto.
      * constructor; [exists r; auto | exact Hp].
      * eapply Permutation_trans; [| exact Hperm].
        simpl.
        eapply Permutation_trans; [apply Permutation_middle |].
        apply Permutation_app_head.
        eapply Permutation_trans; [apply Permutation_middle |].
        apply Permutation_app_head.
        apply Permutation_cons_append.
Qed.

(** [_networksort]: version 4 first, each version in ascending order, and the
    same ranges as before. *)
Lemma networksort_spec data sorted :
  permission._networksort data = Ok sorted ->
  exists parsed v4 v6,
    Forall2 parses data parsed /\
    Forall2 has_range sorted (v4 ++ v6) /\
    Forall (fun n => version n = 4) v4 /\
    Forall (fun n => version n <> 4) v6 /\
    StronglySorted network_le v4 /\
    StronglySorted network_le v6 /\
    Permutation parsed (v4 ++ v6).
Proof.
  unfold permission._networksort. intros E.
  destruct (permission.split_versions data [] []) as [[a b] | e] eqn:Es;
    [| discriminate].
  destruct (@split_versions_spec data [] [] a b [] [] (Forall2_nil _)
              (Forall2_nil _) (Forall_nil _) (Forall_nil _) Es)
    as (parsed & m4 & m6 & Hp & Ha & Hb & G4 & G6 & Hperm).
  destruct (py_sorted (itemgetter "range") a) as [s4 | e] eqn:E4;
    [| discriminate].
  destruct (py_sorted (itemgetter "range") b) as [s6 | e] eqn:E6;
    [| discriminate].
  injection E as <-.
  destruct (@py_sorted_spec a m4 s4 Ha E4) as (v4 & H4 & P4 & S4).
  destruct (@py_sorted_spec b m6 s6 Hb E6) as (v6 & H6 & P6 & S6).
  exists parsed, v4, v6. repeat split; auto.
  - apply Forall2_app; assumption.
  - eapply Permutation_Forall; eassumption.
  - eapply Permutation_Forall; eassumption.
  - rewrite !app_nil_r in Hperm.
    eapply Permutation_trans; [exact Hperm |].
    apply Permutation_app; assumption.
Qed.

End NetworkOrder.

(** ** Listing the permissions *)

Lemma bind_ok {A B} (m : M A) (k : A -> M B) (st st'' : state) (b : B) :
  bind m k st = (Ok b, st'') ->
  exists a st', m st = (Ok a, st') /\ k a st' = (Ok b, st'').
Proof.
  unfold bind. destruct (m st) as [[a | e] st']; [eauto | discriminate].
Qed.

Lemma lift_ok {A} (r : result A) (st st' : state) (a : A) :
  lift r st = (Ok a, st') -> r = Ok a /\ st' = st.
Proof. unfold lift. intros E. injection E as -> ->. auto. Qed.

Section Listing.
Context {w : world}.

Lemma print_perm_ok range group regex st st' :
  permission.print_perm range group regex st = (Ok tt, st') ->
  exists a b,
    format_left range 20 = Ok a /\
    format_left group 16 = Ok b /\
    events st'
    = events st ++ [Printed "print" [VStr (format [a; b; " "; py_str regex])]].
Proof.
  unfold permission.print_perm. intros E.
  apply bind_ok in E. destruct E as (a & st1 & E1 & E).
  apply lift_ok in E1. destruct E1 as [Ea ->].
  apply bind_ok in E. destruct E as (b & st2 & E2 & E).
  apply lift_ok in E2. destruct E2 as [Eb ->].
  exists a, b. repeat split; auto.
  unfold print, emit in E. injection E as <-. reflexivity.
Qed.

Lemma print_row_ok i st st' :
  permission.print_row i st = (Ok tt, st') ->
  exists ev, events st' = events st ++ [ev] /\ row_printed ev i.
Proof.
  unfold permission.print_row. intros E.
  apply bind_ok in E. destruct E as (r & st1 & E1 & E).
  apply lift_ok in E1. destruct E1 as [Er ->].
  apply bind_ok in E. destruct E as (g & st2 & E2 & E).
  apply lift_ok in E2. destruct E2 as [Eg ->].
  apply bind_ok in E. destruct E as (x & st3 & E3 & E).
  apply lift_ok in E3. destruct E3 as [Ex ->].
  apply print_perm_ok in E. destruct E as (a & b & Ea & Eb & Ev).
  eexists. split; [exact Ev |].
  exists r, g, x, a, b. auto 10.
Qed.

Lemma print_rows_ok : forall rows st st',
  for_each rows permission.print_row st = (Ok tt, st') ->
  exists lines,
    events st' = events st ++ lines /\ Forall2 row_printed lines rows.
Proof.
  induction rows as [| i rows IH]; intros st st' E; simpl in E.
  - injection E as <-. exists []. rewrite app_nil_r. auto.
  - apply bind_ok in E. destruct E as ([] & st1 & E1 & E).
    apply print_row_ok in E1. destruct E1 as (ev & Eev & Hev).
    apply IH in E. destruct E as (lines & El & Hl).
    exists (ev :: lines). split.
    + rewrite El, Eev, <- app_assoc. reflexivity.
    + constructor; assumption.
Qed.

End Listing.

(** C8: when network_list displays permissions, the rows it prints after the
    header are the permissions it was to display (those of the server, or
    those inside the given range), each once, the ranges of IP version 4
    before all others, and the ranges of each version in ascending order of
    network address and netmask, whatever the order of the server's
    answer. *)
Theorem network_list_order {w : world} (args : permission.Namespace)
  (st : state) :
  let m := permission.network_list args in
  outcome m st = Ok tt ->
  exists data parsed rows v4 v6,
    displayed args st data /\
    Forall2 parses data parsed /\
    Permutation parsed (v4 ++ v6) /\
    Forall2 has_range rows (v4 ++ v6) /\
    Forall (fun n => version n = 4) v4 /\
    Forall (fun n => version n <> 4) v6 /\
    StronglySorted network_le v4 /\
    StronglySorted network_le v6 /\
    match data with
    | [] => emitted m st = [Informed "No permissions found" true]
    | _ =>
        exists header lines,
          emitted m st = header :: lines /\ Forall2 row_printed lines rows
    end.
Proof.
  intros m Hout. unfold outcome in Hout.
  destruct (m st) as [r st'] eqn:E. simpl in Hout. subst r.
  assert (Eev : events (snd (m st)) = events st') by (rewrite E; reflexivity).
  unfold m, permission.network_list in E.
  apply bind_ok in E. destruct E as (permissions & st1 & E1 & E).
  unfold ask in E1. injection E1 as Eperm <-.
  apply bind_ok in E. destruct E as (data & st2 & E2 & E).
  assert (Hd : displayed args st data /\ st2 = st).
  { unfold displayed.
    destruct (permission.range args) eqn:Er;
      [ injection E2 as <- <-; split; [| reflexivity];
        eexists _, _; split; [exact Eperm | reflexivity]
      | .. ];
      (apply bind_ok in E2; destruct E2 as (argnet & st3 & E3 & E2);
       apply lift_ok in E3; destruct E3 as [En ->];
       apply lift_ok in E2; destruct E2 as [Ew ->];
       split; [| reflexivity];
       eexists _, _; split; [exact Eperm |];
       exists argnet; split; assumption). }
  destruct Hd as [Hd ->].
  destruct data as [| d data].
  - unfold cli_info, emit in E. injection E as <-.
    exists [], [], [], [], [].
    repeat split; auto; try constructor.
    apply emitted_app. rewrite Eev. reflexivity.
  - apply bind_ok in E. destruct E as ([] & st3 & E3 & E).
    apply print_perm_ok in E3. destruct E3 as (a & b & _ & _ & Eh).
    apply bind_ok in E. destruct E as (sorted & st4 & E4 & E).
    apply lift_ok in E4. destruct E4 as [Es ->].
    apply networksort_spec in Es.
    destruct Es as (parsed & v4 & v6 & Hp & Hr & F4 & F6 & S4 & S6 & Hperm).
    apply print_rows_ok in E. destruct E as (lines & El & Hl).
    exists (d :: data), parsed, sorted, v4, v6.
    repeat split; auto.
    eexists _, lines. split; [| exact Hl].
    apply emitted_app. rewrite Eev, El, Eh, <- app_assoc. reflexivity.
Qed.


Lemma network_list_order_witness :
  let args := permission.mk_namespace VNone VNone VNone in
  let m := permission.network_list (w := sample.installation) args in
  exists data parsed rows v4 v6,
    @displayed sample.installation args sample.fresh data /\
    Forall2 (@parses sample.installation) data parsed /\
    Permutation parsed (v4 ++ v6) /\
    Forall2 has_range rows (v4 ++ v6) /\
    Forall (fun n => version n = 4) v4 /\
    Forall (fun n => version n <> 4) v6 /\
    StronglySorted network_le v4 /\
    StronglySorted network_le v6 /\
    match data with
    | [] => emitted m sample.fresh = [Informed "No permissions found" true]
    | _ =>
        exists header lines,
          emitted m sample.fresh = header :: lines /\
          Forall2 (@row_printed sample.installation) lines rows
    end.
Proof.
  apply (@network_list_order sample.installation
           (permission.mk_namespace VNone VNone VNone) sample.fresh).
  vm_compute. reflexivity.
Defined.

(** The sample installation answers with an IPv6 range first and the larger
    IPv4 range second; the list shows 10.0.0.0/8, 192.168.0.0/16 and then
    fe80::/10 (networks are shown here as address/netmask numbers). *)
Example network_list_sample :
  emitted
    (permission.network_list (w := sample.installation)
       (permission.mk_namespace VNone VNone VNone)) sample.fresh
  = [Printed "print" [VStr "Range               Group            Regex"];
     Printed "print" [VStr "167772160/4278190080ops              .*"];
     Printed "print" [VStr "3232235520/4294901760ops              .*"];
     Printed "print"
       [VStr (format
          ["338288524927261089654018896841347694592/";
           "339950059921992234495148655666698125312";
           "net              .*"])]].
Proof. vm_compute. reflexivity. Qed.

Lemma network_remove_guard_witness :
  let args :=
    permission.mk_namespace (VStr "10.0.0.0/8") (VStr "ops") (VStr "twice") in
  let m := permission.network_remove (w := sample.installation) args in
  emitted m sample.fresh = [] /\
  outcome m sample.fresh
  = Err (AssertionError "Should only match one permission") /\
  hist (snd (m sample.fresh)) = hist sample.fresh.
Proof.
  exact (proj1 (@network_remove_guard sample.installation
                  (permission.mk_namespace (VStr "10.0.0.0/8") (VStr "ops")
                     (VStr "twice")) sample.fresh)).
Defined.

(** ** Changes and their records *)

Section Pairs.
Context {w : world}.

Lemma pairs_app a b : in_pairs a -> in_pairs b -> in_pairs (a ++ b).
Proof.
  intros Ha Hb. induction Ha; simpl.
  - exact Hb.
  - apply pairs_other; assumption.
  - apply pairs_patch; assumption.
  - apply pairs_delete; assumption.
Qed.

Lemma pairs_single e : change e = false -> in_pairs [e].
Proof. intros H. apply pairs_other; [exact H | apply pairs_nil]. Qed.

Lemma pairs_quiet e : quiet e -> in_pairs [e].
Proof. intros H. apply pairs_single. destruct e; auto; destruct H. Qed.

(** Where a change stands in a run, and what stands beside it. *)
Lemma pairs_split evs :
  in_pairs evs ->
  forall pre e post,
    evs = pre ++ e :: post ->
    change e = true ->
    (exists u nd od un re post',
       e = Recorded (call_record_patch u nd od un re) /\
       post = Http PATCH u nd :: post') \/
    (exists u od un re post',
       e = Recorded (call_record_delete u od un re) /\
       post = Http DELETE u [] :: post') \/
    (exists u nd od un re pre',
       e = Http PATCH u nd /\
       pre = pre' ++ [Recorded (call_record_patch u nd od un re)]) \/
    (exists u od un re pre',
       e = Http DELETE u [] /\
       pre = pre' ++ [Recorded (call_record_delete u od un re)]).
Proof.
  induction 1 as [| x evs Hx Hp IH | u nd od un re evs Hp IH
                  | u od un re evs Hp IH]; intros pre e post E He.
  - destruct pre; discriminate E.
  - destruct pre as [| y pre]; simpl in E.
    + injection E as E1 E2. subst. congruence.
    + injection E as E1 E2. subst y.
      destruct (IH _ _ _ E2 He)
        as [H | [H | [(u & nd & od & un & re & pre' & -> & ->)
                     | (u & od & un & re & pre' & -> & ->)]]].
      * left. exact H.
      * right. left. exact H.
      * right. right. left. exists u, nd, od, un, re, (x :: pre'). auto.
      * right. right. right. exists u, od, un, re, (x :: pre'). auto.
  - destruct pre as [| y [| z pre]]; simpl in E.
    + injection E as E1 E2. subst. left. eauto 10.
    + injection E as E1 E2 E3. subst. right. right. left.
      exists u, nd, od, un, re, []. auto.
    + injection E as E1 E2 E3. subst y z.
      destruct (IH _ _ _ E3 He)
        as [H | [H | [(u' & nd' & od' & un' & re' & pre' & -> & ->)
                     | (u' & od' & un' & re' & pre' & -> & ->)]]].
      * left. exact H.
      * right. left. exact H.
      * right. right. left.
        exists u', nd', od', un', re',
          (Recorded (call_record_patch u nd od un re)
             :: Http PATCH u nd :: pre'). auto.
      * right. right. right.
        exists u', od', un', re',
          (Recorded (call_record_patch u nd od un re)
             :: Http PATCH u nd :: pre'). auto.
  - destruct pre as [| y [| z pre]]; simpl in E.
    + injection E as E1 E2. subst. right. left. eauto 10.
    + injection E as E1 E2 E3. subst. right. right. right.
      exists u, od, un, re, []. auto.
    + injection E as E1 E2 E3. subst y z.
      destruct (IH _ _ _ E3 He)
        as [H | [H | [(u' & nd' & od' & un' & re' & pre' & -> & ->)
                     | (u' & od' & un' & re' & pre' & -> & ->)]]].
      * left. exact H.
      * right. left. exact H.
      * right. right. left.
        exists u', nd', od', un', re',
          (Recorded (call_record_delete u od un re)
             :: Http DELETE u [] :: pre'). auto.
      * right. right. right.
        exists u', od', un', re',
          (Recorded (call_record_delete u od un re)
             :: Http DELETE u [] :: pre'). auto.
Qed.

Lemma pairs_recorded evs : in_pairs evs -> changes_recorded evs.
Proof.
  intros H. split; [| split; [| split]].
  - intros pre u p post E.
    destruct (@pairs_split _ H _ _ _ E eq_refl)
      as [(? & ? & ? & ? & ? & ? & X & _) | [(? & ? & ? & ? & ? & X & _)
         | [(u' & nd & od & un & re & pre' & X & ->)
           | (? & ? & ? & ? & ? & X & _)]]]; try discriminate X.
    injection X as <- <-. eauto.
  - intros pre u p post E.
    destruct (@pairs_split _ H _ _ _ E eq_refl)
      as [(? & ? & ? & ? & ? & ? & X & _) | [(? & ? & ? & ? & ? & X & _)
         | [(? & ? & ? & ? & ? & ? & X & _)
           | (u' & od & un & re & pre' & X & ->)]]]; try discriminate X.
    injection X as <- <-. split; [reflexivity | eauto].
  - intros pre u nd od un re post E.
    destruct (@pairs_split _ H _ _ _ E eq_refl)
      as [(? & ? & ? & ? & ? & post' & X & ->) | [(? & ? & ? & ? & ? & X & _)
         | [(? & ? & ? & ? & ? & ? & X & _)
           | (? & ? & ? & ? & ? & X & _)]]]; try discriminate X.
    injection X as <- <- _ _ _. eauto.
  - intros pre u od un re post E.
    destruct (@pairs_split _ H _ _ _ E eq_refl)
      as [(? & ? & ? & ? & ? & ? & X & _)
         | [(? & ? & ? & ? & post' & X & ->)
         | [(? & ? & ? & ? & ? & ? & X & _)
           | (? & ? & ? & ? & ? & X & _)]]]; try discriminate X.
    injection X as <- _ _ _. eauto.
Qed.

End Pairs.

Section PairedRequests.
Context {w : world}.

(** [record_patch] and the PATCH that follows it. *)
Lemma produces_recorded_patch {B} u nd od un re (k : unit -> M B) :
  (forall x, produces in_pairs (k x)) ->
  produces in_pairs
    (bind (history.record_patch u nd od un re) (fun _ => bind (patch u nd) k)).
Proof.
  intros Hk st.
  unfold history.record_patch, history.record, patch, request, bind, emit,
    get_hist, set_hist, ask, ret. simpl.
  destruct (http _ PATCH u nd) as [v | e].
  - match goal with
    | |- context [k tt ?s] => destruct (Hk tt s) as (evs & E & Hb)
    end.
    exists (Recorded (call_record_patch u nd od un re)
              :: Http PATCH u nd :: evs).
    split.
    + rewrite E. simpl. rewrite <- !app_assoc. reflexivity.
    + apply pairs_patch. exact Hb.
  - exists [Recorded (call_record_patch u nd od un re); Http PATCH u nd].
    split.
    + simpl. rewrite <- app_assoc. reflexivity.
    + apply pairs_patch. apply pairs_nil.
Qed.

Lemma produces_recorded_patch_last u nd od un re :
  produces in_pairs
    (bind (history.record_patch u nd od un re) (fun _ => patch u nd)).
Proof.
  intros st.
  destruct (@produces_recorded_patch unit u nd od un re (fun _ => ret tt)
              (fun _ => @produces_ret in_pairs pairs_nil unit tt) st) as (evs & E & Hb).
  exists evs. split; [| exact Hb]. rewrite <- E.
  unfold history.record_patch, history.record, patch, request, bind, emit,
    get_hist, set_hist, ask, ret. simpl.
  destruct (http _ PATCH u nd); reflexivity.
Qed.

(** [record_delete] and the DELETE that follows it. *)
Lemma produces_recorded_delete {B} u od un re (k : unit -> M B) :
  (forall x, produces in_pairs (k x)) ->
  produces in_pairs
    (bind (history.record_delete u od un re) (fun _ => bind (delete u) k)).
Proof.
  intros Hk st.
  unfold history.record_delete, history.record, delete, request, bind, emit,
    get_hist, set_hist, ask, ret. simpl.
  destruct (http _ DELETE u []) as [v | e].
  - match goal with
    | |- context [k tt ?s] => destruct (Hk tt s) as (evs & E & Hb)
    end.
    exists (Recorded (call_record_delete u od un re)
              :: Http DELETE u [] :: evs).
    split.
    + rewrite E. simpl. rewrite <- !app_assoc. reflexivity.
    + apply pairs_delete. exact Hb.
  - exists [Recorded (call_record_delete u od un re); Http DELETE u []].
    split.
    + simpl. rewrite <- app_assoc. reflexivity.
    + apply pairs_delete. apply pairs_nil.
Qed.

End PairedRequests.

Ltac recorded_change :=
  lazymatch goal with
  | |- produces _ (bind (history.record_patch _ _ _ _ _)
                     (fun _ => bind (patch _ _) _)) =>
      eapply produces_recorded_patch; intros
  | |- produces _ (bind (history.record_patch _ _ _ _ _)
                     (fun _ => patch _ _)) =>
      eapply produces_recorded_patch_last
  | |- produces _ (bind (history.record_delete _ _ _ _)
                     (fun _ => bind (delete _) _)) =>
      eapply produces_recorded_delete; intros
  | |- produces _ (bind (history.record_patch _ _ _ _ _)
                     (fun _ => bind (bind _ _) _)) =>
      eapply produces_bind_assoc_under; cbv beta
  | |- produces _ (bind (history.record_delete _ _ _ _)
                     (fun _ => bind (bind _ _) _)) =>
      eapply produces_bind_assoc_under; cbv beta
  end.

Section Changes.
Context {w : world}.

Lemma changes_run m : server_run m -> produces in_pairs m.
Proof.
  pose proof pairs_nil as Hn.
  pose proof pairs_app as Ha.
  pose proof pairs_quiet as Hq.
  intros [(name & opt & args & H & ->) | (name & cmd & args & H & ->)];
    each_option H; unfold_handlers;
    produce_steps Hn Ha Hq ltac:(idtac; recorded_change)
      ltac:(apply pairs_single; reflexivity).
Qed.

End Changes.

(** X1: in every run of a handler that talks to the server itself (the
    options of Host, Zone and Subnet, the sub-commands of permission), a
    PATCH is sent only right after the record_patch call for its URL whose
    new data are its payload, a DELETE only right after the record_delete
    call for its URL; and every record_patch or record_delete call is
    followed at once by its request, so that the request is recorded before
    it is known to succeed. *)
Theorem changes_are_recorded {w : world} (m : M unit) (st : state) :
  server_run m -> changes_recorded (emitted m st).
Proof.
  intros Hm. apply pairs_recorded. apply produces_emitted.
  apply changes_run. exact Hm.
Qed.

Lemma changes_are_recorded_witness :
  changes_recorded
    (emitted
       (Host.opt_ttl_set (w := sample.installation) ["a.example.org"; "600"])
       sample.fresh).
Proof.
  apply (@changes_are_recorded sample.installation).
  left.
  exists "ttl_set", (Host.opt_ttl_set (w := sample.installation)),
    ["a.example.org"; "600"].
  split; [| reflexivity].
  unfold host_options. simpl. repeat (first [left; reflexivity | right]).
Defined.

(** ** Warnings *)

Section Careful.
Context {w : world}.
Hypothesis raises : warning_raises = true.

Lemma careful_of_produces {A} (m : M A) :
  produces (Forall not_warning) m -> careful m.
Proof.
  intros H st. destruct (H st) as (evs & E & HQ).
  exists evs. split; [exact E | left; exact HQ].
Qed.

Lemma careful_silent {A} (m : M A) :
  (forall st, events (snd (m st)) = events st) -> careful m.
Proof.
  intros H st. exists []. rewrite H, app_nil_r. split; [reflexivity |].
  left. constructor.
Qed.

Lemma careful_emit e : not_warning e -> careful (emit e).
Proof.
  intros H st. exists [e]. split; [reflexivity |]. left.
  constructor; [exact H | constructor].
Qed.

Lemma careful_warning msg b : careful (cli_warning msg b).
Proof.
  intros st. exists [Warned msg b].
  unfold cli_warning, bind, emit, raise. simpl. rewrite raises. simpl.
  split; [reflexivity |]. right. exists [], msg, b. repeat split. constructor.
Qed.

Lemma careful_bind {A B} (m : M A) (k : A -> M B) :
  careful m -> (forall a, careful (k a)) -> careful (bind m k).
Proof.
  intros Hm Hk st. unfold bind.
  destruct (Hm st) as (evs & E & HQ).
  destruct (m st) as [[a | e] st']; simpl in *.
  - destruct HQ as [HQ | (pre & msg & b & _ & _ & X)]; [| discriminate X].
    destruct (Hk a st') as (evs' & E' & HQ').
    exists (evs ++ evs'). rewrite E', E, app_assoc. split; [reflexivity |].
    destruct HQ' as [HQ' | (pre & msg & b & -> & Hpre & X)].
    + left. apply Forall_app. auto.
    + right. exists (evs ++ pre), msg, b. rewrite app_assoc.
      repeat split; [| exact X]. apply Forall_app. auto.
  - exists evs. auto.
Qed.

Lemma careful_attempt {A} (m : M A) :
  produces (Forall not_warning) m -> careful (attempt m).
Proof.
  intros H st. destruct (H st) as (evs & E & HQ). unfold attempt.
  destruct (m st) as [r st']. exists evs. split; [exact E | left; exact HQ].
Qed.

Lemma careful_for_each {A} (l : list A) (body : A -> M unit) :
  (forall x, careful (body x)) -> careful (for_each l body).
Proof.
  intros H. induction l as [| x l IH]; simpl.
  - apply careful_silent. reflexivity.
  - apply careful_bind; [apply H | intros _; exact IH].
Qed.

Lemma careful_input p : careful (input p).
Proof.
  unfold input. apply careful_bind.
  - apply careful_emit. exact I.
  - intros _. apply careful_silent. intros st. destruct (stdin st); reflexivity.
Qed.

Lemma careful_arg_or_input args i p : careful (arg_or_input args i p).
Proof.
  unfold arg_or_input. destruct (nth_error args i).
  - apply careful_silent. reflexivity.
  - apply careful_input.
Qed.

Lemma careful_help_loop p hl pending : forall h,
  careful (help_loop p hl h pending).
Proof.
  induction pending as [| l rest IH]; intros h; simpl;
    destruct (String.eqb h "?");
    try (apply careful_silent; reflexivity);
    (apply careful_bind; [apply careful_emit; exact I | intros _]);
    (apply careful_bind; [apply careful_input | intros line]).
  - apply careful_silent. reflexivity.
  - apply IH.
Qed.

Lemma careful_while_help p hl h : careful (while_help p hl h).
Proof.
  intros st. unfold while_help. apply (careful_help_loop p hl (stdin st) h).
Qed.

Lemma careful_show_rows srvs : forall prev padding,
  careful (Host.show_rows srvs prev padding).
Proof.
  induction srvs as [| srv rest IH]; intros prev padding; simpl.
  - apply careful_silent. reflexivity.
  - apply careful_bind; [apply careful_silent; reflexivity | intros service].
    destruct (py_eq prev service).
    + apply careful_bind; [apply careful_silent; reflexivity | intros srv'].
      apply careful_bind; [| intros _; apply IH].
      apply careful_emit. exact I.
    + apply careful_bind; [| intros _; apply IH].
      apply careful_emit. exact I.
Qed.

End Careful.

Ltac unfold_calls_but_warning :=
  unfold cli_info, request, get, post, patch, delete, print,
    history.record_get, history.record_post, history.record_patch,
    history.record_delete, history.record, history.print_history,
    permission.print_perm, permission.print_row, pass in |- *.

Ltac careful_steps Hw quiet_part :=
  unfold Host.item, Host.bound, int, Host.flag_value, when in |- *;
  repeat (intros;
    lazymatch goal with
    | |- careful (bind _ _) => eapply careful_bind
    | |- careful (cli_warning _ _) => eapply careful_warning; exact Hw
    | |- careful (if ?b then _ else _) => destruct b
    | |- careful (match ?x with _ => _ end) => destruct x
    | |- careful (for_each _ _) => eapply careful_for_each
    | |- careful (attempt _) => eapply careful_attempt; quiet_part
    | |- careful (emit _) => eapply careful_emit; exact I
    | |- careful (ret _) => eapply careful_silent; reflexivity
    | |- careful (raise _) => eapply careful_silent; reflexivity
    | |- careful (lift _) => eapply careful_silent; reflexivity
    | |- careful (ask _) => eapply careful_silent; reflexivity
    | |- careful get_hist => eapply careful_silent; reflexivity
    | |- careful (set_hist _) => eapply careful_silent; reflexivity
    | |- careful (input _) => eapply careful_input; exact Hw
    | |- careful (arg_or_input _ _ _) => eapply careful_arg_or_input; exact Hw
    | |- careful (while_help _ _ _) => eapply careful_while_help; exact Hw
    | |- careful (Host.show_rows _ _ _) =>
        eapply careful_show_rows; exact Hw
    | |- careful _ => progress unfold_calls_but_warning
    end).

Section CarefulHandlers.
Context {w : world}.
Hypothesis raises : warning_raises = true.

Lemma careful_run m : handler_run m -> careful m.
Proof.
  assert (Hn : Forall not_warning []) by constructor.
  assert (Ha : forall a b, Forall not_warning a -> Forall not_warning b ->
                           Forall not_warning (a ++ b))
    by (intros; apply Forall_app; auto).
  assert (Hq : forall e, quiet e /\ not_warning e -> Forall not_warning [e])
    by (intros e [_ H]; constructor; [exact H | constructor]).
  intros [name opt args H -> | name cmd args H ->]; each_option H;
    unfold_handlers;
    careful_steps raises
      ltac:(produce_with Hn Ha Hq
              ltac:(constructor; [exact I | constructor])).
Qed.

End CarefulHandlers.

(** X2: no handler catches the CliWarning of cli_warning.  When cli_warning
    raises, a warning is the last thing a handler does: nothing is recorded,
    requested or printed after it, and the run ends with that CliWarning. *)
Theorem warning_ends_the_run {w : world} (m : M unit) (st : state)
  (pre post : trace) (msg : string) (b : bool) :
  warning_raises = true ->
  handler_run m ->
  emitted m st = pre ++ Warned msg b :: post ->
  post = [] /\ outcome m st = Err (CliWarning msg).
Proof.
  intros Hw Hm E.
  destruct (@careful_run w Hw m Hm st) as (evs & Ee & Hl).
  rewrite (@emitted_app _ m st evs Ee) in E. subst evs.
  destruct Hl as [Hl | (pre' & msg' & b' & E & Hpre & Hr)].
  - rewrite Forall_forall in Hl.
    destruct (Hl (Warned msg b)). apply in_elt.
  - destruct post as [| x post].
    + apply app_inj_tail in E. destruct E as [_ E]. injection E as -> _.
      split; [reflexivity |]. unfold outcome.
      destruct (fst (m st)); simpl in Hr; congruence.
    + exfalso.
      destruct (@exists_last _ (x :: post)) as (post' & y & Ep);
        [discriminate |].
      rewrite Ep in E.
      change (pre ++ Warned msg b :: post' ++ [y])
        with (pre ++ (Warned msg b :: post') ++ [y]) in E.
      rewrite app_assoc in E. apply app_inj_tail in E. destruct E as [E _].
      subst pre'. rewrite Forall_forall in Hpre.
      destruct (Hpre (Warned msg b)). apply in_elt.
Qed.

Lemma warning_ends_the_run_witness :
  @nil event = [] /\
  outcome (History.opt_undo (w := sample.installation) ["x1"]) sample.fresh
  = Err (CliWarning
           "invalid input: invalid literal for int() with base 10: 'x1'").
Proof.
  apply (@warning_ends_the_run sample.installation
           (History.opt_undo (w := sample.installation) ["x1"]) sample.fresh
           [] [] _ false).
  - reflexivity.
  - sample_run "undo".
  - reflexivity.
Defined.

(** ** Looking and asking *)

Section Looking.
Context {w : world}.

Lemma shows_run name opt args :
  In (name, opt) host_options ->
  shows name = true ->
  produces (Forall reads_only) (opt args).
Proof.
  assert (Hq : forall e, quiet e -> Forall reads_only [e])
    by (apply each_quiet; intros [] H; try exact I; destruct H).
  pose proof (each_nil reads_only) as Hn.
  pose proof (each_app (P := reads_only)) as Ha.
  intros H Hs; each_option H; try discriminate Hs; unfold_handlers;
    produce_with Hn Ha Hq
      ltac:(constructor; [simpl; first [reflexivity | eauto] | constructor]).
Qed.

Lemma listing_run args :
  produces (Forall reads_only) (permission.network_list args).
Proof.
  assert (Hq : forall e, quiet e -> Forall reads_only [e])
    by (apply each_quiet; intros [] H; try exact I; destruct H).
  pose proof (each_nil reads_only) as Hn.
  pose proof (each_app (P := reads_only)) as Ha.
  unfold_handlers.
  produce_with Hn Ha Hq
    ltac:(constructor; [simpl; first [reflexivity | eauto] | constructor]).
Qed.

Lemma print_run args :
  produces (Forall reads_only) (History.opt_print args).
Proof.
  assert (Hq : forall e, quiet e -> Forall reads_only [e])
    by (apply each_quiet; intros [] H; try exact I; destruct H).
  pose proof (each_nil reads_only) as Hn.
  pose proof (each_app (P := reads_only)) as Ha.
  unfold_handlers.
  produce_with Hn Ha Hq
    ltac:(constructor; [simpl; first [reflexivity | eauto] | constructor]).
Qed.

End Looking.

(** X3: the options of Host that show something (info and every option
    named ..._show), network_list and the print option of History change
    nothing: the only requests of their runs are GETs, and the only calls of
    the history object are record_get calls with the URL alone. *)
Theorem showing_changes_nothing {w : world} (name : string)
  (opt : list string -> M unit) (args : list string)
  (pargs : permission.Namespace) (st : state) :
  In (name, opt) host_options ->
  shows name = true ->
  Forall reads_only (emitted (opt args) st) /\
  Forall reads_only (emitted (permission.network_list pargs) st) /\
  Forall reads_only (emitted (History.opt_print args) st).
Proof.
  intros H Hs. repeat split; apply produces_emitted.
  - apply (@shows_run w name opt args H Hs).
  - apply listing_run.
  - apply print_run.
Qed.

Lemma showing_changes_nothing_witness :
  Forall reads_only
    (emitted (Host.opt_srv_show (w := sample.installation) ["_sip"])
       sample.fresh) /\
  Forall reads_only
    (emitted
       (permission.network_list (w := sample.installation)
          (permission.mk_namespace VNone VNone VNone)) sample.fresh) /\
  Forall reads_only
    (emitted (History.opt_print ["_sip"])
       sample.fresh).
Proof.
  apply (@showing_changes_nothing sample.installation "srv_show").
  - unfold host_options. simpl. repeat (first [left; reflexivity | right]).
  - reflexivity.
Defined.

Section Asking.
Context {w : world}.

Lemma unprompted_show_rows srvs : forall prev padding,
  produces (Forall not_prompt) (Host.show_rows srvs prev padding).
Proof.
  assert (Hn : Forall not_prompt []) by constructor.
  assert (Ha : forall a b, Forall not_prompt a -> Forall not_prompt b ->
                           Forall not_prompt (a ++ b))
    by (intros; apply Forall_app; auto).
  induction srvs as [| srv rest IH]; intros prev padding; simpl.
  - eapply produces_ret; exact Hn.
  - eapply produces_bind; try exact Ha;
      [eapply produces_lift; exact Hn | intros service].
    destruct (py_eq prev service).
    + eapply produces_bind; try exact Ha;
        [eapply produces_lift; exact Hn | intros srv'].
      eapply produces_bind; try exact Ha; [| intros _; apply IH].
      apply produces_emit. repeat constructor.
    + eapply produces_bind; try exact Ha; [| intros _; apply IH].
      apply produces_emit. repeat constructor.
Qed.

Lemma enough_arguments (args : list string) (n : nat) :
  (n <= List.length args)%nat -> (len args <? Z.of_nat n) = false.
Proof. intros H. apply Z.ltb_ge. unfold len. lia. Qed.

End Asking.

(** The steps of a handler whose arguments are all there. *)
Ltac with_arguments :=
  lazymatch goal with
  | |- produces _ (bind (if len ?l <? ?n then _ else _) _) =>
      replace (len l <? n) with false
        by (symmetry; apply Z.ltb_ge; unfold len; simpl List.length; lia)
  | |- produces _ (bind (arg_or_input (_ :: _) _ _) _) =>
      unfold arg_or_input; cbn [nth_error]
  | |- produces _ (Host.show_rows _ _ _) => eapply unprompted_show_rows
  end.

Section Unprompted.
Context {w : world}.

Lemma unprompted_run name opt n args :
  In (name, opt) host_options ->
  In (name, n) arguments_wanted ->
  (n <= List.length args)%nat ->
  produces (Forall not_prompt) (opt args).
Proof.
  assert (Hn : Forall not_prompt []) by constructor.
  assert (Ha : forall a b, Forall not_prompt a -> Forall not_prompt b ->
                           Forall not_prompt (a ++ b))
    by (intros; apply Forall_app; auto).
  assert (Hq : forall e, quiet e /\ not_prompt e -> Forall not_prompt [e])
    by (intros e [_ H]; constructor; [exact H | constructor]).
  intros H Hw Hl; each_option H;
    unfold arguments_wanted in Hw; simpl in Hw;
    repeat (destruct Hw as [Hw | Hw]; [try discriminate Hw |]);
    try contradiction;
    try (injection Hw as <-);
    repeat (destruct args as [| ? args]; [simpl in Hl; lia |]);
    unfold_handlers;
    produce_steps Hn Ha Hq ltac:(idtac; with_arguments)
      ltac:(constructor; [exact I | constructor]).
Qed.

End Unprompted.

(** X4: an option of Host that gets as many arguments as its docstring
    names never prompts the user for input. *)
Theorem enough_arguments_no_prompt {w : world} (name : string)
  (opt : list string -> M unit) (n : nat) (args : list string) (st : state) :
  In (name, opt) host_options ->
  In (name, n) arguments_wanted ->
  (n <= List.length args)%nat ->
  Forall not_prompt (emitted (opt args) st).
Proof.
  intros H Hw Hl. apply produces_emitted.
  apply (@unprompted_run w name opt n args H Hw Hl).
Qed.

Lemma enough_arguments_no_prompt_witness :
  Forall not_prompt
    (emitted
       (Host.opt_set_contact (w := sample.installation)
          ["a.example.org"; "root@example.org"]) sample.fresh).
Proof.
  apply (@enough_arguments_no_prompt sample.installation "set_contact"
           (Host.opt_set_contact (w := sample.installation)) 2%nat).
  - unfold host_options. simpl. repeat (first [left; reflexivity | right]).
  - unfold arguments_wanted. simpl.
    repeat (first [left; reflexivity | right]).
  - simpl. lia.
Defined.

(** ** Force *)

(** X5: when cli_warning raises, remove without the argument y removes
    nothing from a host that has several addresses or that has aliases: it
    warns, and neither records nor requests anything. *)
Theorem remove_needs_force {w : world} (a : string) (rest : list string)
  (st : state) (info : dict) (ips name : value) (n : Z)
  (aliases : list string) :
  warning_raises = true ->
  member "y" (a :: rest) = false ->
  host_info_by_name_or_ip (events st) a = Ok info ->
  dict_get info "ipaddress" = Ok ips ->
  py_len ips = Ok n ->
  dict_get info "name" = Ok name ->
  aliases_of_host (events st) name = Ok aliases ->
  1 < n \/ aliases <> [] ->
  exists msg,
    Host.opt_remove (a :: rest) st
    = (Err (CliWarning msg),
       mk_state (stdin st) (hist st) (events st ++ [Warned msg false])).
Proof.
  intros Hw Hy Hi Hips Hn Hname Hal Hforce.
  unfold Host.opt_remove, arg_or_input, Host.item, when. simpl nth_error.
  unfold bind at 1. unfold ret at 1.
  unfold bind at 1. unfold ask at 1. rewrite Hi.
  unfold bind at 1. unfold lift at 1. rewrite Hips.
  unfold bind at 1. unfold lift at 1. rewrite Hn.
  rewrite Hy. simpl negb. rewrite andb_true_r.
  destruct (n >? 1) eqn:En.
  - eexists. unfold bind at 1. unfold cli_warning, bind, emit, raise.
    simpl. rewrite Hw. reflexivity.
  - destruct Hforce as [Hf | Hf]; [apply Z.gtb_lt in Hf; congruence |].
    unfold bind at 1. unfold pass, ret at 1.
    unfold bind at 1. unfold lift at 1. rewrite Hname.
    unfold bind at 1. unfold ask at 1. rewrite Hal.
    destruct aliases as [| alias aliases]; [congruence |].
    eexists. unfold bind at 1.
    replace (Z.of_nat (length (alias :: aliases)) =? 0) with false
      by (symmetry; apply Z.eqb_neq; simpl length; lia).
    simpl negb. cbv iota.
    unfold cli_warning, bind, emit, raise. simpl. rewrite Hw. reflexivity.
Qed.

Lemma remove_needs_force_witness :
  exists msg,
    Host.opt_remove (w := lab.installation) ["multi.example.org"] sample.fresh
    = (Err (CliWarning msg), mk_state [] [] [Warned msg false]).
Proof.
  refine (@remove_needs_force lab.installation "multi.example.org" []
            sample.fresh
            (sample.host "multi.example.org" 4
               [sample.address "10.0.0.4"; sample.address "10.0.0.5"] [])
            (VList [sample.address "10.0.0.4"; sample.address "10.0.0.5"])
            (VStr "multi.example.org") 2 []
            eq_refl eq_refl eq_refl eq_refl eq_refl eq_refl eq_refl _).
  left. lia.
Defined.

(** ** What is checked before a change *)

Section Raising.
Context {w : world}.
Variable Q : trace -> Prop.

(** Where cli_warning raises, what follows the call is not run. *)
Lemma produces_bind_warning {B} msg b (k : unit -> M B) :
  warning_raises = true ->
  Q [Warned msg b] ->
  produces Q (bind (cli_warning msg b) k).
Proof.
  intros Hw HQ st. exists [Warned msg b].
  unfold cli_warning, bind, emit, raise. simpl. rewrite Hw. simpl. auto.
Qed.

End Raising.

Lemma owns_found recs ip :
  owns recs ip = Ok true ->
  exists rec, In rec recs /\ py_getitem rec "ipaddress" = Ok (VStr ip).
Proof.
  induction recs as [| rec recs IH]; simpl; [discriminate |].
  destruct (py_getitem rec "ipaddress") as [v | e] eqn:E; [| discriminate].
  destruct (eq_str v ip) eqn:Ev.
  - intros _. exists rec. split; [left; reflexivity |].
    destruct v; try discriminate Ev. simpl in Ev.
    apply String.eqb_eq in Ev. subst. exact E.
  - intros H. destruct (IH H) as (r & Hin & Hr). exists r. auto.
Qed.

(** The steps of a handler where cli_warning raises. *)
Ltac raising Hw ev :=
  lazymatch goal with
  | |- produces _ (bind (cli_warning _ _) _) =>
      eapply produces_bind_warning; [exact Hw | ev]
  | |- produces _ (bind (raise _) _) =>
      eapply produces_bind_raise; apply Forall_nil
  | |- produces _ (bind (if len ?l <? ?n then _ else _) _) =>
      first
        [ replace (len l <? n) with false
            by (symmetry; apply Z.ltb_ge; unfold len; simpl List.length; lia)
        | destruct (len l <? n) eqn:? ]
  | |- produces _ (bind (if ?b then _ else _) _) => destruct b eqn:?
  | |- produces _ (bind (match ?x with _ => _ end) _) => destruct x eqn:?
  | |- produces _ (bind (bind _ _) _) => eapply produces_bind_assoc; cbv beta
  | |- produces _ (bind (lift (arg (_ :: _) _)) _) =>
      progress cbn [arg nth_error]
  | |- produces _ (bind (arg_or_input (_ :: _) _ _) _) =>
      unfold arg_or_input; cbn [nth_error]
  end.

(** What the steps have learnt, in a plain form. *)
Ltac learnt :=
  repeat match goal with
    | H : Ok _ = Ok _ |- _ => injection H as H; try subst
    | H : negb ?b = false |- _ => apply negb_false_iff in H; try subst
    | H : negb ?b = true |- _ => apply negb_true_iff in H; try subst
    end.

Section Owned.
Context {w : world}.
Hypothesis raises : warning_raises = true.

Lemma owned_run o opt name ip rest :
  In (o, opt) address_options ->
  produces (Forall (touches_own name ip)) (opt (name :: ip :: rest)).
Proof.
  pose proof (each_nil (touches_own name ip)) as Hn.
  pose proof (each_app (P := touches_own name ip)) as Ha.
  assert (Hq : forall e, quiet e -> Forall (touches_own name ip) [e])
    by (apply each_quiet; intros [] H; try exact I; destruct H).
  intros H. unfold address_options in H. simpl in H.
  repeat (destruct H as [H | H]; [inversion H; subst; clear H |]);
    [.. | contradiction];
    unfold_handlers;
    produce_steps Hn Ha Hq
      ltac:(idtac; raising raises ltac:(apply Hq; exact I))
      ltac:(constructor; [| constructor]; simpl; learnt;
            match goal with
            | Hi : host_info_by_name ?tr _ true = Ok ?info,
              Hg : dict_get ?info "ipaddress" = Ok ?ips,
              Hit : py_iter ?ips = Ok ?recs,
              Ho : owns ?recs _ = Ok true |- _ =>
                exists tr, info; split; [exact Hi |];
                destruct (owns_found _ _ Ho) as (rec & Hin & Hrec);
                exists ips, recs, rec; auto
            end).
Qed.

End Owned.

(** X6: when cli_warning raises, the options that remove or replace an
    address of a host (a_remove, a_change, aaaa_remove, aaaa_change) record
    and request something only when the host's info lists that address. *)
Theorem address_must_be_listed {w : world} (o : string)
  (opt : list string -> M unit) (name ip : string) (rest : list string)
  (st : state) :
  warning_raises = true ->
  In (o, opt) address_options ->
  Forall (touches_own name ip) (emitted (opt (name :: ip :: rest)) st).
Proof.
  intros Hw H. apply produces_emitted.
  apply (@owned_run w Hw o opt name ip rest H).
Qed.

Lemma address_must_be_listed_witness :
  Forall (@touches_own sample.installation "a.example.org" "10.0.0.1")
    (emitted
       (Host.opt_a_remove (w := sample.installation)
          ["a.example.org"; "10.0.0.1"]) sample.fresh).
Proof.
  apply (@address_must_be_listed sample.installation "a_remove").
  - reflexivity.
  - left. reflexivity.
Defined.

Section Checked.
Context {w : world}.
Hypothesis raises : warning_raises = true.

Lemma checked_contact_run args :
  produces (Forall checked_contact) (Host.opt_set_contact args).
Proof.
  pose proof (each_nil checked_contact) as Hn.
  pose proof (each_app (P := checked_contact)) as Ha.
  assert (Hq : forall e, quiet e -> Forall checked_contact [e])
    by (apply each_quiet; intros [] H; try exact I; destruct H).
  unfold_handlers.
  produce_steps Hn Ha Hq
    ltac:(idtac; raising raises ltac:(apply Hq; exact I))
    ltac:(constructor; [| constructor]; simpl; learnt;
          first [exact I | eexists; split; [reflexivity | assumption]]).
Qed.

Lemma checked_ttl_run args :
  produces (Forall checked_ttl) (Host.opt_ttl_set args).
Proof.
  pose proof (each_nil checked_ttl) as Hn.
  pose proof (each_app (P := checked_ttl)) as Ha.
  assert (Hq : forall e, quiet e -> Forall checked_ttl [e])
    by (apply each_quiet; intros [] H; try exact I; destruct H).
  unfold_handlers.
  produce_steps Hn Ha Hq
    ltac:(idtac; raising raises ltac:(apply Hq; exact I))
    ltac:(constructor; [| constructor]; simpl; learnt;
          first
            [ exact I
            | match goal with
              | Hv : is_valid_ttl ?t = true |- _ =>
                  exists t; split; [exact Hv |];
                  destruct (String.eqb t "default"); reflexivity
              end ]).
Qed.

Lemma checked_loc_run args :
  produces (Forall checked_loc) (Host.opt_loc_set args).
Proof.
  pose proof (each_nil checked_loc) as Hn.
  pose proof (each_app (P := checked_loc)) as Ha.
  assert (Hq : forall e, quiet e -> Forall checked_loc [e])
    by (apply each_quiet; intros [] H; try exact I; destruct H).
  unfold_handlers.
  produce_steps Hn Ha Hq
    ltac:(idtac; raising raises ltac:(apply Hq; exact I))
    ltac:(constructor; [| constructor]; simpl; learnt;
          first [exact I | eexists; split; [reflexivity | assumption]]).
Qed.

Lemma checked_hinfo_run args :
  produces (Forall checked_hinfo) (Host.opt_hinfo_set args).
Proof.
  pose proof (each_nil checked_hinfo) as Hn.
  pose proof (each_app (P := checked_hinfo)) as Ha.
  assert (Hq : forall e, quiet e -> Forall checked_hinfo [e])
    by (apply each_quiet; intros [] H; try exact I; destruct H).
  unfold_handlers.
  produce_steps Hn Ha Hq
    ltac:(idtac; raising raises ltac:(apply Hq; exact I))
    ltac:(constructor; [| constructor]; simpl; learnt;
          first
            [ exact I
            | match goal with
              | Hl : hinfo_list ?tr = Ok ?presets,
                Hb : (0 <? ?h) && (?h <=? _) = true |- _ =>
                  exists tr, presets, h; split; [exact Hl |];
                  split; [reflexivity |];
                  apply andb_true_iff in Hb;
                  rewrite Z.ltb_lt, Z.leb_le in Hb; exact Hb
              end ]).
Qed.

End Checked.

(** X7: when cli_warning raises, the four setters record a change only of a
    value that passed its check: set_contact a valid mail address, ttl_set a
    valid TTL, loc_set a valid LOC, hinfo_set the number of one of the hinfo
    presets. *)
Theorem setters_check_first {w : world} (args : list string) (st : state) :
  warning_raises = true ->
  Forall checked_contact (emitted (Host.opt_set_contact args) st) /\
  Forall checked_ttl (emitted (Host.opt_ttl_set args) st) /\
  Forall checked_loc (emitted (Host.opt_loc_set args) st) /\
  Forall checked_hinfo (emitted (Host.opt_hinfo_set args) st).
Proof.
  intros Hw. repeat split; apply produces_emitted.
  - apply checked_contact_run. exact Hw.
  - apply checked_ttl_run. exact Hw.
  - apply checked_loc_run. exact Hw.
  - apply checked_hinfo_run. exact Hw.
Qed.

Lemma setters_check_first_witness :
  let args := ["a.example.org"; "2"] in
  Forall (@checked_contact sample.installation)
    (emitted (Host.opt_set_contact (w := sample.installation) args)
       sample.fresh) /\
  Forall (@checked_ttl sample.installation)
    (emitted (Host.opt_ttl_set (w := sample.installation) args)
       sample.fresh) /\
  Forall (@checked_loc sample.installation)
    (emitted (Host.opt_loc_set (w := sample.installation) args)
       sample.fresh) /\
  Forall (@checked_hinfo sample.installation)
    (emitted (Host.opt_hinfo_set (w := sample.installation) args)
       sample.fresh).
Proof.
  apply (@setters_check_first sample.installation). reflexivity.
Defined.

(** ** The range filter *)

Lemma supernet_inside argnetwork n keep :
  (if version argnetwork =? version n
   then supernet_of argnetwork n else Ok false) = Ok keep ->
  (keep = true <-> inside argnetwork n).
Proof.
  unfold supernet_of, inside.
  destruct (version argnetwork =? version n) eqn:Ev.
  - apply Z.eqb_eq in Ev. intros E. injection E as <-.
    rewrite andb_true_iff, Z.leb_le, Z.geb_le. intuition congruence.
  - apply Z.eqb_neq in Ev. intros E. injection E as <-.
    split; [discriminate | intros [H _]; congruence].
Qed.

(** X8: the filter of network_list -range.  When it ends, every permission
    of the server had a range that parses, and the permissions it keeps are
    those whose range has the IP version of the given network and lies
    inside it. *)
Theorem range_filter {w : world} (argnetwork : network)
  (permissions data : list value) :
  permission.within argnetwork permissions = Ok data ->
  (forall i, In i permissions -> exists n, parses i n) /\
  (forall i,
     In i data <->
     In i permissions /\ exists n, parses i n /\ inside argnetwork n).
Proof.
  revert data.
  induction permissions as [| p permissions IH]; intros data E; simpl in E.
  - injection E as <-. split.
    + intros i [].
    + intros i. split; [intros [] | intros [[] _]].
  - destruct (py_getitem p "range") as [r | e] eqn:Er; [| discriminate].
    destruct (ip_network r) as [n | e] eqn:En; [| discriminate].
    destruct (if version argnetwork =? version n
              then supernet_of argnetwork n else Ok false)
      as [keep | e] eqn:Ek; [| discriminate].
    destruct (permission.within argnetwork permissions) as [rest | e];
      [| discriminate].
    injection E as <-.
    destruct (IH rest eq_refl) as (Hall & Hin).
    apply supernet_inside in Ek.
    assert (Hp : parses p n) by (exists r; auto).
    split.
    + intros i [<- | Hi]; [exists n; exact Hp | apply Hall; exact Hi].
    + intros i. split.
      * intros Hi.
        assert (Hcase : (keep = true /\ i = p) \/ In i rest).
        { destruct keep; [destruct Hi as [<- | Hi]; auto | auto]. }
        destruct Hcase as [[Hk ->] | Hr].
        -- split; [left; reflexivity |]. exists n. split; [exact Hp |].
           apply Ek. exact Hk.
        -- apply Hin in Hr. destruct Hr as [Hr Hn].
           split; [right; exact Hr | exact Hn].
      * intros [[<- | Hi] (n' & (r' & Hr' & Hn') & Hins)].
        -- rewrite Er in Hr'. injection Hr' as <-.
           rewrite En in Hn'. injection Hn' as <-.
           apply Ek in Hins. subst keep. left. reflexivity.
        -- assert (In i rest)
             by (apply Hin; split; [exact Hi |];
                 exists n'; split; [exists r'; auto | exact Hins]).
           destruct keep; [right |]; assumption.
Qed.

Lemma range_filter_witness :
  let argnetwork := mk_network 4 167772160 4278190080 in
  let kept := sample.rule 7 "10.0.0.0/8" "ops" ".*" in
  In kept [sample.rule 5 "fe80::/10" "net" ".*";
           sample.rule 6 "192.168.0.0/16" "ops" ".*"; kept] /\
  exists n, parses (w := sample.installation) kept n /\ inside argnetwork n.
Proof.
  intros argnetwork kept.
  apply (@range_filter sample.installation argnetwork
           [sample.rule 5 "fe80::/10" "net" ".*";
            sample.rule 6 "192.168.0.0/16" "ops" ".*"; kept]
           [kept] eq_refl).
  left. reflexivity.
Defined.

(** ** The base class of the commands *)

Section CommandBaseFacts.
Import CommandBase.
Variable method_object : Type.
Variable members : list (attribute method_object).

Lemma opt_name_split name :
  is_opt_name name = true ->
  exists o, name = ("opt_" ++ o)%string /\ after_underscore name = Ok o.
Proof.
  unfold is_opt_name.
  destruct name as [| c1 [| c2 [| c3 [| c4 rest]]]]; try discriminate;
    try (destruct c1 as [[] [] [] [] [] [] [] []]; discriminate);
    try (destruct c1 as [[] [] [] [] [] [] [] []]; try discriminate;
         destruct c2 as [[] [] [] [] [] [] [] []]; discriminate);
    try (destruct c1 as [[] [] [] [] [] [] [] []]; try discriminate;
         destruct c2 as [[] [] [] [] [] [] [] []]; try discriminate;
         destruct c3 as [[] [] [] [] [] [] [] []]; discriminate).
  destruct c1 as [[] [] [] [] [] [] [] []]; try discriminate.
  destruct c2 as [[] [] [] [] [] [] [] []]; try discriminate.
  destruct c3 as [[] [] [] [] [] [] [] []]; try discriminate.
  destruct c4 as [[] [] [] [] [] [] [] []]; try discriminate.
  intros _. exists rest. split; reflexivity.
Qed.

Lemma option_method_declared a :
  declared members ->
  In a (_option_methods members) ->
  exists o f,
    attribute_name a = ("opt_" ++ o)%string /\
    after_underscore (attribute_name a) = Ok o /\
    bound_method a = Some (attribute_name a, f).
Proof.
  intros Hd Ha. apply filter_In in Ha. destruct Ha as [Hin Hopt].
  destruct (bound_method a) as [[name f] |] eqn:Eb; [| discriminate].
  simpl in Hopt. rewrite (Hd a name f Hin Eb).
  destruct (@opt_name_split _ Hopt) as (o & Ho & Hs).
  exists o, f. auto.
Qed.

Lemma options_of_spec (methods : list (attribute method_object)) :
  (forall a, In a methods ->
     exists o, attribute_name a = ("opt_" ++ o)%string /\
               after_underscore (attribute_name a) = Ok o) ->
  exists os,
    options_of methods = Ok os /\
    forall o, In o os <->
      exists a, In a methods /\ attribute_name a = ("opt_" ++ o)%string.
Proof.
  induction methods as [| m methods IH]; intros H.
  - exists []. split; [reflexivity |].
    intros o. split; [intros [] | intros (a & [] & _)].
  - destruct IH as (os & Eos & Hos).
    { intros a Ha. apply H. right. exact Ha. }
    destruct (H m (or_introl eq_refl)) as (o & Ho & Hs).
    exists (o :: os). split.
    + simpl. rewrite Hs, Eos. reflexivity.
    + intros o'. split.
      * intros [<- | Hin].
        -- exists m. split; [left; reflexivity | exact Ho].
        -- apply Hos in Hin. destruct Hin as (a & Ha & Hn).
           exists a. split; [right; exact Ha | exact Hn].
      * intros (a & [<- | Ha] & Hn).
        -- left. rewrite Ho in Hn. injection Hn as Hn. exact Hn.
        -- right. apply Hos. exists a. auto.
Qed.

Lemma named_spec opt :
  match named members opt with
  | Some m =>
      In m (_option_methods members) /\
      attribute_name m = ("opt_" ++ opt)%string
  | None =>
      forall a, In a (_option_methods members) ->
        attribute_name a <> ("opt_" ++ opt)%string
  end.
Proof.
  unfold named.
  destruct (find _ (_option_methods members)) as [m |] eqn:Ef.
  - apply find_some in Ef. destruct Ef as [Hin Heq].
    apply String.eqb_eq in Heq. auto.
  - intros a Ha Hn.
    pose proof (find_none _ _ Ef a Ha) as Hf. simpl in Hf.
    apply String.eqb_neq in Hf. contradiction.
Qed.

End CommandBaseFacts.

(** X9: discovery and dispatch agree.  On an object whose methods are found
    under their own names, options() returns a list, method(opt) returns a
    method for the names of that list and for no other name, the method it
    returns is an attribute named opt_ followed by the option, every other
    name is reported as an unknown option, and opt_help prints the
    documentation of the method that method(opt) returns. *)
Theorem options_are_dispatched (method_object : Type)
  (members : list (CommandBase.attribute method_object))
  (getdoc : method_object -> value) :
  CommandBase.declared members ->
  exists os,
    CommandBase.options members = Ok os /\
    (forall o,
       In o os <->
       exists f, CommandBase.method members o = CommandBase.returns f) /\
    (forall o f,
       CommandBase.method members o = CommandBase.returns f ->
       In (CommandBase.mk_attribute ("opt_" ++ o)%string
             (Some (("opt_" ++ o)%string, f))) members /\
       forall st, emitted (CommandBase.opt_help members getdoc o) st
                  = [Printed "print" [getdoc f]]) /\
    (forall o,
       ~ In o os ->
       CommandBase.method members o
       = CommandBase.cli_error (format ["unknown option: "; o]) /\
       forall st, emitted (CommandBase.opt_help members getdoc o) st
                  = [Printed "print"
                       [VStr (format ["No documentation of "; dquote; o;
                                      dquote])]]).
Proof.
  intros Hd.
  destruct (@options_of_spec _ (CommandBase._option_methods members))
    as (os & Eos & Hos).
  { intros a Ha.
    destruct (@option_method_declared _ members a Hd Ha)
      as (o & f & H1 & H2 & _).
    exists o. auto. }
  assert (Hprint : forall v st,
            emitted (print "print" [v]) st = [Printed "print" [v]]).
  { intros v st. unfold emitted, print, emit. simpl.
    rewrite skipn_app, skipn_all, Nat.sub_diag. reflexivity. }
  exists os. split; [exact Eos |]. split; [| split].
  - intros o. rewrite Hos. unfold CommandBase.method.
    pose proof (@named_spec _ members o) as Hn. split.
    + intros (a & Ha & Hname).
      destruct (CommandBase.named members o) as [m |].
      * destruct Hn as [Hm _].
        destruct (@option_method_declared _ members m Hd Hm)
          as (_ & f & _ & _ & Hb).
        rewrite Hb. exists f. reflexivity.
      * exfalso. exact (Hn a Ha Hname).
    + intros (f & Hf).
      destruct (CommandBase.named members o) as [m |]; [| discriminate].
      exists m. exact Hn.
  - intros o f Hf. unfold CommandBase.method in Hf.
    unfold CommandBase.opt_help.
    pose proof (@named_spec _ members o) as Hn.
    destruct (CommandBase.named members o) as [m |]; [| discriminate].
    destruct Hn as [Hm Hname].
    destruct (@option_method_declared _ members m Hd Hm)
      as (_ & f' & _ & _ & Hb).
    rewrite Hb in Hf |- *. injection Hf as ->. split.
    + apply filter_In in Hm. destruct Hm as [Hm _].
      destruct m as [name b]. simpl in *. subst. exact Hm.
    + apply Hprint.
  - intros o Ho. unfold CommandBase.method, CommandBase.opt_help.
    pose proof (@named_spec _ members o) as Hn.
    destruct (CommandBase.named members o) as [m |].
    + exfalso. apply Ho. apply Hos. exists m. exact Hn.
    + split; [reflexivity | apply Hprint].
Qed.


Lemma options_are_dispatched_witness :
  let members :=
    CommandBase.methods_of (history_options (w := sample.installation)) in
  CommandBase.declared members /\
  exists f, CommandBase.method members "undo" = CommandBase.returns f.
Proof.
  intros members.
  assert (Hd : CommandBase.declared members).
  { intros a name f Hin Hb. subst members. simpl in Hin.
    repeat (destruct Hin as [<- | Hin];
            [simpl in Hb |- *; congruence |]).
    destruct Hin. }
  split; [exact Hd |].
  destruct (@options_are_dispatched _ members (fun _ => VNone) Hd)
    as (os & Eos & Hos & _).
  apply Hos.
  vm_compute in Eos. injection Eos as <-. simpl. auto.
Defined.

(** X10: when cli_warning raises, srv_remove deletes nothing when the server
    knows no record of the service, and nothing without the argument y when
    it knows several: after the recorded GET it only warns. *)
Theorem srv_remove_needs_force {w : world} (a : string) (rest : list string)
  (st : state) (srvs : value) (n : Z) :
  let sname := if is_longform a then a else to_longform a true in
  let url := server_url ["/srvs/?service="; sname] in
  let asked := [Recorded (call_record_get url []); Http GET url []] in
  warning_raises = true ->
  http (events st ++ asked) GET url [] = Ok srvs ->
  py_len srvs = Ok n ->
  n = 0 \/ (1 < n /\ member "y" (a :: rest) = false) ->
  exists msg,
    emitted (Host.opt_srv_remove (a :: rest)) st
    = asked ++ [Warned msg false] /\
    outcome (Host.opt_srv_remove (a :: rest)) st = Err (CliWarning msg).
Proof.
  intros sname url asked Hw Hget Hn Hforce.
  assert (Hrun : exists msg h,
            Host.opt_srv_remove (a :: rest) st
            = (Err (CliWarning msg),
               mk_state (stdin st) h
                 (events st ++ asked ++ [Warned msg false]))).
  { subst asked url sname.
    unfold Host.opt_srv_remove, arg_or_input. simpl nth_error.
    unfold history.record_get, history.record, get, request.
    unfold history.accepted.
    unfold bind, ret, emit, ask, lift, get_hist, set_hist, raise.
    cbn [fst snd events stdin hist].
    rewrite <- app_assoc. cbn [app]. rewrite Hget, Hn.
    destruct Hforce as [-> | [Hf Hy]].
    - cbn [Z.eqb]. unfold cli_warning, bind, emit, raise.
      cbn [fst snd events stdin hist]. rewrite Hw.
      eexists. eexists. f_equal. f_equal.
      rewrite <- app_assoc. reflexivity.
    - replace (n =? 0) with false by (symmetry; apply Z.eqb_neq; lia).
      replace (n >? 1) with true by (symmetry; apply Z.gtb_lt; lia).
      rewrite Hy. cbn [negb andb].
      unfold cli_warning, bind, emit, raise.
      cbn [fst snd events stdin hist]. rewrite Hw.
      eexists. eexists. f_equal. f_equal.
      rewrite <- app_assoc. reflexivity. }
  destruct Hrun as (msg & h & Hrun). exists msg.
  unfold emitted, outcome. rewrite Hrun. simpl. split; [| reflexivity].
  rewrite skipn_app, skipn_all, Nat.sub_diag. reflexivity.
Qed.

Lemma srv_remove_needs_force_witness :
  exists msg,
    emitted (Host.opt_srv_remove (w := lab.installation)
               ["_sip._tcp"]) sample.fresh
    = [Recorded (call_record_get
         "http://127.0.0.1:8000/srvs/?service=_sip._tcp.example.org." []);
       Http GET "http://127.0.0.1:8000/srvs/?service=_sip._tcp.example.org."
         [];
       Warned msg false] /\
    outcome (Host.opt_srv_remove (w := lab.installation)
               ["_sip._tcp"]) sample.fresh
    = Err (CliWarning msg).
Proof.
  refine (@srv_remove_needs_force lab.installation "_sip._tcp"
            [] sample.fresh
            (VList [lab.srv 1 "a.example.org"; lab.srv 2 "multi.example.org"])
            2 eq_refl eq_refl eq_refl _).
  right. split; [lia | reflexivity].
Defined.

(** ** Names that are taken *)

Section Attempts.
Variable Q : trace -> Prop.
Hypothesis Q_nil : Q [].

(** What the continuation is given is the answer to the question. *)
Lemma produces_bind_attempt_ask {A B} (f : trace -> result A)
  (k : result A -> M B) :
  (forall tr r, f tr = r -> produces Q (k r)) ->
  produces Q (bind (attempt (ask f)) k).
Proof.
  intros Hk st. unfold bind, attempt, ask. simpl.
  apply (Hk (events st) _ eq_refl).
Qed.

End Attempts.

Section Forced.
Context {w : world}.
Hypothesis raises : warning_raises = true.

Lemma add_new_run name ip contact rest :
  member "y" (name :: ip :: contact :: rest) = false ->
  produces (Forall (adds_new name))
    (Host.opt_add (name :: ip :: contact :: rest)).
Proof.
  intros Hy.
  pose proof (each_nil (adds_new name)) as Hn.
  pose proof (each_app (P := adds_new name)) as Ha.
  assert (Hq : forall e, quiet e -> Forall (adds_new name) [e])
    by (apply each_quiet; intros [] H; try exact I; destruct H).
  unfold_handlers.
  produce_steps Hn Ha Hq
    ltac:(idtac;
          first
            [ progress (rewrite Hy; cbn [negb])
            | lazymatch goal with
              | |- produces _ (bind (attempt (ask _)) _) =>
                  eapply produces_bind_attempt_ask
              end
            | raising raises ltac:(apply Hq; exact I) ])
    ltac:(constructor; [| constructor]; simpl; learnt;
          match goal with
          | H : resolve_input_name ?tr _ = Err (HostNotFoundWarning ?msg)
            |- _ => exists tr, msg; exact H
          end).
Qed.

Lemma takes_free_run old_name new_name rest :
  member "y" (old_name :: new_name :: rest) = false ->
  produces (Forall (takes_free new_name))
    (Host.opt_rename (old_name :: new_name :: rest)).
Proof.
  intros Hy.
  pose proof (each_nil (takes_free new_name)) as Hn.
  pose proof (each_app (P := takes_free new_name)) as Ha.
  assert (Hq : forall e, quiet e -> Forall (takes_free new_name) [e])
    by (apply each_quiet; intros [] H; try exact I; destruct H).
  unfold_handlers.
  produce_steps Hn Ha Hq
    ltac:(idtac;
          first
            [ progress (rewrite Hy; cbn [negb])
            | lazymatch goal with
              | |- produces _ (bind (attempt (ask _)) _) =>
                  eapply produces_bind_attempt_ask
              end
            | raising raises ltac:(apply Hq; exact I) ])
    ltac:(constructor; [| constructor]; simpl; learnt;
          match goal with
          | H : host_info_by_name ?tr _ false = Err (HostNotFoundWarning ?msg)
            |- _ => exists tr, msg; exact H
          end).
Qed.

Lemma known_target_run sname pri weight port name rest :
  member "y" (sname :: pri :: weight :: port :: name :: rest) = false ->
  produces (Forall (known_target name))
    (Host.opt_srv_add (sname :: pri :: weight :: port :: name :: rest)).
Proof.
  intros Hy.
  pose proof (each_nil (known_target name)) as Hn.
  pose proof (each_app (P := known_target name)) as Ha.
  assert (Hq : forall e, quiet e -> Forall (known_target name) [e])
    by (apply each_quiet; intros [] H; try exact I; destruct H).
  unfold_handlers.
  produce_steps Hn Ha Hq
    ltac:(idtac;
          first
            [ progress (rewrite Hy; cbn [negb])
            | lazymatch goal with
              | |- produces _ (bind (attempt (ask _)) _) =>
                  eapply produces_bind_attempt_ask
              end
            | raising raises ltac:(apply Hq; exact I) ])
    ltac:(constructor; [| constructor]; simpl; learnt;
          match goal with
          | H : resolve_input_name ?tr _ = Ok ?host_name |- _ =>
              exists tr, host_name; exact H
          end).
Qed.

Lemma alias_is_free_run name alias rest :
  produces (Forall (alias_is_free alias))
    (Host.opt_cname_add (name :: alias :: rest)).
Proof.
  pose proof (each_nil (alias_is_free alias)) as Hn.
  pose proof (each_app (P := alias_is_free alias)) as Ha.
  assert (Hq : forall e, quiet e -> Forall (alias_is_free alias) [e])
    by (apply each_quiet; intros [] H; try exact I; destruct H).
  unfold_handlers.
  produce_steps Hn Ha Hq
    ltac:(idtac;
          first
            [ lazymatch goal with
              | |- produces _ (bind (attempt (ask _)) _) =>
                  eapply produces_bind_attempt_ask
              end
            | raising raises ltac:(apply Hq; exact I) ])
    ltac:(constructor; [| constructor]; simpl; learnt;
          match goal with
          | H : host_info_by_name ?tr _ true = Err (HostNotFoundWarning ?msg)
            |- _ => exists tr; left; exists msg; exact H
          | H : host_info_by_name ?tr _ true = Ok ?info,
            Hr : any_truthy ?info _ = Ok false |- _ =>
              exists tr; right; exists info; split; [exact H | exact Hr]
          end).
Qed.

End Forced.

(** X11: when cli_warning raises, add and rename without the argument y
    leave a name that is taken alone: add records and requests something only
    when the server knows no host of the name, rename only when it knows no
    host of the new name. *)
Theorem taken_name_needs_force {w : world} (a b c : string)
  (rest : list string) (st : state) :
  warning_raises = true ->
  (member "y" (a :: b :: c :: rest) = false ->
   Forall (adds_new a) (emitted (Host.opt_add (a :: b :: c :: rest)) st)) /\
  (member "y" (a :: b :: rest) = false ->
   Forall (takes_free b) (emitted (Host.opt_rename (a :: b :: rest)) st)).
Proof.
  intros Hw. split; intros Hy; apply produces_emitted.
  - apply (@add_new_run w Hw a b c rest Hy).
  - apply (@takes_free_run w Hw a b rest Hy).
Qed.

Lemma taken_name_needs_force_witness :
  Forall (@adds_new sample.installation "new.example.org")
    (emitted
       (Host.opt_add (w := sample.installation)
          ["new.example.org"; "10.0.0.9"; "hostmaster@example.org"])
       sample.fresh).
Proof.
  apply (@taken_name_needs_force sample.installation "new.example.org"
           "10.0.0.9" "hostmaster@example.org" [] sample.fresh eq_refl).
  reflexivity.
Defined.

(** X12: when cli_warning raises, srv_add without the argument y records and
    requests something only when the server knows the target, and cname_add
    only when the server knows no host of the alias or one that has no
    hinfo, loc, cname, address or txt. *)
Theorem records_need_their_host {w : world} (a b c d e : string)
  (rest : list string) (st : state) :
  warning_raises = true ->
  (member "y" (a :: b :: c :: d :: e :: rest) = false ->
   Forall (known_target e)
     (emitted (Host.opt_srv_add (a :: b :: c :: d :: e :: rest)) st)) /\
  Forall (alias_is_free b) (emitted (Host.opt_cname_add (a :: b :: rest)) st).
Proof.
  intros Hw. split; [intros Hy |]; apply produces_emitted.
  - apply (@known_target_run w Hw a b c d e rest Hy).
  - apply (@alias_is_free_run w Hw a b rest).
Qed.

Lemma records_need_their_host_witness :
  Forall (@alias_is_free sample.installation "bare.example.org")
    (emitted
       (Host.opt_cname_add (w := sample.installation)
          ["a.example.org"; "bare.example.org"])
       sample.fresh).
Proof.
  apply (@records_need_their_host sample.installation "a.example.org"
           "bare.example.org" "" "" "" [] sample.fresh eq_refl).
Defined.

(** ** The sort never compares across versions *)

Section SortEnds.
Context {w : world}.






End SortEnds.



(** ** Arguments that the handlers do not check *)

Lemma index_of_found flag : forall args i,
  index_of flag args = Some i -> (i < List.length args)%nat.
Proof.
  induction args as [| a args IH]; intros i; simpl; [discriminate |].
  destruct (String.eqb a flag).
  - intros E. injection E as <-. lia.
  - destruct (index_of flag args) as [j |]; [| discriminate].
    intros E. injection E as <-. specialize (IH j eq_refl). lia.
Qed.

(** X14: a flag without its value.  When add is given its three arguments
    and -hinfo as the last word, or no -hinfo and -comment as the last word,
    the value is looked for behind the end of the arguments: an IndexError
    escapes, and nothing is asked of the user, requested or recorded. *)
Theorem add_flag_needs_value {w : world} (name ip contact : string)
  (rest : list string) (st : state) (hi_list : list value) :
  let args := name :: ip :: contact :: rest in
  let last := (List.length args - 1)%nat in
  hinfo_list (events st) = Ok hi_list ->
  index_of "-hinfo" args = Some last \/
  (index_of "-hinfo" args = None /\ index_of "-comment" args = Some last) ->
  Host.opt_add args st = (Err IndexError, st).
Proof.
  intros args last Hh Hflag.
  assert (Hend : arg args (S last) = Err IndexError).
  { unfold arg. replace (nth_error args (S last)) with (@None string);
      [reflexivity |].
    symmetry. apply nth_error_None. subst last args. simpl. lia. }
  unfold Host.opt_add. unfold bind at 1. unfold ask at 1. rewrite Hh.
  unfold bind at 1.
  replace (len args <? 3) with false
    by (symmetry; apply Z.ltb_ge; subst args; unfold len; simpl List.length;
        lia).
  unfold Host.flag_value.
  destruct Hflag as [H | [H1 H2]].
  - fold args. rewrite H, Hend. reflexivity.
  - fold args. rewrite H1, H2, Hend. reflexivity.
Qed.

Lemma add_flag_needs_value_witness :
  Host.opt_add (w := sample.installation)
    ["new.example.org"; "10.0.0.9"; "hostmaster@example.org"; "-hinfo"]
    sample.fresh
  = (Err IndexError, sample.fresh).
Proof.
  apply (@add_flag_needs_value sample.installation "new.example.org"
           "10.0.0.9" "hostmaster@example.org" ["-hinfo"] sample.fresh
           [VStr "pc"; VStr "server"] eq_refl).
  left. reflexivity.
Defined.

(** ** Addresses that are sent *)

Section Sent.
Context {w : world}.
Hypothesis raises : warning_raises = true.

Ltac sent valid :=
  pose proof (each_nil (sends_valid valid)) as Hn;
  pose proof (each_app (P := sends_valid valid)) as Ha;
  assert (Hq : forall e, quiet e -> Forall (sends_valid valid) [e])
    by (apply each_quiet; intros [] H; try exact I; destruct H);
  unfold_handlers;
  produce_steps Hn Ha Hq
    ltac:(idtac; raising raises ltac:(apply Hq; exact I))
    ltac:(constructor; [| constructor]; simpl; learnt;
          first
            [ exact I
            | match goal with
              | H : valid ?ip = true |- _ =>
                  exists ip; split; [reflexivity | exact H]
              end ]).

Lemma a_add_sent args :
  produces (Forall (sends_valid is_valid_ipv4)) (Host.opt_a_add args).
Proof. sent is_valid_ipv4. Qed.

Lemma a_change_sent args :
  produces (Forall (sends_valid is_valid_ipv4)) (Host.opt_a_change args).
Proof. sent is_valid_ipv4. Qed.

Lemma aaaa_add_sent args :
  produces (Forall (sends_valid is_valid_ipv6)) (Host.opt_aaaa_add args).
Proof. sent is_valid_ipv6. Qed.

Lemma aaaa_change_sent args :
  produces (Forall (sends_valid is_valid_ipv6)) (Host.opt_aaaa_change args).
Proof. sent is_valid_ipv6. Qed.

End Sent.

(** X15: when cli_warning raises, the address that a_add and a_change record
    as new data and send to the server is one that is_valid_ipv4 accepts, and
    the address that aaaa_add and aaaa_change record and send is one that
    is_valid_ipv6 accepts, whether it was given as an argument or typed at
    the prompt; a subnet is never replaced by an address of it. *)
Theorem addresses_are_checked {w : world} (args : list string) (st : state) :
  warning_raises = true ->
  Forall (sends_valid is_valid_ipv4) (emitted (Host.opt_a_add args) st) /\
  Forall (sends_valid is_valid_ipv4) (emitted (Host.opt_a_change args) st) /\
  Forall (sends_valid is_valid_ipv6) (emitted (Host.opt_aaaa_add args) st) /\
  Forall (sends_valid is_valid_ipv6) (emitted (Host.opt_aaaa_change args) st).
Proof.
  intros Hw. repeat split; apply produces_emitted.
  - apply (@a_add_sent w Hw).
  - apply (@a_change_sent w Hw).
  - apply (@aaaa_add_sent w Hw).
  - apply (@aaaa_change_sent w Hw).
Qed.

Lemma addresses_are_checked_witness :
  Forall (sends_valid (@is_valid_ipv4 sample.installation))
    (emitted
       (Host.opt_a_add (w := sample.installation)
          ["a.example.org"; "10.0.0.7"]) sample.fresh).
Proof.
  apply (@addresses_are_checked sample.installation
           ["a.example.org"; "10.0.0.7"] sample.fresh eq_refl).
Defined.
